(** * Vortex kernel-launch runtime: [vx_spawn_threads] (kernel/src/vx_spawn.c)

    A shallow embedding of the launcher and of the warp stubs it dispatches,
    followed by the properties of the launch geometry, of the partition of
    blocks over cores and warps, of the lane masks and of the callback
    invocations it performs.

    Conventions.
    - [uint32_t] values are integers of [Z]; every arithmetic operation of
      the source is followed by its wrap-around [u32].
    - A hardware thread is a pair (warp, lane) of one core.  The thread-local
      variables [blockIdx], [threadIdx] and [__local_group_id] live in the
      [tls] component of the state of the core.
    - The user callback is opaque.  An invocation is recorded in the trace of
      the core together with the identifiers the kernel would read.
    - The warps of a core run concurrently on the hardware and share nothing
      they write; the embedding runs the spawned siblings one after the other,
      in warp order, and the lanes of a warp in lane order.  The properties
      below speak of which invocations happen, not of their order. *)

From Stdlib Require Import ZArith List Lia Bool.
Import ListNotations.
Local Open Scope Z_scope.

(** ** Machine integers *)

Definition u32 (v : Z) : Z := v mod 4294967296.

(** The macro [MIN(a, b)]. *)
Definition MIN (a b : Z) : Z := if a <? b then a else b.

(** ** Data *)

(** [dim3_t]: the fields x, y, z, also reachable as [m[0..2]]. *)
Record dim3_t := mk_dim3 { dim_x : Z; dim_y : Z; dim_z : Z }.

Definition set_m (d : dim3_t) (i v : Z) : dim3_t :=
  if i =? 0 then mk_dim3 v (dim_y d) (dim_z d)
  else if i =? 1 then mk_dim3 (dim_x d) v (dim_z d)
  else if i =? 2 then mk_dim3 (dim_x d) (dim_y d) v
  else d.

(** The x-fastest decomposition the source writes out three times:
    [lin % d.x], [(lin / d.x) % d.y], [lin / (d.x * d.y)]. *)
Definition decompose (lin : Z) (d : dim3_t) : dim3_t :=
  mk_dim3 (lin mod dim_x d)
          ((lin / dim_x d) mod dim_y d)
          (lin / u32 (dim_x d * dim_y d)).

Record tls_t := mk_tls {
  blockIdx : dim3_t;
  threadIdx : dim3_t;
  __local_group_id : Z
}.

(** The descriptors passed through the scratch register.  The callback and
    its argument are carried unchanged and are left out. *)
Record wspawn_groups_args_t := mk_groups_args {
  g_group_offset : Z;
  g_warp_batches : Z;
  g_remaining_warps : Z;
  g_warps_per_group : Z;
  g_groups_per_core : Z;
  g_remaining_mask : Z
}.

Record wspawn_threads_args_t := mk_threads_args {
  t_all_tasks_offset : Z;
  t_remain_tasks_offset : Z;
  t_warp_batches : Z;
  t_remaining_warps : Z
}.

Inductive scratch_t :=
| scratch_empty
| scratch_groups (a : wspawn_groups_args_t)
| scratch_threads (a : wspawn_threads_args_t).

Inductive entry_t := entry_groups_stub | entry_threads_stub | entry_null.

(** What a core does that is visible outside the launcher. *)
Inductive event :=
| ev_printf (group_size threads_per_core : Z)
| ev_wspawn (n : Z) (e : entry_t)
| ev_tmc (warp mask : Z)
| ev_callback (warp lane : Z) (ctx : tls_t).

(** The identity queries [vx_num_cores], [vx_num_warps], [vx_num_threads]
    are hardware constants; [vx_core_id] is an argument of the launcher. *)
Record device := mk_device {
  num_cores : Z;
  num_warps : Z;
  num_threads : Z
}.

Record core_state := mk_state {
  gridDim : dim3_t;
  blockDim : dim3_t;
  warps_per_group_pub : Z;        (* __warps_per_group *)
  mscratch : scratch_t;           (* VX_CSR_MSCRATCH *)
  tmask : Z -> Z;                 (* thread mask of each warp *)
  tls : Z -> Z -> tls_t;          (* thread-locals of (warp, lane) *)
  trace : list event              (* oldest first *)
}.

(** ** State updates *)

Definition emit (e : event) (st : core_state) : core_state :=
  mk_state (gridDim st) (blockDim st) (warps_per_group_pub st) (mscratch st)
           (tmask st) (tls st) (trace st ++ [e]).

Definition set_dims (g b : dim3_t) (st : core_state) : core_state :=
  mk_state g b (warps_per_group_pub st) (mscratch st) (tmask st) (tls st)
           (trace st).

Definition set_warps_per_group (v : Z) (st : core_state) : core_state :=
  mk_state (gridDim st) (blockDim st) v (mscratch st) (tmask st) (tls st)
           (trace st).

Definition csr_write (d : scratch_t) (st : core_state) : core_state :=
  mk_state (gridDim st) (blockDim st) (warps_per_group_pub st) d (tmask st)
           (tls st) (trace st).

Definition set_tls (warp lane : Z) (f : tls_t -> tls_t) (st : core_state)
  : core_state :=
  mk_state (gridDim st) (blockDim st) (warps_per_group_pub st) (mscratch st)
           (tmask st)
           (fun w t => if (w =? warp) && (t =? lane)
                       then f (tls st w t) else tls st w t)
           (trace st).

(** Modelled from the spec: the mask-control primitive [vx_tmc] (declared in
    vx_intrinsics.h): "set lane-mask to arbitrary 32-bit value". *)
Definition vx_tmc (warp mask : Z) (st : core_state) : core_state :=
  emit (ev_tmc warp mask)
       (mk_state (gridDim st) (blockDim st) (warps_per_group_pub st)
                 (mscratch st)
                 (fun w => if w =? warp then mask else tmask st w)
                 (tls st) (trace st)).

(** Modelled from the spec: a lane of a warp executes when its bit of the
    thread mask is set ("per-warp bitmask selecting which lanes execute"). *)
Definition lanes_of_mask (threads_per_warp mask : Z) : list Z :=
  filter (fun t => Z.testbit mask t)
         (map Z.of_nat (seq 0 (Z.to_nat threads_per_warp))).

(** The user callback, run by one lane. *)
Definition callback (warp lane : Z) (st : core_state) : core_state :=
  emit (ev_callback warp lane (tls st warp lane)) st.

(** ** Control *)

Fixpoint foreach {A S : Type} (l : list A) (f : A -> S -> option S) (s : S)
  : option S :=
  match l with
  | [] => Some s
  | a :: l' =>
      match f a s with
      | Some s' => foreach l' f s'
      | None => None
      end
  end.

(** [for (uint32_t i = start; i < stop; i += step) body(i)]; [None] when the
    fuel does not suffice. *)
Fixpoint for_u32 {S : Type} (fuel : nat) (i stop step : Z)
         (body : Z -> S -> S) (s : S) : option S :=
  match fuel with
  | O => None
  | Datatypes.S fuel' =>
      if i <? stop
      then for_u32 fuel' (u32 (i + step)) stop step body (body i s)
      else Some s
  end.

(** The lanes enabled by the thread mask of the warp run [body]. *)
Definition run_lanes (dev : device) (warp : Z)
           (body : Z -> core_state -> option core_state) (st : core_state)
  : option core_state :=
  foreach (lanes_of_mask (num_threads dev) (tmask st warp)) body st.

(** ** The task path: [process_threads], [process_remaining_threads] *)

Definition threads_iterations (targs : wspawn_threads_args_t) (warp_id : Z) : Z :=
  u32 (t_warp_batches targs
       + (if warp_id <? t_remaining_warps targs then 1 else 0)).

Definition process_threads (fuel : nat) (dev : device) (warp_id thread_id : Z)
           (st : core_state) : option core_state :=
  match mscratch st with
  | scratch_threads targs =>
      let threads_per_warp := num_threads dev in
      let start_warp :=
        u32 (u32 (warp_id * t_warp_batches targs)
             + MIN warp_id (t_remaining_warps targs)) in
      let iterations := threads_iterations targs warp_id in
      let start_task_id :=
        u32 (u32 (t_all_tasks_offset targs + u32 (start_warp * threads_per_warp))
             + thread_id) in
      let end_task_id := u32 (start_task_id + u32 (iterations * threads_per_warp)) in
      let st1 :=
        set_tls warp_id thread_id
                (fun c => mk_tls (blockIdx c) (mk_dim3 0 0 0) 0) st in
      for_u32 fuel start_task_id end_task_id threads_per_warp
              (fun task_id s =>
                 callback warp_id thread_id
                   (set_tls warp_id thread_id
                      (fun c => mk_tls (decompose task_id (gridDim s))
                                       (threadIdx c) (__local_group_id c)) s))
              st1
  | _ => None
  end.

(** [task_id] is computed and not used: the callback runs with the
    thread-locals the lane already has. *)
Definition process_remaining_threads (warp_id thread_id : Z) (st : core_state)
  : option core_state :=
  match mscratch st with
  | scratch_threads targs =>
      let task_id := u32 (t_remain_tasks_offset targs + thread_id) in
      Some (callback warp_id thread_id st)
  | _ => None
  end.

Definition process_threads_stub (fuel : nat) (dev : device) (warp_id : Z)
           (st : core_state) : option core_state :=
  match run_lanes dev warp_id (process_threads fuel dev warp_id)
                  (vx_tmc warp_id (u32 (-1)) st) with
  | Some st' => Some (vx_tmc warp_id 0 st')
  | None => None
  end.

(** ** The group path: [process_thread_groups] and its stub *)

Definition groups_iterations (targs : wspawn_groups_args_t) (warp_id : Z) : Z :=
  u32 (g_warp_batches targs
       + (if warp_id <? g_remaining_warps targs then 1 else 0)).

Definition process_thread_groups (fuel : nat) (dev : device)
           (warp_id thread_id : Z) (st : core_state) : option core_state :=
  match mscratch st with
  | scratch_groups targs =>
      let threads_per_warp := num_threads dev in
      let warps_per_group := g_warps_per_group targs in
      let groups_per_core := g_groups_per_core targs in
      let iterations := groups_iterations targs warp_id in
      let local_group_id := warp_id / warps_per_group in
      let group_warp_id := u32 (warp_id - u32 (local_group_id * warps_per_group)) in
      let local_task_id := u32 (u32 (group_warp_id * threads_per_warp) + thread_id) in
      let start_group := u32 (g_group_offset targs + local_group_id) in
      let end_group := u32 (start_group + u32 (iterations * groups_per_core)) in
      let st1 :=
        set_tls warp_id thread_id
                (fun c => mk_tls (blockIdx c)
                                 (decompose local_task_id (blockDim st))
                                 local_group_id) st in
      for_u32 fuel start_group end_group groups_per_core
              (fun group_id s =>
                 callback warp_id thread_id
                   (set_tls warp_id thread_id
                      (fun c => mk_tls (decompose group_id (gridDim s))
                                       (threadIdx c) (__local_group_id c)) s))
              st1
  | _ => None
  end.

(** The mask [process_thread_groups_stub] hands to [vx_tmc]. *)
Definition threads_mask (targs : wspawn_groups_args_t) (warp_id : Z) : Z :=
  let warps_per_group := g_warps_per_group targs in
  let remaining_mask := g_remaining_mask targs in
  let group_warp_id := warp_id mod warps_per_group in
  if group_warp_id =? u32 (warps_per_group - 1) then remaining_mask else u32 (-1).

Definition process_thread_groups_stub (fuel : nat) (dev : device) (warp_id : Z)
           (st : core_state) : option core_state :=
  match mscratch st with
  | scratch_groups targs =>
      match run_lanes dev warp_id (process_thread_groups fuel dev warp_id)
                      (vx_tmc warp_id (threads_mask targs warp_id) st) with
      | Some st' => Some (vx_tmc warp_id (if 0 =? warp_id then 1 else 0) st')
      | None => None
      end
  | _ => None
  end.

(** ** Warp spawn *)

Definition run_entry (fuel : nat) (dev : device) (e : entry_t) (warp_id : Z)
           (st : core_state) : option core_state :=
  match e with
  | entry_groups_stub => process_thread_groups_stub fuel dev warp_id st
  | entry_threads_stub => process_threads_stub fuel dev warp_id st
  | entry_null => Some st
  end.

Definition siblings (n : Z) : list Z :=
  map Z.of_nat (seq 1 (Z.to_nat n - 1)).

(** Modelled from the spec: the warp-spawn primitive [vx_wspawn] (declared in
    vx_intrinsics.h): "dispatch N-1 sibling warps onto a given entry address
    and return on the calling warp". *)
Definition vx_wspawn (fuel : nat) (dev : device) (n : Z) (e : entry_t)
           (st : core_state) : option core_state :=
  foreach (siblings n) (run_entry fuel dev e) (emit (ev_wspawn n e) st).

(** ** The launcher: [vx_spawn_threads] *)

(** *** Step 1: the geometry loop *)

Record geometry := mk_geometry {
  num_groups : Z;
  group_size : Z;
  geo_gridDim : dim3_t;
  geo_blockDim : dim3_t
}.

(** [(dim && (i < dimension)) ? dim[i] : 1].  A pointer is the memory it
    points to, index to word, or [None] when null; a load yields a 32-bit
    value. *)
Definition axis (dim : option (Z -> Z)) (dimension i : Z) : Z :=
  match dim with
  | Some a => if i <? dimension then u32 (a i) else 1
  | None => 1
  end.

Definition geometry_step (dimension : Z) (grid_dim block_dim : option (Z -> Z))
           (g : geometry) (i : Z) : geometry :=
  let gd := axis grid_dim dimension i in
  let bd := axis block_dim dimension i in
  mk_geometry (u32 (num_groups g * gd)) (u32 (group_size g * bd))
              (set_m (geo_gridDim g) i gd) (set_m (geo_blockDim g) i bd).

Definition normalize (dimension : Z) (grid_dim block_dim : option (Z -> Z))
           (st : core_state) : geometry :=
  fold_left (geometry_step dimension grid_dim block_dim) [0; 1; 2]
            (mk_geometry 1 1 (gridDim st) (blockDim st)).

(** *** Step 4 (a-f): the schedule of the group path *)

Record groups_plan_t := mk_groups_plan {
  gp_warps_per_group : Z;
  gp_remaining_threads : Z;
  gp_remaining_mask : Z;
  gp_needed_warps : Z;
  gp_active_cores : Z;
  gp_total_groups_per_core : Z;
  gp_groups_launchable : Z;     (* groups_launchable_concurrently_on_core *)
  gp_total_warps : Z;           (* total_warps_for_this_core *)
  gp_active_warps : Z;          (* active_warps_this_batch *)
  gp_warp_batches : Z;
  gp_remaining_warps : Z;       (* remaining_warps_after_batches *)
  gp_group_offset : Z
}.

Definition groups_plan (dev : device) (core_id num_groups group_size : Z)
  : groups_plan_t :=
  let warps_per_core := num_warps dev in
  let threads_per_warp := num_threads dev in
  let remaining_threads := group_size mod threads_per_warp in
  let warps_per_group :=
    if remaining_threads =? 0 then group_size / threads_per_warp
    else u32 (group_size / threads_per_warp + 1) in
  let remaining_mask :=
    if remaining_threads =? 0 then u32 (-1)
    else u32 (Z.shiftl 1 remaining_threads - 1) in
  let needed_warps := u32 (num_groups * warps_per_group) in
  let needed_cores := u32 (needed_warps + warps_per_core - 1) / warps_per_core in
  let active_cores := MIN needed_cores (num_cores dev) in
  let total_groups_per_core :=
    if core_id <? num_groups mod active_cores
    then u32 (num_groups / active_cores + 1)
    else num_groups / active_cores in
  let groups_launchable := warps_per_core / warps_per_group in
  let total_warps := u32 (total_groups_per_core * warps_per_group) in
  let batched := warps_per_core <? total_warps in
  let active_warps :=
    if batched then u32 (groups_launchable * warps_per_group) else total_warps in
  let warp_batches := if batched then total_warps / active_warps else 1 in
  let remaining_warps := if batched then total_warps mod active_warps else 0 in
  let group_offset :=
    u32 (u32 (core_id * (num_groups / active_cores))
         + MIN core_id (num_groups mod active_cores)) in
  mk_groups_plan warps_per_group remaining_threads remaining_mask needed_warps
                 active_cores total_groups_per_core groups_launchable
                 total_warps active_warps warp_batches remaining_warps
                 group_offset.

Definition groups_args (p : groups_plan_t) : wspawn_groups_args_t :=
  mk_groups_args (gp_group_offset p) (gp_warp_batches p) (gp_remaining_warps p)
                 (gp_warps_per_group p) (gp_groups_launchable p)
                 (gp_remaining_mask p).

(** *** Step 4 (k-o): the schedule of the task path *)

Record threads_plan_t := mk_threads_plan {
  tp_active_cores : Z;
  tp_tasks_per_core : Z;
  tp_total_warps : Z;             (* total_warps_for_this_core_tasks *)
  tp_remaining_tasks : Z;         (* remaining_individual_tasks *)
  tp_active_warps : Z;            (* active_warps_this_batch_tasks *)
  tp_warp_batches : Z;
  tp_remaining_warps : Z;
  tp_all_tasks_offset : Z;
  tp_remain_tasks_offset : Z
}.

Definition threads_plan (dev : device) (core_id num_tasks : Z) : threads_plan_t :=
  let warps_per_core := num_warps dev in
  let threads_per_warp := num_threads dev in
  let threads_per_core := u32 (warps_per_core * threads_per_warp) in
  let needed_cores := u32 (num_tasks + threads_per_core - 1) / threads_per_core in
  let active_cores := MIN needed_cores (num_cores dev) in
  let tasks_per_core :=
    if core_id <? num_tasks mod active_cores
    then u32 (num_tasks / active_cores + 1)
    else num_tasks / active_cores in
  let total_warps := tasks_per_core / threads_per_warp in
  let remaining_tasks := tasks_per_core mod threads_per_warp in
  let batched := warps_per_core <? total_warps in
  let active_warps := if batched then warps_per_core else total_warps in
  let warp_batches := if batched then total_warps / active_warps else 1 in
  let remaining_warps := if batched then total_warps mod active_warps else 0 in
  let all_tasks_offset :=
    u32 (u32 (core_id * (num_tasks / active_cores))
         + MIN core_id (num_tasks mod active_cores)) in
  let remain_tasks_offset :=
    u32 (all_tasks_offset + u32 (tasks_per_core - remaining_tasks)) in
  mk_threads_plan active_cores tasks_per_core total_warps remaining_tasks
                  active_warps warp_batches remaining_warps all_tasks_offset
                  remain_tasks_offset.

Definition threads_args (p : threads_plan_t) : wspawn_threads_args_t :=
  mk_threads_args (tp_all_tasks_offset p) (tp_remain_tasks_offset p)
                  (tp_warp_batches p) (tp_remaining_warps p).

(** *** The two paths, from the scratch write to the join *)

Definition spawn_groups (fuel : nat) (dev : device) (p : groups_plan_t)
           (st : core_state) : option core_state :=
  let st1 := csr_write (scratch_groups (groups_args p)) st in
  let st2 := set_warps_per_group (gp_warps_per_group p) st1 in
  match vx_wspawn fuel dev (gp_active_warps p) entry_groups_stub st2 with
  | Some st3 => process_thread_groups_stub fuel dev 0 st3
  | None => None
  end.

Definition spawn_full_warps (fuel : nat) (dev : device) (p : threads_plan_t)
           (st : core_state) : option core_state :=
  if 1 <=? tp_active_warps p then
    match vx_wspawn fuel dev (tp_active_warps p) entry_threads_stub st with
    | Some st1 =>
        match run_lanes dev 0 (process_threads fuel dev 0)
                        (vx_tmc 0 (u32 (-1)) st1) with
        | Some st2 => Some (vx_tmc 0 1 st2)
        | None => None
        end
    | None => None
    end
  else Some st.

Definition spawn_tail (dev : device) (p : threads_plan_t) (st : core_state)
  : option core_state :=
  if tp_remaining_tasks p =? 0 then Some st
  else
    let tmask := u32 (Z.shiftl 1 (tp_remaining_tasks p) - 1) in
    match run_lanes dev 0 (process_remaining_threads 0) (vx_tmc 0 tmask st) with
    | Some st1 => Some (vx_tmc 0 1 st1)
    | None => None
    end.

Definition spawn_tasks (fuel : nat) (dev : device) (p : threads_plan_t)
           (st : core_state) : option core_state :=
  let st1 := csr_write (scratch_threads (threads_args p)) st in
  match spawn_full_warps fuel dev p st1 with
  | Some st2 => spawn_tail dev p st2
  | None => None
  end.

(** *** The entry point

    The result is the returned [int] and the state of the core, or [None]
    when a loop of a stub ran out of fuel. *)
Definition vx_spawn_threads (fuel : nat) (dev : device) (core_id : Z)
           (dimension : Z) (grid_dim block_dim : option (Z -> Z))
           (st : core_state) : option (Z * core_state) :=
  let geo := normalize dimension grid_dim block_dim st in
  let st0 := set_dims (geo_gridDim geo) (geo_blockDim geo) st in
  let warps_per_core := num_warps dev in
  let threads_per_warp := num_threads dev in
  let threads_per_core := u32 (warps_per_core * threads_per_warp) in
  if threads_per_core <? group_size geo then
    Some (-1, emit (ev_printf (group_size geo) threads_per_core) st0)
  else
    let join (r : option core_state) :=
      match r with
      | Some st' =>
          match vx_wspawn fuel dev 1 entry_null st' with
          | Some st'' => Some (0, st'')
          | None => None
          end
      | None => None
      end in
    if 1 <? group_size geo then
      let p := groups_plan dev core_id (num_groups geo) (group_size geo) in
      if gp_active_cores p <=? core_id then Some (0, st0)
      else join (spawn_groups fuel dev p st0)
    else
      let st1 := set_warps_per_group 0 st0 in
      let p := threads_plan dev core_id (num_groups geo) in
      if tp_active_cores p <=? core_id then Some (0, st1)
      else join (spawn_tasks fuel dev p st1).

(** ** Reading a run *)

Definition arr (l : list Z) : Z -> Z := fun i => nth (Z.to_nat i) l 0.

Definition tls0 : tls_t := mk_tls (mk_dim3 0 0 0) (mk_dim3 0 0 0) 0.

(** A core before its first launch. *)
Definition boot : core_state :=
  mk_state (mk_dim3 0 0 0) (mk_dim3 0 0 0) 0 scratch_empty
           (fun w => if w =? 0 then 1 else 0) (fun _ _ => tls0) [].

(** The callback invocations of a trace: warp, lane and what the kernel
    reads. *)
Definition calls (tr : list event) : list (Z * Z * tls_t) :=
  flat_map (fun e => match e with
                     | ev_callback w t c => [(w, t, c)]
                     | _ => []
                     end) tr.

Definition lin_of (d : dim3_t) (gd : dim3_t) : Z :=
  dim_x d + dim_x gd * (dim_y d + dim_y gd * dim_z d).

(** The part of the hardware the launcher relies on: at least one core and
    one warp, between 1 and 32 lanes per warp (the thread mask has 32 bits),
    and a warp-lane product that fits a machine word. *)
Record device_ok (dev : device) : Prop := mk_device_ok {
  cores_ok : 1 <= num_cores dev < 4294967296;
  warps_ok : 1 <= num_warps dev;
  threads_ok : 1 <= num_threads dev <= 32;
  capacity_ok : num_warps dev * num_threads dev < 4294967296
}.

(** The launch passes the capacity check of step 3. *)
Definition validated (dev : device) (geo : geometry) : Prop :=
  group_size geo <= u32 (num_warps dev * num_threads dev).

(** The slab of blocks (of tasks, when a block is one thread) that the
    launcher running on core [core_id] takes, and the number of cores that
    take one.  The two paths compute them with the same expressions. *)
Definition active_cores (dev : device) (geo : geometry) : Z :=
  if 1 <? group_size geo
  then gp_active_cores (groups_plan dev 0 (num_groups geo) (group_size geo))
  else tp_active_cores (threads_plan dev 0 (num_groups geo)).

Definition slab_offset (dev : device) (geo : geometry) (core_id : Z) : Z :=
  if 1 <? group_size geo
  then gp_group_offset (groups_plan dev core_id (num_groups geo) (group_size geo))
  else tp_all_tasks_offset (threads_plan dev core_id (num_groups geo)).

Definition slab_size (dev : device) (geo : geometry) (core_id : Z) : Z :=
  if 1 <? group_size geo
  then gp_total_groups_per_core
         (groups_plan dev core_id (num_groups geo) (group_size geo))
  else tp_tasks_per_core (threads_plan dev core_id (num_groups geo)).

Definition sum_Z (l : list Z) : Z := fold_right Z.add 0 l.

(** The identifiers [0 .. k-1] (of lanes, of warps, of cores). *)
Definition first_lanes (k : Z) : list Z := map Z.of_nat (seq 0 (Z.to_nat k)).

(** The iteration counts of the warps [0 .. active_warps - 1] that the group
    path starts on a core, added up. *)
Definition sum_iterations (p : groups_plan_t) : Z :=
  sum_Z (map (groups_iterations (groups_args p))
             (first_lanes (gp_active_warps p))).

(** The number of callback invocations a core has made. *)
Definition ncalls (st : core_state) : Z := Z.of_nat (length (calls (trace st))).

(** [body i], [body (i + step)], ... : [n] rounds of a loop. *)
Fixpoint iterate {S : Type} (body : Z -> S -> S) (i step : Z) (n : nat) (s : S)
  : S :=
  match n with
  | O => s
  | Datatypes.S k => iterate body (i + step) step k (body i s)
  end.

(** What the stubs leave alone: the published globals and the scratch
    register. *)
Definition same_globals (st st' : core_state) : Prop :=
  gridDim st' = gridDim st /\ blockDim st' = blockDim st
  /\ warps_per_group_pub st' = warps_per_group_pub st
  /\ mscratch st' = mscratch st.

(** The state with another published [blockDim]. *)
Definition with_blockDim (b : dim3_t) (st : core_state) : core_state :=
  set_dims (gridDim st) b st.


(** The rounds of the block loop that a warp of the group path runs: its
    [iterations], or none when the 32-bit bound of the loop wraps around. *)
Definition groups_warp_rounds (targs : wspawn_groups_args_t) (warp_id : Z) : Z :=
  let iterations := groups_iterations targs warp_id in
  let start_group :=
    u32 (g_group_offset targs + warp_id / g_warps_per_group targs) in
  if start_group + iterations * g_groups_per_core targs <? 4294967296
  then iterations else 0.

(** The callback invocations of one warp of the group path: one per enabled
    lane and round. *)
Definition groups_warp_calls (dev : device) (targs : wspawn_groups_args_t)
           (warp_id : Z) : Z :=
  Z.of_nat (length (lanes_of_mask (num_threads dev)
                                  (threads_mask targs warp_id)))
  * groups_warp_rounds targs warp_id.

(** The first block of core [c] when [n] blocks are dealt to [a] cores (and
    the first warp-row of warp [c] when [n] rows are dealt to [a] warps). *)
Definition slab_start (n a c : Z) : Z := c * (n / a) + Z.min c (n mod a).

(** The state a lane leaves: globals, scratch register and thread masks as
    before, [k] callback invocations more. *)
Definition lane_ran (st st' : core_state) (k : Z) : Prop :=
  same_globals st st' /\ tmask st' = tmask st /\ ncalls st' = ncalls st + k.

(** The block indices (x axis) that the callback invocations of a finished
    launch observed, in trace order. *)
Definition observed_blocks (r : option (Z * core_state)) : list Z :=
  match r with
  | Some (_, st) => map (fun c => dim_x (blockIdx (snd c))) (calls (trace st))
  | None => []
  end.

(** *** The callback invocations of the group path, spelled out *)

(** The linear block index of round [k] of warp [warp_id]. *)
Definition round_group_id (targs : wspawn_groups_args_t) (warp_id k : Z) : Z :=
  u32 (g_group_offset targs + warp_id / g_warps_per_group targs)
  + k * g_groups_per_core targs.

(** The linear thread index [local_task_id] of a lane. *)
Definition lane_task_id (dev : device) (targs : wspawn_groups_args_t)
           (warp_id thread_id : Z) : Z :=
  let local_group_id := warp_id / g_warps_per_group targs in
  let group_warp_id :=
    u32 (warp_id - u32 (local_group_id * g_warps_per_group targs)) in
  u32 (u32 (group_warp_id * num_threads dev) + thread_id).

Definition rounds_of (targs : wspawn_groups_args_t) (warp_id : Z) : list Z :=
  first_lanes (groups_warp_rounds targs warp_id).

Definition lane_events (dev : device) (targs : wspawn_groups_args_t)
           (gd bd : dim3_t) (warp_id thread_id : Z) : list (Z * Z * tls_t) :=
  map (fun k =>
         (warp_id, thread_id,
          mk_tls (decompose (round_group_id targs warp_id k) gd)
                 (decompose (lane_task_id dev targs warp_id thread_id) bd)
                 (warp_id / g_warps_per_group targs)))
      (rounds_of targs warp_id).

Definition warp_events (dev : device) (targs : wspawn_groups_args_t)
           (gd bd : dim3_t) (warp_id : Z) : list (Z * Z * tls_t) :=
  flat_map (lane_events dev targs gd bd warp_id)
           (lanes_of_mask (num_threads dev) (threads_mask targs warp_id)).

(** The warps of a core in the order the embedding runs them. *)
Definition warps_run (active_warps : Z) : list Z := siblings active_warps ++ [0].

Definition core_events (dev : device) (p : groups_plan_t) (gd bd : dim3_t)
  : list (Z * Z * tls_t) :=
  flat_map (warp_events dev (groups_args p) gd bd)
           (warps_run (gp_active_warps p)).

(** What the kernel identifies itself by: [blockIdx] and [threadIdx]. *)
Definition identity (c : Z * Z * tls_t) : dim3_t * dim3_t :=
  (blockIdx (snd c), threadIdx (snd c)).

(** The callback invocations of a group-path launch on core [core_id], and
    the identities observed by the cores together. *)
Definition launch_events (dev : device) (geo : geometry) (core_id : Z)
  : list (Z * Z * tls_t) :=
  if core_id <? active_cores dev geo
  then core_events dev
         (groups_plan dev core_id (num_groups geo) (group_size geo))
         (geo_gridDim geo) (geo_blockDim geo)
  else [].

Definition launch_identities (dev : device) (geo : geometry)
  : list (dim3_t * dim3_t) :=
  flat_map (fun c => map identity (launch_events dev geo c))
           (first_lanes (num_cores dev)).

(** [b] is a block of the grid [d] (a thread of the block [d]). *)
Definition inside (b d : dim3_t) : Prop :=
  0 <= dim_x b < dim_x d /\ 0 <= dim_y b < dim_y d /\ 0 <= dim_z b < dim_z d.

(** *** The callback invocations of the full-warp section, spelled out *)

Definition start_task_id (dev : device) (targs : wspawn_threads_args_t)
           (warp_id thread_id : Z) : Z :=
  let start_warp :=
    u32 (u32 (warp_id * t_warp_batches targs)
         + MIN warp_id (t_remaining_warps targs)) in
  u32 (u32 (t_all_tasks_offset targs + u32 (start_warp * num_threads dev))
       + thread_id).

(** The rounds of the task loop that a lane runs: the [iterations] of its
    warp, or none when the 32-bit bound of the loop wraps around. *)
Definition threads_lane_rounds (dev : device) (targs : wspawn_threads_args_t)
           (warp_id thread_id : Z) : Z :=
  let iterations := threads_iterations targs warp_id in
  if start_task_id dev targs warp_id thread_id + iterations * num_threads dev
     <? 4294967296
  then iterations else 0.

Definition task_lane_events (dev : device) (targs : wspawn_threads_args_t)
           (gd : dim3_t) (warp_id thread_id : Z) : list (Z * Z * tls_t) :=
  map (fun k =>
         (warp_id, thread_id,
          mk_tls (decompose (start_task_id dev targs warp_id thread_id
                             + k * num_threads dev) gd)
                 (mk_dim3 0 0 0) 0))
      (first_lanes (threads_lane_rounds dev targs warp_id thread_id)).

Definition task_warp_events (dev : device) (targs : wspawn_threads_args_t)
           (gd : dim3_t) (warp_id : Z) : list (Z * Z * tls_t) :=
  flat_map (task_lane_events dev targs gd warp_id)
           (lanes_of_mask (num_threads dev) (u32 (-1))).

Definition full_warp_events (dev : device) (p : threads_plan_t) (gd : dim3_t)
  : list (Z * Z * tls_t) :=
  if 1 <=? tp_active_warps p
  then flat_map (task_warp_events dev (threads_args p) gd)
                (warps_run (tp_active_warps p))
  else [].

(** ** Further readings of a run *)

(** [start_warp] of [process_threads]: the first row of full warps that warp
    [warp_id] takes. *)
Definition threads_start_warp (targs : wspawn_threads_args_t) (warp_id : Z) : Z :=
  u32 (u32 (warp_id * t_warp_batches targs)
       + MIN warp_id (t_remaining_warps targs)).

(** The control events of a trace: what the core asks of the hardware (warp
    spawns, thread masks) and what it prints; the callback invocations are
    left out. *)
Definition controls (tr : list event) : list event :=
  filter (fun e => match e with
                   | ev_callback _ _ _ => false
                   | _ => true
                   end) tr.

(** An event that stays within the device: a spawn of at most
    [warps_per_core] warps, a 32-bit mask set on an existing warp, a
    callback run by an existing lane of an existing warp. *)
Definition within_hardware (dev : device) (e : event) : Prop :=
  match e with
  | ev_printf _ _ => True
  | ev_wspawn n _ => 0 <= n <= num_warps dev
  | ev_tmc w m => 0 <= w < num_warps dev /\ 0 <= m < 4294967296
  | ev_callback w t _ => 0 <= w < num_warps dev /\ 0 <= t < num_threads dev
  end.

(** The events of the lanes of warp [w]: callbacks only. *)
Definition lane_event (dev : device) (w : Z) (e : event) : Prop :=
  exists t c, e = ev_callback w t c /\ 0 <= t < num_threads dev.

(** What a masked section of warp [w] leaves: the scratch register as it
    was, the mask of [w] set to [after], and the trace longer by the two
    mask events around the callbacks of the lanes of [w]. *)
Definition warp_ran (dev : device) (w mask after : Z) (st st' : core_state)
  : Prop :=
  mscratch st' = mscratch st
  /\ (forall w', tmask st' w' = if w' =? w then after else tmask st w')
  /\ exists body,
       trace st' = trace st ++ ev_tmc w mask :: body ++ [ev_tmc w after]
       /\ Forall (lane_event dev w) body.

(** What a lane of warp [w] leaves: the scratch register and the thread
    masks as they were, the trace longer by callbacks of lanes of [w]. *)
Definition lane_grew (dev : device) (w : Z) (st st' : core_state) : Prop :=
  mscratch st' = mscratch st /\ tmask st' = tmask st
  /\ exists body, trace st' = trace st ++ body /\ Forall (lane_event dev w) body.

(** The trace of [st'] is the trace of [st] and then events within the
    device. *)
Definition grew_within (dev : device) (st st' : core_state) : Prop :=
  exists new, trace st' = trace st ++ new /\ Forall (within_hardware dev) new.

(** The callback invocations of the full-warp sections of a task-path
    launch: those of core [core_id], and the blocks observed by the cores
    together. *)
Definition task_launch_events (dev : device) (geo : geometry) (core_id : Z)
  : list (Z * Z * tls_t) :=
  if core_id <? active_cores dev geo
  then full_warp_events dev (threads_plan dev core_id (num_groups geo))
         (geo_gridDim geo)
  else [].

Definition task_launch_blocks (dev : device) (geo : geometry) : list dim3_t :=
  flat_map (fun c => map (fun e => blockIdx (snd e))
                         (task_launch_events dev geo c))
           (first_lanes (num_cores dev)).

(** The [blockIdx] that the last callback invocation of lane [t] of warp [w]
    among [cs] observed, and [b] when the lane has none. *)
Definition last_block (w t : Z) (cs : list (Z * Z * tls_t)) (b : dim3_t)
  : dim3_t :=
  fold_left (fun acc c =>
               if (fst (fst c) =? w) && (snd (fst c) =? t)
               then blockIdx (snd c) else acc) cs b.

(** The [blockIdx] of every lane is the one its last callback invocation
    since [st] observed. *)
Definition blocks_follow (st s : core_state) : Prop :=
  exists new,
    calls (trace s) = calls (trace st) ++ new
    /\ forall w t,
         blockIdx (tls s w t) = last_block w t new (blockIdx (tls st w t)).

(** ** The conformance test of the launcher (tests/kernel/conform/tests.cpp) *)

(** [int]: 32 bits, two's complement. *)
Definition s32 (v : Z) : Z := (v + 2147483648) mod 4294967296 - 2147483648.

(** What a test prints: its banner, and one line for each wrong entry. *)
Inductive test_line :=
| line_banner
| line_error (i value ref_value : Z).

(** The loop of [check_error], at index [i] with [n] indices left. *)
Fixpoint check_error_loop (buffer : Z -> Z) (n : nat) (i errors : Z)
         (out : list test_line) : Z * list test_line :=
  match n with
  | O => (errors, out)
  | S n' =>
      let value := buffer i in
      let ref_value := s32 (65 + i) in
      if value =? ref_value
      then check_error_loop buffer n' (i + 1) errors out
      else check_error_loop buffer n' (i + 1) (s32 (errors + 1))
                            (out ++ [line_error i value ref_value])
  end.

Definition check_error (buffer : Z -> Z) (offset size : Z)
  : Z * list test_line :=
  check_error_loop buffer (Z.to_nat (size - offset)) offset 0 [].

(** The shifts are defined for counts from 0 to 31. *)
Definition make_select_tmask (tid : Z) : Z := s32 (Z.shiftl 1 tid).

Definition make_full_tmask (num_threads : Z) : Z :=
  s32 (s32 (Z.shiftl 1 num_threads) - 1).

Definition ST_BUF_SZ : Z := 8.

(** The two global buffers of the test. *)
Record st_memory := mk_st_memory {
  st_buffer_src : Z -> Z;
  st_buffer_dst : Z -> Z
}.

Definition store (a : Z -> Z) (i v : Z) : Z -> Z :=
  fun j => if j =? i then v else a j.

(** [st_kernel], run by a lane whose thread-locals are [c], with [arg]
    pointing to the two buffers.  An index outside the buffers is an
    error. *)
Definition st_kernel (c : tls_t) (m : st_memory) : option st_memory :=
  let i := dim_x (blockIdx c) in
  if (0 <=? i) && (i <? ST_BUF_SZ)
  then Some (mk_st_memory (st_buffer_src m)
                          (store (st_buffer_dst m) i (st_buffer_src m i)))
  else None.

(** What the callback invocations of a launch do to the memory: the kernel
    runs once for each invocation the launch added to the trace. *)
Definition run_kernel (kernel : tls_t -> st_memory -> option st_memory)
           (before after : core_state) (m : st_memory) : option st_memory :=
  foreach (skipn (length (calls (trace before))) (calls (trace after)))
          (fun e => kernel (snd e)) m.

(** [test_spawn_tasks] on core [core_id]: the error count, the lines printed
    and the memory and core it leaves. *)
Definition test_spawn_tasks (fuel : nat) (dev : device) (core_id : Z)
           (st : core_state) (m : st_memory)
  : option (Z * list test_line * st_memory * core_state) :=
  let src := fold_left (fun a i => store a i (65 + i)) (first_lanes ST_BUF_SZ)
                       (st_buffer_src m) in
  let m1 := mk_st_memory src (st_buffer_dst m) in
  let num_tasks := ST_BUF_SZ in
  match vx_spawn_threads fuel dev core_id 1 (Some (arr [num_tasks])) None st
  with
  | Some (_, st') =>
      match run_kernel st_kernel st st' m1 with
      | Some m2 =>
          let (errors, out) := check_error (st_buffer_dst m2) 0 ST_BUF_SZ in
          Some (errors, line_banner :: out, m2, st')
      | None => None
      end
  | None => None
  end.

(** * Properties *)

(** ** Machine arithmetic *)

Lemma u32_range v : 0 <= u32 v < 4294967296.
Proof. unfold u32. apply Z.mod_pos_bound. lia. Qed.

Lemma u32_small v : 0 <= v < 4294967296 -> u32 v = v.
Proof. intros H. unfold u32. apply Z.mod_small. exact H. Qed.

Lemma u32_minus_one : u32 (-1) = 4294967295.
Proof. reflexivity. Qed.

Lemma MIN_spec a b : MIN a b = Z.min a b.
Proof. unfold MIN. destruct (Z.ltb_spec a b); lia. Qed.

(** ** The geometry loop *)

Lemma axis_range dim dimension i : 0 <= axis dim dimension i < 4294967296.
Proof.
  unfold axis. destruct dim as [a|]; [destruct (i <? dimension)|];
    try apply u32_range; lia.
Qed.

Lemma normalize_unfold dimension grid_dim block_dim st :
  normalize dimension grid_dim block_dim st =
  let gx := axis grid_dim dimension 0 in
  let gy := axis grid_dim dimension 1 in
  let gz := axis grid_dim dimension 2 in
  let bx := axis block_dim dimension 0 in
  let by_ := axis block_dim dimension 1 in
  let bz := axis block_dim dimension 2 in
  mk_geometry (u32 (u32 (u32 (1 * gx) * gy) * gz))
              (u32 (u32 (u32 (1 * bx) * by_) * bz))
              (mk_dim3 gx gy gz) (mk_dim3 bx by_ bz).
Proof. reflexivity. Qed.

Lemma num_groups_range dimension grid_dim block_dim st :
  0 <= num_groups (normalize dimension grid_dim block_dim st) < 4294967296.
Proof. rewrite normalize_unfold. simpl. apply u32_range. Qed.

Lemma group_size_range dimension grid_dim block_dim st :
  0 <= group_size (normalize dimension grid_dim block_dim st) < 4294967296.
Proof. rewrite normalize_unfold. simpl. apply u32_range. Qed.

(** ** Warp demand of a block *)

Section WarpDemand.

Variable dev : device.
Hypothesis Hdev : device_ok dev.

Let wpc := num_warps dev.
Let tpw := num_threads dev.

Lemma warps_per_group_ceil core_id n gs :
  0 <= gs < 4294967296 ->
  gp_warps_per_group (groups_plan dev core_id n gs) = (gs + tpw - 1) / tpw.
Proof.
  intros Hgs. destruct Hdev as [_ _ Ht _]. fold tpw in Ht.
  unfold groups_plan; cbn [gp_warps_per_group]. fold tpw.
  pose proof (Z.div_mod gs tpw ltac:(lia)) as Hdm.
  pose proof (Z.mod_pos_bound gs tpw ltac:(lia)) as Hr.
  destruct (Z.eqb_spec (gs mod tpw) 0) as [E|E].
  - apply Z.div_unique with (r := tpw - 1); lia.
  - assert (Hq : 0 <= gs / tpw) by (apply Z.div_pos; lia).
    assert (Hq' : gs / tpw <= gs) by (apply Z.div_le_upper_bound; nia).
    rewrite u32_small by nia.
    apply Z.div_unique with (r := gs mod tpw - 1); lia.
Qed.

Lemma warps_per_group_covers core_id n gs :
  0 <= gs < 4294967296 ->
  let w := gp_warps_per_group (groups_plan dev core_id n gs) in
  (w - 1) * tpw < gs <= w * tpw.
Proof.
  intros Hgs w. subst w. rewrite warps_per_group_ceil by assumption.
  destruct Hdev as [_ _ Ht _]. fold tpw in Ht.
  pose proof (Z.div_mod (gs + tpw - 1) tpw ltac:(lia)) as Hdm.
  pose proof (Z.mod_pos_bound (gs + tpw - 1) tpw ltac:(lia)) as Hr.
  nia.
Qed.

Lemma warps_per_group_fits core_id n gs :
  0 <= gs <= u32 (wpc * tpw) ->
  gp_warps_per_group (groups_plan dev core_id n gs) <= wpc.
Proof.
  intros Hgs. destruct Hdev as [_ Hw Ht Hc]. fold tpw in Ht, Hc.
  fold wpc in Hw, Hc.
  rewrite u32_small in Hgs by nia.
  rewrite warps_per_group_ceil by lia.
  apply Z.lt_succ_r. apply Z.div_lt_upper_bound; nia.
Qed.

Lemma warps_per_group_pos core_id n gs :
  1 <= gs < 4294967296 ->
  1 <= gp_warps_per_group (groups_plan dev core_id n gs).
Proof.
  intros Hgs. rewrite warps_per_group_ceil by lia.
  destruct Hdev as [_ _ Ht _]. fold tpw in Ht.
  apply Z.div_le_lower_bound; lia.
Qed.

End WarpDemand.

(** C6 - warp demand bounds.  For a validated launch with more than one
    thread per block, the [warps_per_group] the launcher computes is the
    ceiling of [group_size / threads_per_warp]: it is the quotient rounded
    up, its warps hold the block ([>= group_size] lanes) while one warp fewer
    would not, and it never asks for more lanes than one core has. *)
Theorem warp_demand_bounds dev core_id dimension grid_dim block_dim st :
  device_ok dev ->
  let geo := normalize dimension grid_dim block_dim st in
  validated dev geo ->
  1 < group_size geo ->
  let warps_per_group :=
    gp_warps_per_group
      (groups_plan dev core_id (num_groups geo) (group_size geo)) in
  warps_per_group = (group_size geo + num_threads dev - 1) / num_threads dev
  /\ (warps_per_group - 1) * num_threads dev < group_size geo
  /\ group_size geo <= warps_per_group * num_threads dev
  /\ warps_per_group * num_threads dev <= num_warps dev * num_threads dev.
Proof.
  intros Hdev geo Hval Hgs wpg_.
  pose proof (group_size_range dimension grid_dim block_dim st) as Hr.
  fold geo in Hr. unfold validated in Hval.
  split; [apply warps_per_group_ceil; assumption|].
  pose proof (warps_per_group_covers dev Hdev core_id (num_groups geo)
                (group_size geo) Hr) as Hc.
  pose proof (warps_per_group_fits dev Hdev core_id (num_groups geo)
                (group_size geo) ltac:(lia)) as Hf.
  cbv zeta in Hc. fold wpg_ in Hc, Hf.
  destruct Hdev as [_ _ Ht _].
  repeat split; try lia. apply Z.mul_le_mono_nonneg_r; lia.
Qed.

Lemma dev0_ok : device_ok (mk_device 2 4 4).
Proof. constructor; simpl; lia. Qed.

Lemma warp_demand_bounds_witness :
  let geo := normalize 1 (Some (arr [3])) (Some (arr [6])) boot in
  let warps_per_group :=
    gp_warps_per_group
      (groups_plan (mk_device 2 4 4) 0 (num_groups geo) (group_size geo)) in
  warps_per_group = (group_size geo + 4 - 1) / 4
  /\ (warps_per_group - 1) * 4 < group_size geo
  /\ group_size geo <= warps_per_group * 4
  /\ warps_per_group * 4 <= 4 * 4.
Proof.
  apply (warp_demand_bounds (mk_device 2 4 4) 0 1 (Some (arr [3]))
           (Some (arr [6])) boot dev0_ok).
  - vm_compute. discriminate.
  - vm_compute. reflexivity.
Defined.

(** ** The partition of the blocks over the cores *)

Section Slabs.

Variables n a : Z.
Hypothesis Hn : 0 <= n < 4294967296.
Hypothesis Ha : 1 <= a.

Let base := n / a.
Let rem := n mod a.

Lemma base_rem : n = a * base + rem /\ 0 <= rem < a /\ 0 <= base.
Proof.
  unfold base, rem. pose proof (Z.div_mod n a ltac:(lia)).
  pose proof (Z.mod_pos_bound n a ltac:(lia)).
  assert (0 <= n / a) by (apply Z.div_pos; lia). lia.
Qed.

Lemma slab_start_0 : slab_start n a 0 = 0.
Proof. unfold slab_start; fold base rem. pose proof base_rem. lia. Qed.

Lemma slab_start_last : slab_start n a a = n.
Proof. unfold slab_start; fold base rem. pose proof base_rem. lia. Qed.

Lemma slab_start_succ c :
  0 <= c ->
  slab_start n a (c + 1)
  = slab_start n a c + (base + if c <? rem then 1 else 0).
Proof.
  intros Hc. unfold slab_start; fold base rem.
  destruct (Z.ltb_spec c rem); lia.
Qed.

Lemma slab_start_mono c1 c2 :
  0 <= c1 <= c2 -> slab_start n a c1 <= slab_start n a c2.
Proof.
  intros H. unfold slab_start; fold base rem.
  pose proof base_rem as (_ & _ & Hb).
  assert (c1 * base <= c2 * base) by (apply Z.mul_le_mono_nonneg_r; lia).
  lia.
Qed.

Lemma slab_start_bound c : 0 <= c <= a -> 0 <= slab_start n a c <= n.
Proof.
  intros H.
  pose proof (slab_start_mono 0 c ltac:(lia)) as H0.
  pose proof (slab_start_mono c a ltac:(lia)) as H1.
  rewrite slab_start_0 in H0. rewrite slab_start_last in H1. lia.
Qed.

Lemma slab_cover_upto (k : nat) b :
  slab_start n a 0 <= b < slab_start n a (Z.of_nat k) ->
  exists c, 0 <= c < Z.of_nat k
            /\ slab_start n a c <= b < slab_start n a (c + 1).
Proof.
  induction k as [|k IH]; intros Hb.
  - simpl in Hb. lia.
  - rewrite Nat2Z.inj_succ in Hb. unfold Z.succ in Hb.
    destruct (Z_lt_le_dec b (slab_start n a (Z.of_nat k))) as [Hlt|Hge].
    + destruct IH as (c & Hc & Hin); [lia|]. exists c. split; [lia|exact Hin].
    + exists (Z.of_nat k). split; lia.
Qed.

Lemma slab_cover b :
  0 <= b < n ->
  exists c, 0 <= c < a /\ slab_start n a c <= b < slab_start n a (c + 1).
Proof.
  intros Hb.
  destruct (slab_cover_upto (Z.to_nat a) b) as (c & Hc & Hin).
  - rewrite slab_start_0, Z2Nat.id, slab_start_last by lia. exact Hb.
  - exists c. split; [lia|exact Hin].
Qed.

(** The two expressions of the source, without their wrap-around. *)
Lemma per_core_exact c :
  0 <= c ->
  (if c <? rem then u32 (base + 1) else base)
  = base + (if c <? rem then 1 else 0).
Proof.
  intros Hc. pose proof base_rem as (E & Hr & Hb).
  destruct (Z.ltb_spec c rem); [|lia].
  apply u32_small. nia.
Qed.

Lemma offset_exact c :
  0 <= c < a ->
  u32 (u32 (c * base) + MIN c rem) = slab_start n a c.
Proof.
  intros Hc. pose proof base_rem as (E & Hr & Hb).
  pose proof (slab_start_bound c ltac:(lia)) as Hs. unfold slab_start in Hs |- *;
    fold base rem in Hs |- *.
  rewrite MIN_spec.
  assert (0 <= c * base) by (apply Z.mul_nonneg_nonneg; lia).
  rewrite (u32_small (c * base)) by lia.
  apply u32_small. lia.
Qed.

End Slabs.

Section SlabsOfLaunch.

Variable dev : device.
Variable geo : geometry.
Hypothesis Hn : 0 <= num_groups geo < 4294967296.

Let n := num_groups geo.
Let a := active_cores dev geo.

Lemma slab_offset_closed c :
  0 <= c < a -> slab_offset dev geo c = slab_start n a c.
Proof.
  intros Hc. unfold slab_offset, a, active_cores in *.
  destruct (1 <? group_size geo); cbn in *;
    apply offset_exact; try assumption; lia.
Qed.

Lemma slab_size_closed c :
  0 <= c < a ->
  slab_size dev geo c = n / a + (if c <? n mod a then 1 else 0).
Proof.
  intros Hc. unfold slab_size, a, active_cores in *.
  destruct (1 <? group_size geo); cbn in *;
    apply per_core_exact; try assumption; lia.
Qed.

Lemma slab_next c :
  0 <= c < a ->
  slab_offset dev geo c + slab_size dev geo c = slab_start n a (c + 1).
Proof.
  intros Hc. rewrite slab_offset_closed, slab_size_closed by assumption.
  rewrite slab_start_succ by lia. reflexivity.
Qed.

End SlabsOfLaunch.

(** C8 - balanced partition.  Over the cores that take part in a launch, the
    number of blocks per core (of tasks per core when a block is a single
    thread) differs by at most one between any two cores: the largest minus
    the smallest is at most 1. *)
Theorem balanced_partition dev dimension grid_dim block_dim st c1 c2 :
  let geo := normalize dimension grid_dim block_dim st in
  0 <= c1 < active_cores dev geo ->
  0 <= c2 < active_cores dev geo ->
  slab_size dev geo c1 - slab_size dev geo c2 <= 1.
Proof.
  intros geo H1 H2.
  pose proof (num_groups_range dimension grid_dim block_dim st) as Hn.
  fold geo in Hn.
  rewrite !slab_size_closed by assumption.
  destruct (c1 <? _), (c2 <? _); lia.
Qed.

Lemma balanced_partition_witness :
  let geo := normalize 1 (Some (arr [5])) (Some (arr [4])) boot in
  (0 <= 0 < active_cores (mk_device 2 4 4) geo)
  /\ (0 <= 1 < active_cores (mk_device 2 4 4) geo)
  /\ slab_size (mk_device 2 4 4) geo 0 = 3
  /\ slab_size (mk_device 2 4 4) geo 1 = 2
  /\ slab_size (mk_device 2 4 4) geo 0 - slab_size (mk_device 2 4 4) geo 1 <= 1.
Proof.
  assert (H0 : 0 <= 0 < active_cores (mk_device 2 4 4)
                   (normalize 1 (Some (arr [5])) (Some (arr [4])) boot))
    by (vm_compute; split; [discriminate|reflexivity]).
  assert (H1 : 0 <= 1 < active_cores (mk_device 2 4 4)
                   (normalize 1 (Some (arr [5])) (Some (arr [4])) boot))
    by (vm_compute; split; [discriminate|reflexivity]).
  split; [exact H0|]. split; [exact H1|].
  split; [reflexivity|]. split; [reflexivity|].
  exact (balanced_partition (mk_device 2 4 4) 1 (Some (arr [5]))
           (Some (arr [4])) boot 0 1 H0 H1).
Defined.

(** C3 - slab partition (as amended).  For a launch with [num_groups > 0] in
    which at least one core is active, with [base = num_groups / active_cores]
    and [rem = num_groups mod active_cores]: every active core [c] takes the
    range that starts at [c * base + min c rem] and has
    [base + (c < rem ? 1 : 0)] blocks; the ranges lie in [[0, num_groups)],
    follow one another in the order of [core_id] (the first starts at 0, each
    next one starts where the previous ends, the last ends at [num_groups]),
    so they are pairwise disjoint and every block index below [num_groups]
    lies in the range of exactly one active core. *)
Theorem slab_partition dev dimension grid_dim block_dim st :
  let geo := normalize dimension grid_dim block_dim st in
  let n := num_groups geo in
  let a := active_cores dev geo in
  let base := n / a in
  let rem := n mod a in
  let lo := slab_offset dev geo in
  let hi := fun c => slab_offset dev geo c + slab_size dev geo c in
  0 < n ->
  1 <= a ->
  (forall c, 0 <= c < a ->
     lo c = c * base + Z.min c rem
     /\ slab_size dev geo c = base + (if c <? rem then 1 else 0)
     /\ 0 <= lo c /\ hi c <= n)
  /\ lo 0 = 0
  /\ (forall c, 0 <= c -> c + 1 < a -> lo (c + 1) = hi c)
  /\ hi (a - 1) = n
  /\ (forall c1 c2, 0 <= c1 -> c1 < c2 -> c2 < a -> hi c1 <= lo c2)
  /\ (forall b, 0 <= b < n -> exists c, 0 <= c < a /\ lo c <= b < hi c)
  /\ (forall b c1 c2, 0 <= c1 < a -> 0 <= c2 < a ->
        lo c1 <= b < hi c1 -> lo c2 <= b < hi c2 -> c1 = c2).
Proof.
  intros geo n a base rem lo hi Hpos Ha.
  pose proof (num_groups_range dimension grid_dim block_dim st) as Hn.
  fold geo in Hn. fold n in Hn.
  assert (Hlo : forall c, 0 <= c < a -> lo c = slab_start n a c)
    by (intros; apply slab_offset_closed; assumption).
  assert (Hhi : forall c, 0 <= c < a -> hi c = slab_start n a (c + 1))
    by (intros; apply slab_next; assumption).
  assert (Hdisj : forall c1 c2, 0 <= c1 -> c1 < c2 -> c2 < a -> hi c1 <= lo c2).
  { intros c1 c2 H1 H12 H2. rewrite Hhi, Hlo by lia.
    apply slab_start_mono; lia. }
  repeat split.
  - rewrite Hlo by assumption. reflexivity.
  - apply slab_size_closed; assumption.
  - rewrite Hlo by assumption. apply (slab_start_bound n a Hn Ha); lia.
  - rewrite Hhi by assumption. apply (slab_start_bound n a Hn Ha); lia.
  - rewrite Hlo by lia. apply slab_start_0; assumption.
  - intros c H0 H1. rewrite Hlo, Hhi by lia. reflexivity.
  - rewrite Hhi by lia. replace (a - 1 + 1) with a by lia.
    apply slab_start_last; assumption.
  - exact Hdisj.
  - intros b Hb. destruct (slab_cover n a Hn Ha b Hb) as (c & Hc & Hin).
    exists c. split; [exact Hc|]. rewrite Hlo, Hhi by assumption. exact Hin.
  - intros b c1 c2 H1 H2 B1 B2.
    destruct (Z.lt_trichotomy c1 c2) as [L|[E|L]]; [|exact E|].
    + pose proof (Hdisj c1 c2 ltac:(lia) L ltac:(lia)). lia.
    + pose proof (Hdisj c2 c1 ltac:(lia) L ltac:(lia)). lia.
Qed.

(** At least one core is active as soon as the ceiling division that counts
    the needed cores does not wrap around. *)
Lemma active_cores_pos dev geo :
  device_ok dev ->
  validated dev geo ->
  0 < num_groups geo < 4294967296 ->
  0 <= group_size geo ->
  (if 1 <? group_size geo
   then num_groups geo
        * gp_warps_per_group
            (groups_plan dev 0 (num_groups geo) (group_size geo))
        + num_warps dev - 1
   else num_groups geo + num_warps dev * num_threads dev - 1) < 4294967296 ->
  1 <= active_cores dev geo.
Proof.
  intros Hdev Hval Hn Hgs Hfit. unfold validated in Hval.
  pose proof Hdev as [Hc Hw Ht Hcap].
  unfold active_cores. rewrite u32_small in Hval by nia.
  destruct (Z.ltb_spec 1 (group_size geo)) as [G|G].
  - pose proof (warps_per_group_pos dev Hdev 0 (num_groups geo)
                  (group_size geo) ltac:(lia)) as Hp.
    remember (gp_warps_per_group
                (groups_plan dev 0 (num_groups geo) (group_size geo)))
      as w eqn:Ew.
    unfold groups_plan in *. cbn in Ew |- *. rewrite <- Ew.
    rewrite MIN_spec.
    rewrite (u32_small (num_groups geo * w)) by nia.
    rewrite u32_small by nia.
    assert (1 <= (num_groups geo * w + num_warps dev - 1) / num_warps dev)
      by (apply Z.div_le_lower_bound; nia).
    lia.
  - unfold threads_plan. cbn. rewrite MIN_spec.
    rewrite (u32_small (num_warps dev * num_threads dev)) by nia.
    rewrite u32_small by nia.
    assert (1 <= (num_groups geo + num_warps dev * num_threads dev - 1)
                 / (num_warps dev * num_threads dev))
      by (apply Z.div_le_lower_bound; nia).
    lia.
Qed.

Lemma slab_partition_witness :
  let dev := mk_device 2 4 4 in
  let geo := normalize 1 (Some (arr [5])) (Some (arr [4])) boot in
  0 < num_groups geo
  /\ 1 <= active_cores dev geo
  /\ slab_offset dev geo 0 = 0
  /\ slab_offset dev geo (0 + 1) = slab_offset dev geo 0 + slab_size dev geo 0
  /\ slab_offset dev geo 1 + slab_size dev geo 1 = 5.
Proof.
  intros dev geo.
  assert (Hn : 0 < num_groups geo) by reflexivity.
  assert (Ha : 1 <= active_cores dev geo) by (vm_compute; discriminate).
  destruct (slab_partition dev 1 (Some (arr [5])) (Some (arr [4])) boot Hn Ha)
    as (_ & H0 & Hs & Hl & _).
  split; [exact Hn|]. split; [exact Ha|]. split; [exact H0|].
  split; [apply Hs; vm_compute; [discriminate|reflexivity]|exact Hl].
Defined.

(** C3 as stated fails when the count of needed cores wraps around: with
    4294967295 single-thread blocks on a 2-core, 4-warp, 4-lane device the
    launch is validated and has [num_groups > 0], yet
    [(num_tasks + threads_per_core - 1) / threads_per_core] is 14 / 16 = 0,
    no core is active, every core returns at once, and block 0 lies in the
    range of no active core. *)
Lemma slab_partition_counterexample :
  let dev := mk_device 2 4 4 in
  let geo := normalize 1 (Some (arr [4294967295])) None boot in
  device_ok dev /\ validated dev geo /\ 0 < num_groups geo
  /\ active_cores dev geo = 0
  /\ (forall core_id fuel, 0 <= core_id ->
        exists st, vx_spawn_threads fuel dev core_id 1
                     (Some (arr [4294967295])) None boot = Some (0, st)
                   /\ trace st = [])
  /\ ~ (forall b, 0 <= b < num_groups geo ->
          exists c, 0 <= c < active_cores dev geo
                    /\ slab_offset dev geo c <= b
                       < slab_offset dev geo c + slab_size dev geo c).
Proof.
  intros dev geo.
  split; [exact dev0_ok|]. split; [vm_compute; discriminate|].
  split; [reflexivity|]. split; [reflexivity|]. split.
  - intros core_id fuel Hc. unfold vx_spawn_threads.
    change (normalize 1 (Some (arr [4294967295])) None boot) with geo.
    change (u32 (num_warps dev * num_threads dev) <? group_size geo)
      with false.
    change (1 <? group_size geo) with false.
    cbv iota.
    change (tp_active_cores (threads_plan dev core_id (num_groups geo)))
      with 0.
    destruct (Z.leb_spec 0 core_id); [|lia].
    eexists. split; reflexivity.
  - intros H. destruct (H 0 ltac:(vm_compute; split; [discriminate|reflexivity]))
      as (c & Hc & _).
    change (active_cores dev geo) with 0 in Hc. lia.
Qed.

(** ** Lane masks *)

Lemma filter_low_bits r (k : nat) :
  0 <= r ->
  filter (fun t => Z.testbit (Z.ones r) t) (map Z.of_nat (seq 0 k))
  = map Z.of_nat (seq 0 (Nat.min k (Z.to_nat r))).
Proof.
  intros Hr. induction k as [|k IH]; [reflexivity|].
  rewrite seq_S, map_app, filter_app, IH. cbn [map filter Nat.add].
  rewrite Z.testbit_ones by assumption.
  destruct (Nat.le_gt_cases (Z.to_nat r) k) as [L|L].
  - replace ((0 <=? Z.of_nat k) && (Z.of_nat k <? r)) with false
      by (symmetry; apply andb_false_iff; right; apply Z.ltb_ge; lia).
    rewrite app_nil_r. f_equal. f_equal. lia.
  - replace ((0 <=? Z.of_nat k) && (Z.of_nat k <? r)) with true
      by (symmetry; apply andb_true_iff; split;
          [apply Z.leb_le|apply Z.ltb_lt]; lia).
    rewrite (Nat.min_l k) by lia. rewrite (Nat.min_l (S k)) by lia.
    rewrite seq_S, map_app. reflexivity.
Qed.

Lemma lanes_of_low_mask tpw r :
  0 <= r <= tpw -> lanes_of_mask tpw (Z.ones r) = first_lanes r.
Proof.
  intros H. unfold lanes_of_mask, first_lanes.
  rewrite filter_low_bits by lia. f_equal. f_equal. lia.
Qed.

Lemma lanes_of_full_mask tpw :
  0 <= tpw <= 32 -> lanes_of_mask tpw (u32 (-1)) = first_lanes tpw.
Proof.
  intros H. change (u32 (-1)) with (Z.ones 32).
  unfold lanes_of_mask, first_lanes.
  rewrite filter_low_bits by lia. f_equal. f_equal. lia.
Qed.

Lemma low_mask_u32 r :
  0 <= r < 32 -> u32 (Z.shiftl 1 r - 1) = Z.ones r.
Proof.
  intros H. rewrite Z.ones_equiv, Z.shiftl_1_l. unfold Z.pred.
  replace (2 ^ r - 1) with (Z.pred (2 ^ r)) by lia.
  apply u32_small.
  assert (0 < 2 ^ r) by (apply Z.pow_pos_nonneg; lia).
  assert (2 ^ r <= 2 ^ 31) by (apply Z.pow_le_mono_r; lia).
  change (2 ^ 31) with 2147483648 in *. lia.
Qed.

(** The mask of a warp of the group path and the lanes it enables. *)
Lemma threads_mask_lanes dev core_id n gs w :
  device_ok dev ->
  1 < gs <= u32 (num_warps dev * num_threads dev) ->
  let p := groups_plan dev core_id n gs in
  let r := gs mod num_threads dev in
  let tail := negb (r =? 0) && (w mod gp_warps_per_group p
                                =? gp_warps_per_group p - 1) in
  threads_mask (groups_args p) w = (if tail then Z.ones r else u32 (-1))
  /\ lanes_of_mask (num_threads dev) (threads_mask (groups_args p) w)
     = first_lanes (if tail then r else num_threads dev).
Proof.
  intros Hdev Hgs p r tail.
  pose proof (u32_range (num_warps dev * num_threads dev)) as Hu.
  pose proof Hdev as [_ _ Ht Hc].
  pose proof (warps_per_group_pos dev Hdev core_id n gs ltac:(lia)) as Hw.
  pose proof (warps_per_group_fits dev Hdev core_id n gs ltac:(lia)) as Hf.
  fold p in Hw, Hf.
  pose proof (Z.mod_pos_bound gs (num_threads dev) ltac:(lia)) as Hr.
  fold r in Hr.
  assert (Hmask : threads_mask (groups_args p) w
                  = if tail then Z.ones r else u32 (-1)).
  { unfold threads_mask, groups_args.
    cbn [g_warps_per_group g_remaining_mask].
    rewrite (u32_small (gp_warps_per_group p - 1)) by nia.
    change (gp_remaining_mask p)
      with (if r =? 0 then u32 (-1) else u32 (Z.shiftl 1 r - 1)).
    unfold tail.
    destruct (Z.eqb_spec r 0) as [E|E]; cbn [negb andb].
    - destruct (_ =? _); reflexivity.
    - destruct (_ =? _); [apply low_mask_u32; lia|reflexivity]. }
  split; [exact Hmask|]. rewrite Hmask. destruct tail.
  - apply lanes_of_low_mask. lia.
  - apply lanes_of_full_mask. lia.
Qed.

(** C5 - tail lane mask.  In the group path, with
    [r = group_size mod threads_per_warp]: when [r] is not 0, a warp whose
    position in its block is [warps_per_group - 1] hands [vx_tmc] the mask
    [(1 << r) - 1] and runs the kernel body on exactly the lanes
    [0 .. r-1]; every other warp, and every warp when [r] is 0, runs it on
    all the lanes [0 .. threads_per_warp - 1].  The stub sets that mask
    before the body and runs the body on these lanes only. *)
Theorem tail_lane_mask dev core_id dimension grid_dim block_dim st0 warp_id :
  device_ok dev ->
  let geo := normalize dimension grid_dim block_dim st0 in
  validated dev geo ->
  1 < group_size geo ->
  let p := groups_plan dev core_id (num_groups geo) (group_size geo) in
  let targs := groups_args p in
  let r := group_size geo mod num_threads dev in
  let group_warp_id := warp_id mod gp_warps_per_group p in
  let lanes :=
    if negb (r =? 0) && (group_warp_id =? gp_warps_per_group p - 1)
    then first_lanes r else first_lanes (num_threads dev) in
  (r <> 0 -> group_warp_id = gp_warps_per_group p - 1 ->
   threads_mask targs warp_id = 2 ^ r - 1)
  /\ lanes_of_mask (num_threads dev) (threads_mask targs warp_id) = lanes
  /\ forall fuel st,
       mscratch st = scratch_groups targs ->
       process_thread_groups_stub fuel dev warp_id st =
       match foreach lanes (process_thread_groups fuel dev warp_id)
                     (vx_tmc warp_id (threads_mask targs warp_id) st) with
       | Some st' => Some (vx_tmc warp_id (if 0 =? warp_id then 1 else 0) st')
       | None => None
       end.
Proof.
  intros Hdev geo Hval Hgs p targs r gwid lanes.
  unfold validated in Hval.
  destruct (threads_mask_lanes dev core_id (num_groups geo) (group_size geo)
              warp_id Hdev ltac:(lia)) as (Hmask & Hlanes).
  fold p targs r gwid in Hmask, Hlanes.
  assert (Hl : lanes_of_mask (num_threads dev) (threads_mask targs warp_id)
               = lanes).
  { rewrite Hlanes. unfold lanes. destruct (_ && _); reflexivity. }
  split; [|split].
  - intros Hne Hlast. rewrite Hmask.
    destruct (Z.eqb_spec r 0) as [E|E]; [contradiction|].
    rewrite Hlast, Z.eqb_refl. cbn [negb andb].
    rewrite Z.ones_equiv. unfold Z.pred. lia.
  - exact Hl.
  - intros fuel st Hs. unfold process_thread_groups_stub, run_lanes.
    rewrite Hs. cbn [tmask vx_tmc emit]. rewrite Z.eqb_refl.
    rewrite Hl. reflexivity.
Qed.

Lemma tail_lane_mask_witness :
  let dev := mk_device 2 4 4 in
  let geo := normalize 1 (Some (arr [3])) (Some (arr [6])) boot in
  let targs := groups_args (groups_plan dev 0 (num_groups geo) (group_size geo)) in
  validated dev geo /\ 1 < group_size geo
  /\ lanes_of_mask 4 (threads_mask targs 0) = [0; 1; 2; 3]
  /\ lanes_of_mask 4 (threads_mask targs 1) = [0; 1]
  /\ lanes_of_mask 4 (threads_mask targs 2) = [0; 1; 2; 3]
  /\ lanes_of_mask 4 (threads_mask targs 3) = [0; 1].
Proof.
  intros dev geo targs.
  assert (Hv : validated dev geo) by (vm_compute; discriminate).
  assert (Hg : 1 < group_size geo) by reflexivity.
  split; [exact Hv|]. split; [exact Hg|].
  split; [|split; [|split]].
  - exact (proj1 (proj2 (tail_lane_mask dev 0 1 (Some (arr [3]))
                           (Some (arr [6])) boot 0 dev0_ok Hv Hg))).
  - exact (proj1 (proj2 (tail_lane_mask dev 0 1 (Some (arr [3]))
                           (Some (arr [6])) boot 1 dev0_ok Hv Hg))).
  - exact (proj1 (proj2 (tail_lane_mask dev 0 1 (Some (arr [3]))
                           (Some (arr [6])) boot 2 dev0_ok Hv Hg))).
  - exact (proj1 (proj2 (tail_lane_mask dev 0 1 (Some (arr [3]))
                           (Some (arr [6])) boot 3 dev0_ok Hv Hg))).
Defined.

(** ** Warp batches of the group path *)

Lemma sum_with_extra b r (k : nat) :
  0 <= r ->
  sum_Z (map (fun w => b + (if w <? r then 1 else 0))
             (map Z.of_nat (seq 0 k)))
  = Z.of_nat k * b + Z.min (Z.of_nat k) r.
Proof.
  intros Hr. induction k as [|k IH]; [cbn; lia|].
  rewrite seq_S, !map_app. unfold sum_Z in *. rewrite fold_right_app.
  cbn [map fold_right Nat.add].
  assert (Hshift : forall l x, fold_right Z.add x l = fold_right Z.add 0 l + x).
  { induction l as [|y l IHl]; intros x; cbn; [lia|]. rewrite IHl. lia. }
  rewrite Hshift, IH. destruct (Z.ltb_spec (Z.of_nat k) r); lia.
Qed.

Section Batches.

Variable dev : device.
Hypothesis Hdev : device_ok dev.
Variables core_id n gs : Z.
Hypothesis Hgs : 1 < gs <= u32 (num_warps dev * num_threads dev).

Let p := groups_plan dev core_id n gs.

Lemma groups_launchable_pos : 1 <= gp_groups_launchable p.
Proof.
  pose proof (warps_per_group_pos dev Hdev core_id n gs) as Hp.
  pose proof (warps_per_group_fits dev Hdev core_id n gs ltac:(lia)) as Hf.
  pose proof (u32_range (num_warps dev * num_threads dev)).
  fold p in Hp, Hf. specialize (Hp ltac:(lia)).
  change (gp_groups_launchable p) with (num_warps dev / gp_warps_per_group p).
  apply Z.div_le_lower_bound; lia.
Qed.

Lemma batch_fits :
  u32 (gp_groups_launchable p * gp_warps_per_group p)
  = gp_groups_launchable p * gp_warps_per_group p
  /\ 1 <= gp_groups_launchable p * gp_warps_per_group p <= num_warps dev.
Proof.
  pose proof (warps_per_group_pos dev Hdev core_id n gs) as Hp.
  pose proof (u32_range (num_warps dev * num_threads dev)).
  fold p in Hp. specialize (Hp ltac:(lia)).
  pose proof groups_launchable_pos as Hl.
  assert (Hm : gp_groups_launchable p * gp_warps_per_group p <= num_warps dev).
  { change (gp_groups_launchable p) with (num_warps dev / gp_warps_per_group p).
    rewrite Z.mul_comm. apply Z.mul_div_le. lia. }
  destruct Hdev as [_ Hw Ht Hc].
  split; [apply u32_small; nia|nia].
Qed.

(** The schedule, with the wrap-around of the batch size removed. *)
Lemma schedule_cases :
  let t := gp_total_warps p in
  let batch := gp_groups_launchable p * gp_warps_per_group p in
  (num_warps dev < t /\ gp_active_warps p = batch
   /\ gp_warp_batches p = t / batch /\ gp_remaining_warps p = t mod batch)
  \/ (t <= num_warps dev /\ gp_active_warps p = t
      /\ gp_warp_batches p = 1 /\ gp_remaining_warps p = 0).
Proof.
  intros t batch. pose proof batch_fits as [Eb _]. fold batch in Eb.
  unfold p, groups_plan in *.
  cbn [gp_total_warps gp_groups_launchable gp_warps_per_group gp_active_warps
       gp_warp_batches gp_remaining_warps] in *.
  subst t batch.
  match goal with |- context [num_warps dev <? ?T] =>
    destruct (Z.ltb_spec (num_warps dev) T) as [L|L] end.
  - left. rewrite Eb. repeat split; assumption.
  - right. repeat split; assumption.
Qed.

Lemma iterations_exact w :
  0 <= w ->
  groups_iterations (groups_args p) w
  = gp_warp_batches p + (if w <? gp_remaining_warps p then 1 else 0).
Proof.
  intros Hw. unfold groups_iterations, groups_args.
  cbn [g_warp_batches g_remaining_warps].
  pose proof batch_fits as [_ Hb].
  pose proof (u32_range (gp_total_groups_per_core p * gp_warps_per_group p))
    as Ht. change (u32 (gp_total_groups_per_core p * gp_warps_per_group p))
    with (gp_total_warps p) in Ht.
  apply u32_small.
  destruct schedule_cases as [(L & _ & -> & ->)|(L & _ & -> & ->)].
  - set (t := gp_total_warps p) in *.
    set (batch := gp_groups_launchable p * gp_warps_per_group p) in *.
    pose proof (Z.div_mod t batch ltac:(lia)).
    pose proof (Z.mod_pos_bound t batch ltac:(lia)).
    assert (0 <= t / batch) by (apply Z.div_pos; lia).
    destruct (Z.ltb_spec w (t mod batch)); nia.
  - destruct (w <? 0); lia.
Qed.

Lemma sum_iterations_total : sum_iterations p = gp_total_warps p.
Proof.
  unfold sum_iterations, first_lanes.
  rewrite map_ext_in
    with (g := fun w => gp_warp_batches p
                        + (if w <? gp_remaining_warps p then 1 else 0)).
  2:{ intros w Hin. apply in_map_iff in Hin as (k & <- & _).
      apply iterations_exact. lia. }
  pose proof batch_fits as [_ Hb].
  pose proof (u32_range (gp_total_groups_per_core p * gp_warps_per_group p))
    as Ht. change (u32 (gp_total_groups_per_core p * gp_warps_per_group p))
    with (gp_total_warps p) in Ht.
  destruct schedule_cases as [(L & Ea & Eb & Er)|(L & Ea & Eb & Er)].
  - set (t := gp_total_warps p) in *.
    set (batch := gp_groups_launchable p * gp_warps_per_group p) in *.
    pose proof (Z.div_mod t batch ltac:(lia)).
    pose proof (Z.mod_pos_bound t batch ltac:(lia)).
    rewrite sum_with_extra by lia. rewrite Z2Nat.id by lia.
    rewrite Ea, Eb, Er. lia.
  - rewrite sum_with_extra by lia. rewrite Z2Nat.id by lia.
    rewrite Ea, Eb, Er. lia.
Qed.

End Batches.

(** C4 - batch correctness (as amended).  For a validated launch with more
    than one thread per block, on every core the iteration counts
    [warp_batches + (warp_id < remaining_warps ? 1 : 0)] of the warps
    [0 .. active_warps - 1], added up, give the warp demand of the core,
    [total_warps = groups_per_core * warps_per_group] (the 32-bit product
    the launcher computes; the exact product whenever it fits 32 bits):
    every block is run by all [warps_per_group] warps of its slot.  The
    iteration counts of two warps differ by at most 1. *)
Theorem batch_iterations dev core_id dimension grid_dim block_dim st :
  device_ok dev ->
  let geo := normalize dimension grid_dim block_dim st in
  validated dev geo ->
  1 < group_size geo ->
  let p := groups_plan dev core_id (num_groups geo) (group_size geo) in
  let groups_per_core := gp_total_groups_per_core p in
  let warps_per_group := gp_warps_per_group p in
  sum_iterations p = u32 (groups_per_core * warps_per_group)
  /\ (groups_per_core * warps_per_group < 4294967296 ->
      0 <= groups_per_core ->
      sum_iterations p = groups_per_core * warps_per_group)
  /\ forall w1 w2, 0 <= w1 -> 0 <= w2 ->
       groups_iterations (groups_args p) w1
       - groups_iterations (groups_args p) w2 <= 1.
Proof.
  intros Hdev geo Hval Hgs p G W. unfold validated in Hval.
  assert (Hsum : sum_iterations p = u32 (G * W))
    by (apply sum_iterations_total; [assumption|lia]).
  split; [exact Hsum|]. split.
  - intros Hfit HG. rewrite Hsum. apply u32_small.
    pose proof (warps_per_group_pos dev Hdev core_id (num_groups geo)
                  (group_size geo)) as Hp.
    pose proof (group_size_range dimension grid_dim block_dim st).
    fold geo in H. specialize (Hp ltac:(lia)). fold p in Hp. fold W in Hp.
    nia.
  - intros w1 w2 H1 H2.
    rewrite !(iterations_exact dev Hdev core_id (num_groups geo)
                (group_size geo)) by (assumption || lia).
    fold p. destruct (w1 <? _), (w2 <? _); lia.
Qed.

Lemma small_device_ok : device_ok (mk_device 1 2 4).
Proof. constructor; simpl; lia. Qed.

Lemma batch_iterations_witness :
  let dev := mk_device 1 2 4 in
  let geo := normalize 1 (Some (arr [2])) (Some (arr [6])) boot in
  let p := groups_plan dev 0 (num_groups geo) (group_size geo) in
  validated dev geo /\ 1 < group_size geo
  /\ sum_iterations p
     = u32 (gp_total_groups_per_core p * gp_warps_per_group p).
Proof.
  intros dev geo p.
  assert (Hv : validated dev geo) by (vm_compute; discriminate).
  assert (Hg : 1 < group_size geo) by reflexivity.
  split; [exact Hv|]. split; [exact Hg|].
  exact (proj1 (batch_iterations dev 0 1 (Some (arr [2])) (Some (arr [6]))
                  boot small_device_ok Hv Hg)).
Defined.

(** C4 as stated fails as soon as a block needs more than one warp: on a
    device with 1 core, 2 warps and 4 lanes, 2 blocks of 6 threads need
    2 * 2 = 4 > 1 * 2 warps; core 0 has [groups_per_core = 2], runs warps 0
    and 1 for two iterations each, and the iteration counts add up to 4. *)
Lemma batch_iterations_counterexample :
  let dev := mk_device 1 2 4 in
  let geo := normalize 1 (Some (arr [2])) (Some (arr [6])) boot in
  let p := groups_plan dev 0 (num_groups geo) (group_size geo) in
  device_ok dev /\ validated dev geo /\ 1 < group_size geo
  /\ num_groups geo * gp_warps_per_group p > num_cores dev * num_warps dev
  /\ 0 < gp_active_cores p
  /\ gp_active_warps p = 2
  /\ map (groups_iterations (groups_args p)) [0; 1] = [2; 2]
  /\ gp_total_groups_per_core p = 2
  /\ sum_iterations p = 4
  /\ sum_iterations p <> gp_total_groups_per_core p.
Proof.
  intros dev geo p.
  split; [exact small_device_ok|]. split; [vm_compute; discriminate|].
  repeat split; vm_compute; discriminate.
Qed.

(** ** Loops *)

Lemma for_u32_exit {S : Type} fuel i stop step (body : Z -> S -> S) s :
  stop <= i -> for_u32 (Datatypes.S fuel) i stop step body s = Some s.
Proof.
  intros H. cbn. destruct (Z.ltb_spec i stop); [lia|reflexivity].
Qed.

Lemma for_u32_exact {S : Type} step (body : Z -> S -> S) :
  0 < step ->
  forall (n : nat) i s fuel,
    0 <= i ->
    i + Z.of_nat n * step < 4294967296 ->
    (n < fuel)%nat ->
    for_u32 fuel i (i + Z.of_nat n * step) step body s
    = Some (iterate body i step n s).
Proof.
  intros Hstep. induction n as [|n IH]; intros i s fuel Hi Hfit Hfuel.
  - destruct fuel as [|fuel]; [lia|].
    apply for_u32_exit. cbn. lia.
  - destruct fuel as [|fuel]; [lia|].
    cbn [for_u32 iterate].
    destruct (Z.ltb_spec i (i + Z.of_nat (Datatypes.S n) * step)) as [L|L];
      [|nia].
    rewrite u32_small by nia.
    replace (i + Z.of_nat (Datatypes.S n) * step)
      with (i + step + Z.of_nat n * step) by lia.
    apply IH; lia.
Qed.

(** A loop whose bound is [start + n * step], computed in 32 bits, runs its
    [n] rounds, or none when the bound wraps around. *)
Lemma for_u32_runs {S : Type} step (body : Z -> S -> S) n i s fuel :
  0 < step -> 0 <= n -> 0 <= i < 4294967296 ->
  n * step < 4294967296 ->
  (Z.to_nat n < fuel)%nat ->
  for_u32 fuel i (u32 (i + u32 (n * step))) step body s
  = Some (if i + n * step <? 4294967296
          then iterate body i step (Z.to_nat n) s else s).
Proof.
  intros Hstep Hn Hi Hprod Hfuel.
  rewrite (u32_small (n * step)) by nia.
  destruct (Z.ltb_spec (i + n * step) 4294967296) as [L|L].
  - rewrite u32_small by nia.
    rewrite <- (Z2Nat.id n) at 1 by lia.
    apply for_u32_exact; lia.
  - destruct fuel as [|fuel]; [lia|]. apply for_u32_exit.
    unfold u32.
    pose proof (Z.mod_pos_bound (i + n * step) 4294967296 ltac:(lia)).
    assert (E : (i + n * step) mod 4294967296 = i + n * step - 4294967296).
    { symmetry. apply Z.mod_unique with (q := 1); lia. }
    lia.
Qed.

Lemma iterate_invariant {S : Type} (body : Z -> S -> S) (I : S -> Prop)
      (cnt : S -> Z) step :
  (forall i s, I s -> I (body i s) /\ cnt (body i s) = cnt s + 1) ->
  forall (n : nat) i s,
    I s ->
    I (iterate body i step n s)
    /\ cnt (iterate body i step n s) = cnt s + Z.of_nat n.
Proof.
  intros Hbody. induction n as [|n IH]; intros i s Hs.
  - cbn. split; [assumption|lia].
  - cbn [iterate]. destruct (Hbody i s Hs) as [H1 H2].
    destruct (IH (i + step) (body i s) H1) as [H3 H4].
    split; [assumption|]. rewrite H4, H2. lia.
Qed.

Lemma foreach_invariant {A S : Type} (f : A -> S -> option S)
      (I : S -> Prop) (cnt : S -> Z) (g : A -> Z) (l : list A) :
  (forall a s, In a l -> I s ->
     exists s', f a s = Some s' /\ I s' /\ cnt s' = cnt s + g a) ->
  forall s, I s ->
    exists s', foreach l f s = Some s' /\ I s'
               /\ cnt s' = cnt s + sum_Z (map g l).
Proof.
  induction l as [|a l IH]; intros Hf s Hs.
  - exists s. cbn. repeat split; [assumption|lia].
  - destruct (Hf a s (or_introl eq_refl) Hs) as (s1 & E1 & I1 & C1).
    destruct (IH (fun a' s' Hin => Hf a' s' (or_intror Hin)) s1 I1)
      as (s2 & E2 & I2 & C2).
    exists s2. cbn [foreach map sum_Z fold_right]. rewrite E1.
    repeat split; try assumption. unfold sum_Z in C2. lia.
Qed.

Lemma sum_Z_const c (l : list Z) :
  sum_Z (map (fun _ => c) l) = Z.of_nat (length l) * c.
Proof.
  induction l as [|x l IH]; [reflexivity|].
  cbn [map sum_Z fold_right length] in *. unfold sum_Z in IH. rewrite IH. lia.
Qed.

Lemma first_lanes_length k : 0 <= k -> Z.of_nat (length (first_lanes k)) = k.
Proof.
  intros H. unfold first_lanes. rewrite length_map, length_seq. lia.
Qed.

Lemma in_first_lanes k t : In t (first_lanes k) <-> 0 <= t < k.
Proof.
  unfold first_lanes. rewrite in_map_iff. split.
  - intros (j & <- & Hin). apply in_seq in Hin. lia.
  - intros H. exists (Z.to_nat t). split; [lia|]. apply in_seq. lia.
Qed.

(** ** What the state updates touch *)

Lemma ncalls_emit_callback w t c st :
  ncalls (emit (ev_callback w t c) st) = ncalls st + 1.
Proof.
  unfold ncalls, emit, calls. cbn [trace].
  rewrite flat_map_app, length_app. cbn. lia.
Qed.

Lemma ncalls_vx_tmc w m st : ncalls (vx_tmc w m st) = ncalls st.
Proof.
  unfold ncalls, vx_tmc, emit, calls. cbn [trace].
  rewrite flat_map_app, length_app. cbn. lia.
Qed.

Lemma ncalls_emit_wspawn n e st : ncalls (emit (ev_wspawn n e) st) = ncalls st.
Proof.
  unfold ncalls, emit, calls. cbn [trace].
  rewrite flat_map_app, length_app. cbn. lia.
Qed.

Lemma same_globals_refl st : same_globals st st.
Proof. repeat split. Qed.

Lemma same_globals_trans st1 st2 st3 :
  same_globals st1 st2 -> same_globals st2 st3 -> same_globals st1 st3.
Proof.
  unfold same_globals. intros (A1 & A2 & A3 & A4) (B1 & B2 & B3 & B4).
  repeat split; congruence.
Qed.

(** ** One lane of a stub *)

Lemma callback_frame w t f st s :
  same_globals st s /\ tmask s = tmask st ->
  (same_globals st (callback w t (set_tls w t f s))
   /\ tmask (callback w t (set_tls w t f s)) = tmask st)
  /\ ncalls (callback w t (set_tls w t f s)) = ncalls s + 1.
Proof.
  intros (G & M). unfold callback. rewrite ncalls_emit_callback.
  repeat split; try apply G; exact M.
Qed.

Lemma lane_loop w t (dims : core_state -> dim3_t) fuel start n step st st1 :
  0 < step -> 0 <= n -> 0 <= start < 4294967296 ->
  n * step < 4294967296 ->
  (Z.to_nat n < fuel)%nat ->
  lane_ran st st1 0 ->
  exists st',
    for_u32 fuel start (u32 (start + u32 (n * step))) step
            (fun i s =>
               callback w t
                 (set_tls w t
                    (fun c => mk_tls (decompose i (dims s)) (threadIdx c)
                                     (__local_group_id c)) s)) st1
    = Some st'
    /\ lane_ran st st' (if start + n * step <? 4294967296 then n else 0).
Proof.
  intros Hstep Hn Hstart Hprod Hfuel Hst1.
  rewrite for_u32_runs by assumption.
  eexists. split; [reflexivity|].
  destruct (start + n * step <? 4294967296); [|exact Hst1].
  set (body := fun i s => callback w t (set_tls w t _ s)).
  destruct (iterate_invariant body
              (fun s => same_globals st s /\ tmask s = tmask st)
              ncalls step) with (n := Z.to_nat n) (i := start) (s := st1)
    as ((G & M) & C).
  - intros i s HI. unfold body. apply callback_frame. exact HI.
  - destruct Hst1 as (G & M & _). split; assumption.
  - destruct Hst1 as (_ & _ & C1).
    repeat split; try apply G; try exact M. lia.
Qed.

Lemma process_threads_lane fuel dev targs w t st :
  mscratch st = scratch_threads targs ->
  0 < num_threads dev ->
  let it := threads_iterations targs w in
  let start_warp :=
    u32 (u32 (w * t_warp_batches targs) + MIN w (t_remaining_warps targs)) in
  let start :=
    u32 (u32 (t_all_tasks_offset targs + u32 (start_warp * num_threads dev))
         + t) in
  it * num_threads dev < 4294967296 ->
  (Z.to_nat it < fuel)%nat ->
  exists st',
    process_threads fuel dev w t st = Some st'
    /\ lane_ran st st'
         (if start + it * num_threads dev <? 4294967296 then it else 0).
Proof.
  intros Hs Ht it start_warp start Hprod Hfuel.
  unfold process_threads. rewrite Hs. cbv zeta.
  fold it. fold start_warp. fold start.
  apply lane_loop with (dims := gridDim); try assumption.
  - apply u32_range.
  - apply u32_range.
  - repeat split. unfold ncalls. cbn [trace set_tls]. lia.
Qed.

Lemma process_thread_groups_lane fuel dev targs w t st :
  mscratch st = scratch_groups targs ->
  0 < g_groups_per_core targs ->
  let it := groups_iterations targs w in
  let start := u32 (g_group_offset targs + w / g_warps_per_group targs) in
  it * g_groups_per_core targs < 4294967296 ->
  (Z.to_nat it < fuel)%nat ->
  exists st',
    process_thread_groups fuel dev w t st = Some st'
    /\ lane_ran st st'
         (if start + it * g_groups_per_core targs <? 4294967296
          then it else 0).
Proof.
  intros Hs Hc it start Hprod Hfuel.
  unfold process_thread_groups. rewrite Hs. cbv zeta.
  fold it. fold start.
  apply lane_loop with (dims := gridDim); try assumption.
  - apply u32_range.
  - apply u32_range.
  - repeat split. unfold ncalls. cbn [trace set_tls]. lia.
Qed.

Lemma process_remaining_threads_lane targs w t st :
  mscratch st = scratch_threads targs ->
  exists st',
    process_remaining_threads w t st = Some st' /\ lane_ran st st' 1.
Proof.
  intros Hs. unfold process_remaining_threads. rewrite Hs.
  eexists. split; [reflexivity|].
  unfold lane_ran, callback. rewrite ncalls_emit_callback.
  repeat split.
Qed.

(** ** One warp, and the warps a spawn starts *)

Lemma run_lanes_invariant dev w body lanes (g : Z -> Z) st :
  lanes_of_mask (num_threads dev) (tmask st w) = lanes ->
  (forall t s, In t lanes -> same_globals st s ->
     exists s', body t s = Some s' /\ lane_ran s s' (g t)) ->
  exists st',
    run_lanes dev w body st = Some st'
    /\ same_globals st st'
    /\ ncalls st' = ncalls st + sum_Z (map g lanes).
Proof.
  intros Hl Hbody. unfold run_lanes. rewrite Hl.
  apply foreach_invariant with (I := same_globals st).
  - intros t s Hin Hs. destruct (Hbody t s Hin Hs) as (s' & E & G & _ & C).
    exists s'. repeat split; try assumption;
      apply (same_globals_trans _ _ _ Hs G).
  - apply same_globals_refl.
Qed.

Lemma same_globals_vx_tmc w m st : same_globals st (vx_tmc w m st).
Proof. repeat split. Qed.

Lemma tmask_vx_tmc w m st : tmask (vx_tmc w m st) w = m.
Proof. cbn. rewrite Z.eqb_refl. reflexivity. Qed.

(** [vx_tmc(mask); body on the enabled lanes; vx_tmc(after)]. *)
Lemma masked_section dev w mask after body lanes (g : Z -> Z) st :
  lanes_of_mask (num_threads dev) mask = lanes ->
  (forall t s, In t lanes -> same_globals st s ->
     exists s', body t s = Some s' /\ lane_ran s s' (g t)) ->
  exists st',
    match run_lanes dev w body (vx_tmc w mask st) with
    | Some st' => Some (vx_tmc w after st')
    | None => None
    end = Some st'
    /\ same_globals st st'
    /\ ncalls st' = ncalls st + sum_Z (map g lanes).
Proof.
  intros Hl Hbody.
  destruct (run_lanes_invariant dev w body lanes g (vx_tmc w mask st))
    as (st1 & E & G & C).
  - rewrite tmask_vx_tmc. exact Hl.
  - intros t s Hin Hs. apply Hbody; [exact Hin|].
    apply (same_globals_trans _ _ _ (same_globals_vx_tmc w mask st) Hs).
  - rewrite E. eexists. split; [reflexivity|]. split.
    + apply (same_globals_trans _ _ _ (same_globals_vx_tmc w mask st)).
      apply (same_globals_trans _ _ _ G). apply same_globals_vx_tmc.
    + rewrite ncalls_vx_tmc, C, ncalls_vx_tmc. reflexivity.
Qed.

Lemma vx_wspawn_invariant fuel dev n e (h : Z -> Z) st :
  (forall w s, In w (siblings n) -> same_globals st s ->
     exists s', run_entry fuel dev e w s = Some s'
                /\ same_globals s s' /\ ncalls s' = ncalls s + h w) ->
  exists st',
    vx_wspawn fuel dev n e st = Some st'
    /\ same_globals st st'
    /\ ncalls st' = ncalls st + sum_Z (map h (siblings n)).
Proof.
  intros Hw. unfold vx_wspawn.
  destruct (foreach_invariant (run_entry fuel dev e) (same_globals st)
              ncalls h (siblings n)) with (s := emit (ev_wspawn n e) st)
    as (st' & E & G & C).
  - intros w s Hin Hs. destruct (Hw w s Hin Hs) as (s' & E & G & C).
    exists s'. repeat split; try assumption;
      apply (same_globals_trans _ _ _ Hs G).
  - repeat split.
  - exists st'. rewrite ncalls_emit_wspawn in C.
    split; [exact E|]. split; [exact G|exact C].
Qed.

Lemma first_lanes_siblings n :
  1 <= n -> first_lanes n = 0 :: siblings n.
Proof.
  intros H. unfold first_lanes, siblings.
  replace (Z.to_nat n) with (Datatypes.S (Z.to_nat n - 1)) at 1 by lia.
  reflexivity.
Qed.

Lemma join_runs fuel dev st :
  exists st', vx_wspawn fuel dev 1 entry_null st = Some st'
              /\ same_globals st st' /\ ncalls st' = ncalls st.
Proof.
  eexists. split; [reflexivity|]. split; [repeat split|].
  apply ncalls_emit_wspawn.
Qed.

Lemma lane_range_bounds off sw it W tpw t n r P K :
  0 <= off -> 0 <= sw -> 0 <= it -> sw + it <= W ->
  P = tpw * W + r -> 0 <= r -> off + P <= n ->
  0 <= t < tpw -> tpw <= K -> n + K - 1 < 4294967296 ->
  0 <= sw * tpw /\ 0 <= it * tpw
  /\ off + sw * tpw + t + it * tpw < 4294967296.
Proof.
  intros Hoff Hsw Hit Hle EP Hr HP Ht HK Hfit.
  assert (H1 : 0 <= sw * tpw) by (apply Z.mul_nonneg_nonneg; lia).
  assert (H2 : 0 <= it * tpw) by (apply Z.mul_nonneg_nonneg; lia).
  assert (H3 : (sw + it) * tpw <= W * tpw)
    by (apply Z.mul_le_mono_nonneg_r; lia).
  rewrite Z.mul_add_distr_r in H3. lia.
Qed.

(** ** The task path on an active core *)

Section TaskPath.

Variable dev : device.
Hypothesis Hdev : device_ok dev.
Variables core_id n : Z.
Hypothesis Hn : 0 <= n < 4294967296.
Hypothesis Hactive : 0 <= core_id < tp_active_cores (threads_plan dev core_id n).

Let p := threads_plan dev core_id n.
Let wpc := num_warps dev.
Let tpw := num_threads dev.
Let a := tp_active_cores p.
Let P := tp_tasks_per_core p.
Let W := tp_total_warps p.
Let r := tp_remaining_tasks p.
Let A := tp_active_warps p.
Let off := tp_all_tasks_offset p.

Lemma task_device : 1 <= wpc /\ 1 <= tpw <= 32 /\ 1 <= wpc * tpw < 4294967296.
Proof. destruct Hdev as [_ Hw Ht Hc]. unfold wpc, tpw. nia. Qed.

(** A core is active only when the count of needed cores did not wrap. *)
Lemma task_no_wrap : 1 <= n /\ n + wpc * tpw - 1 < 4294967296.
Proof.
  pose proof task_device as (Hw & Ht & Hc).
  pose proof Hactive as Ha. unfold threads_plan in Ha.
  cbn [tp_active_cores] in Ha. fold wpc tpw in Ha.
  rewrite MIN_spec, (u32_small (wpc * tpw)) in Ha by lia.
  assert (Hneed : 1 <= u32 (n + wpc * tpw - 1) / (wpc * tpw)) by lia.
  assert (Hge : wpc * tpw <= u32 (n + wpc * tpw - 1)).
  { destruct (Z_lt_le_dec (u32 (n + wpc * tpw - 1)) (wpc * tpw)) as [L|L];
      [|exact L].
    rewrite Z.div_small in Hneed; [lia|].
    pose proof (u32_range (n + wpc * tpw - 1)). lia. }
  destruct (Z_lt_le_dec (n + wpc * tpw - 1) 4294967296) as [L|L].
  - rewrite u32_small in Hge by lia. lia.
  - exfalso. unfold u32 in Hge.
    assert (E : (n + wpc * tpw - 1) mod 4294967296
                = n + wpc * tpw - 1 - 4294967296)
      by (symmetry; apply Z.mod_unique with (q := 1); lia).
    lia.
Qed.

Lemma task_slab :
  off = slab_start n a core_id
  /\ P = n / a + (if core_id <? n mod a then 1 else 0)
  /\ 0 <= off /\ 0 <= P /\ off + P <= n.
Proof.
  assert (Ha : 1 <= a) by (unfold a, p; lia).
  assert (E1 : off = slab_start n a core_id)
    by (apply offset_exact; [assumption|assumption|exact Hactive]).
  assert (E2 : P = n / a + (if core_id <? n mod a then 1 else 0))
    by (apply per_core_exact; [assumption|assumption|lia]).
  split; [exact E1|]. split; [exact E2|].
  pose proof (slab_start_bound n a Hn Ha core_id ltac:(unfold a, p; lia)).
  pose proof (slab_start_bound n a Hn Ha (core_id + 1)
                ltac:(unfold a, p; lia)) as Hb.
  rewrite slab_start_succ in Hb by lia.
  pose proof (base_rem n a Hn Ha) as (_ & _ & Hq).
  rewrite E1, E2. destruct (core_id <? n mod a); lia.
Qed.

Lemma task_warps : P = tpw * W + r /\ 0 <= r < tpw /\ 0 <= W /\ W <= n.
Proof.
  pose proof task_device as (Hw & Ht & Hc).
  pose proof task_slab as (_ & _ & Hoff & HP & HPn).
  change W with (P / tpw). change r with (P mod tpw).
  pose proof (Z.div_mod P tpw ltac:(lia)).
  pose proof (Z.mod_pos_bound P tpw ltac:(lia)).
  assert (0 <= P / tpw) by (apply Z.div_pos; lia).
  repeat split; try lia. nia.
Qed.

Lemma task_schedule_cases :
  (wpc < W /\ A = wpc
   /\ tp_warp_batches p = W / wpc /\ tp_remaining_warps p = W mod wpc)
  \/ (W <= wpc /\ A = W
      /\ tp_warp_batches p = 1 /\ tp_remaining_warps p = 0).
Proof.
  assert (EA : A = if wpc <? W then wpc else W) by reflexivity.
  assert (Eb : tp_warp_batches p = if wpc <? W then W / A else 1)
    by reflexivity.
  assert (Er : tp_remaining_warps p = if wpc <? W then W mod A else 0)
    by reflexivity.
  destruct (Z.ltb_spec wpc W) as [L|L].
  - left. rewrite EA in Eb, Er. repeat split; assumption.
  - right. repeat split; assumption.
Qed.

Lemma task_schedule :
  0 <= A <= wpc /\ A <= W /\ (A = 0 -> W = 0)
  /\ (1 <= A ->
      tp_warp_batches p = W / A /\ tp_remaining_warps p = W mod A).
Proof.
  pose proof task_device as (Hw & Ht & Hc).
  pose proof task_warps as (_ & _ & HW & _).
  destruct task_schedule_cases as [(L & -> & -> & ->)|(L & -> & -> & ->)].
  - repeat split; try lia.
  - repeat split; try lia.
    + symmetry. apply Z.div_same. lia.
    + symmetry. apply Z.mod_same. lia.
Qed.

Lemma task_warp w :
  0 <= w < A ->
  let targs := threads_args p in
  let sw := slab_start W A w in
  threads_iterations targs w = W / A + (if w <? W mod A then 1 else 0)
  /\ u32 (u32 (w * t_warp_batches targs) + MIN w (t_remaining_warps targs)) = sw
  /\ 0 <= sw
  /\ sw + threads_iterations targs w <= W.
Proof.
  intros Hw targs sw.
  pose proof task_warps as (_ & _ & HW & HWn).
  pose proof task_schedule as (HA & HAW & _ & Hs).
  destruct (Hs ltac:(lia)) as (Eb & Er).
  assert (HWr : 0 <= W < 4294967296) by lia.
  assert (HA1 : 1 <= A) by lia.
  pose proof (base_rem W A HWr HA1) as (Ediv & Hrem & Hq).
  assert (Eit : threads_iterations targs w
                = W / A + (if w <? W mod A then 1 else 0)).
  { unfold threads_iterations, targs, threads_args.
    cbn [t_warp_batches t_remaining_warps]. rewrite Eb, Er.
    apply u32_small. destruct (Z.ltb_spec w (W mod A)); nia. }
  assert (Esw : u32 (u32 (w * t_warp_batches targs)
                     + MIN w (t_remaining_warps targs)) = sw).
  { unfold targs, threads_args. cbn [t_warp_batches t_remaining_warps].
    rewrite Eb, Er. apply offset_exact; assumption. }
  pose proof (slab_start_bound W A HWr HA1 w ltac:(lia)).
  pose proof (slab_start_bound W A HWr HA1 (w + 1) ltac:(lia)) as Hb.
  rewrite slab_start_succ in Hb by lia. fold sw in Hb, H.
  repeat split; try assumption; try lia.
Qed.

Lemma task_iterations_sum :
  sum_Z (map (threads_iterations (threads_args p)) (first_lanes A)) = W.
Proof.
  pose proof task_warps as (_ & _ & HW & HWn).
  pose proof task_schedule as (HA & HAW & HA0 & Hs).
  destruct (Z.eq_dec A 0) as [E|E].
  - rewrite E. cbn. symmetry. apply HA0. exact E.
  - rewrite map_ext_in
      with (g := fun w => W / A + (if w <? W mod A then 1 else 0)).
    2:{ intros w Hin. apply in_first_lanes in Hin.
        apply (task_warp w Hin). }
    unfold first_lanes. rewrite sum_with_extra.
    + pose proof (base_rem W A ltac:(lia) ltac:(lia)) as (Ediv & Hrem & Hq).
      rewrite Z2Nat.id by lia. lia.
    + apply Z.mod_pos_bound. lia.
Qed.

Lemma sum_Z_scale (c : Z) (f : Z -> Z) (l : list Z) :
  sum_Z (map (fun w => c * f w) l) = c * sum_Z (map f l).
Proof.
  induction l as [|x l IH]; [cbn; lia|].
  cbn [map sum_Z fold_right] in *. unfold sum_Z in IH. rewrite IH. lia.
Qed.

(** A warp of the full-warp section: every lane runs the iterations of the
    warp. *)
Lemma task_warp_runs fuel w after st :
  0 <= w < A ->
  mscratch st = scratch_threads (threads_args p) ->
  n < Z.of_nat fuel ->
  exists st',
    match run_lanes dev w (process_threads fuel dev w)
                    (vx_tmc w (u32 (-1)) st) with
    | Some st' => Some (vx_tmc w after st')
    | None => None
    end = Some st'
    /\ same_globals st st'
    /\ ncalls st' = ncalls st + tpw * threads_iterations (threads_args p) w.
Proof.
  intros Hw Hs Hfuel.
  pose proof task_device as (Hwpc & Htpw & Hcap).
  pose proof task_no_wrap as (Hn1 & Hfit).
  pose proof task_slab as (_ & _ & Hoff & HP & HoffP).
  pose proof task_warps as (EP & Hr & HW & HWn).
  destruct (task_warp w Hw) as (Eit & Esw & Hsw & Hend).
  set (it := threads_iterations (threads_args p) w) in *.
  set (sw := slab_start W A w) in *.
  assert (Hit : 0 <= it) by (apply u32_range).
  destruct (masked_section dev w (u32 (-1)) after
              (process_threads fuel dev w) (first_lanes tpw)
              (fun _ => it) st) as (st' & E & G & C).
  - apply lanes_of_full_mask. unfold tpw in Htpw. lia.
  - intros t s Hin Hg. apply in_first_lanes in Hin.
    assert (Hs' : mscratch s = scratch_threads (threads_args p))
      by (destruct Hg as (_ & _ & _ & ->); exact Hs).
    assert (HK : tpw <= wpc * tpw) by nia.
    pose proof (lane_range_bounds off sw it W tpw t n r P (wpc * tpw)
                  Hoff Hsw Hit Hend EP ltac:(lia) HoffP Hin HK Hfit)
      as (B1 & B2 & B3).
    assert (HitW : it <= n) by lia.
    destruct (process_threads_lane fuel dev (threads_args p) w t s Hs')
      as (s' & E' & R').
    + unfold tpw in Htpw. lia.
    + fold it. fold tpw. lia.
    + fold it. lia.
    + exists s'. split; [exact E'|].
      fold it in R'. rewrite Esw in R'. fold tpw in R'.
      change (t_all_tasks_offset (threads_args p)) with off in R'.
      rewrite (u32_small (sw * tpw)) in R' by lia.
      rewrite (u32_small (off + sw * tpw)) in R' by lia.
      rewrite (u32_small (off + sw * tpw + t)) in R' by lia.
      destruct (Z.ltb_spec (off + sw * tpw + t + it * tpw) 4294967296);
        [exact R'|lia].
  - exists st'. split; [exact E|]. split; [exact G|].
    rewrite C, sum_Z_const, first_lanes_length by lia. reflexivity.
Qed.

Lemma spawn_full_warps_runs fuel st :
  mscratch st = scratch_threads (threads_args p) ->
  n < Z.of_nat fuel ->
  exists st',
    spawn_full_warps fuel dev p st = Some st'
    /\ same_globals st st'
    /\ ncalls st' = ncalls st + tpw * W.
Proof.
  intros Hs Hfuel. unfold spawn_full_warps. fold A.
  pose proof task_schedule as (HA & HAW & HA0 & _).
  destruct (Z.leb_spec 1 A) as [L|L].
  - destruct (vx_wspawn_invariant fuel dev A entry_threads_stub
                (fun w => tpw * threads_iterations (threads_args p) w) st)
      as (st1 & E1 & G1 & C1).
    { intros w s Hin Hg. cbn [run_entry]. unfold process_threads_stub.
      apply task_warp_runs; [| |exact Hfuel].
      - assert (In w (first_lanes A))
          by (rewrite first_lanes_siblings by lia; right; exact Hin).
        apply in_first_lanes. assumption.
      - destruct Hg as (_ & _ & _ & ->). exact Hs. }
    rewrite E1.
    destruct (task_warp_runs fuel 0 1 st1 ltac:(lia)) as (st2 & E2 & G2 & C2).
    { destruct G1 as (_ & _ & _ & ->). exact Hs. }
    { exact Hfuel. }
    rewrite E2. exists st2. split; [reflexivity|]. split.
    + apply (same_globals_trans _ _ _ G1 G2).
    + rewrite C2, C1, sum_Z_scale.
      pose proof task_iterations_sum as ES.
      rewrite first_lanes_siblings in ES by lia.
      cbn [map sum_Z fold_right] in ES. unfold sum_Z. lia.
  - exists st. split; [reflexivity|]. split; [apply same_globals_refl|].
    rewrite (HA0 ltac:(lia)). lia.
Qed.

Lemma spawn_tail_runs st :
  mscratch st = scratch_threads (threads_args p) ->
  exists st',
    spawn_tail dev p st = Some st'
    /\ same_globals st st'
    /\ ncalls st' = ncalls st + r.
Proof.
  intros Hs. unfold spawn_tail. fold r.
  pose proof task_device as (Hwpc & Htpw & Hcap).
  pose proof task_warps as (_ & Hr & _).
  destruct (Z.eqb_spec r 0) as [E|E].
  - exists st. split; [reflexivity|]. split; [apply same_globals_refl|lia].
  - destruct (masked_section dev 0 (u32 (Z.shiftl 1 r - 1)) 1
                (process_remaining_threads 0) (first_lanes r)
                (fun _ => 1) st) as (st' & E' & G & C).
    + rewrite low_mask_u32 by lia. apply lanes_of_low_mask. fold tpw. lia.
    + intros t s Hin Hg.
      apply process_remaining_threads_lane with (targs := threads_args p).
      destruct Hg as (_ & _ & _ & ->). exact Hs.
    + exists st'. split; [exact E'|]. split; [exact G|].
      rewrite C, sum_Z_const, first_lanes_length by lia. lia.
Qed.

Lemma spawn_tasks_runs fuel st :
  n < Z.of_nat fuel ->
  exists st',
    spawn_tasks fuel dev p st = Some st'
    /\ gridDim st' = gridDim st /\ blockDim st' = blockDim st
    /\ warps_per_group_pub st' = warps_per_group_pub st
    /\ ncalls st' = ncalls st + P.
Proof.
  intros Hfuel. unfold spawn_tasks.
  set (st1 := csr_write (scratch_threads (threads_args p)) st).
  destruct (spawn_full_warps_runs fuel st1 eq_refl Hfuel)
    as (st2 & E2 & G2 & C2).
  rewrite E2.
  destruct (spawn_tail_runs st2) as (st3 & E3 & G3 & C3).
  { destruct G2 as (_ & _ & _ & ->). reflexivity. }
  exists st3. split; [exact E3|].
  destruct G2 as (A1 & A2 & A3 & _), G3 as (B1 & B2 & B3 & _).
  pose proof task_warps as (EP & _).
  split; [rewrite B1, A1; reflexivity|].
  split; [rewrite B2, A2; reflexivity|].
  split; [rewrite B3, A3; reflexivity|].
  rewrite C3, C2. unfold ncalls, st1. cbn [trace csr_write]. lia.
Qed.

End TaskPath.

(** ** The launcher, path by path *)

Lemma capacity_exact dev :
  device_ok dev ->
  u32 (num_warps dev * num_threads dev) = num_warps dev * num_threads dev
  /\ 1 <= num_warps dev * num_threads dev.
Proof.
  intros [_ Hw Ht Hc]. split; [apply u32_small|]; nia.
Qed.

Lemma launch_oversize fuel dev core_id dimension grid_dim block_dim st :
  let geo := normalize dimension grid_dim block_dim st in
  ~ validated dev geo ->
  vx_spawn_threads fuel dev core_id dimension grid_dim block_dim st
  = Some (-1, emit (ev_printf (group_size geo)
                              (u32 (num_warps dev * num_threads dev)))
                   (set_dims (geo_gridDim geo) (geo_blockDim geo) st)).
Proof.
  intros geo Hv. unfold validated in Hv. unfold vx_spawn_threads. fold geo.
  destruct (Z.ltb_spec (u32 (num_warps dev * num_threads dev)) (group_size geo));
    [reflexivity|lia].
Qed.

Lemma launch_inactive fuel dev core_id dimension grid_dim block_dim st :
  let geo := normalize dimension grid_dim block_dim st in
  validated dev geo ->
  active_cores dev geo <= core_id ->
  exists st',
    vx_spawn_threads fuel dev core_id dimension grid_dim block_dim st
    = Some (0, st')
    /\ trace st' = trace st /\ mscratch st' = mscratch st
    /\ tmask st' = tmask st /\ tls st' = tls st
    /\ gridDim st' = geo_gridDim geo /\ blockDim st' = geo_blockDim geo.
Proof.
  intros geo Hv Ha. unfold validated in Hv. unfold vx_spawn_threads.
  fold geo. unfold active_cores in Ha.
  destruct (Z.ltb_spec (u32 (num_warps dev * num_threads dev)) (group_size geo));
    [lia|].
  destruct (1 <? group_size geo).
  - change (gp_active_cores
              (groups_plan dev core_id (num_groups geo) (group_size geo)))
      with (gp_active_cores
              (groups_plan dev 0 (num_groups geo) (group_size geo))).
    destruct (Z.leb_spec
                (gp_active_cores
                   (groups_plan dev 0 (num_groups geo) (group_size geo)))
                core_id); [|lia].
    eexists. split; [reflexivity|]. repeat split.
  - change (tp_active_cores (threads_plan dev core_id (num_groups geo)))
      with (tp_active_cores (threads_plan dev 0 (num_groups geo))).
    destruct (Z.leb_spec
                (tp_active_cores (threads_plan dev 0 (num_groups geo)))
                core_id); [|lia].
    eexists. split; [reflexivity|]. repeat split.
Qed.

Lemma launch_tasks_active fuel dev core_id dimension grid_dim block_dim st :
  device_ok dev ->
  let geo := normalize dimension grid_dim block_dim st in
  validated dev geo ->
  group_size geo <= 1 ->
  0 <= core_id < active_cores dev geo ->
  num_groups geo < Z.of_nat fuel ->
  exists st',
    vx_spawn_threads fuel dev core_id dimension grid_dim block_dim st
    = Some (0, st')
    /\ ncalls st' = ncalls st + slab_size dev geo core_id
    /\ gridDim st' = geo_gridDim geo /\ blockDim st' = geo_blockDim geo
    /\ warps_per_group_pub st' = 0.
Proof.
  intros Hdev geo Hv Hgs Ha Hfuel. unfold validated in Hv.
  pose proof (num_groups_range dimension grid_dim block_dim st) as Hn.
  fold geo in Hn.
  unfold vx_spawn_threads. fold geo. unfold active_cores, slab_size in *.
  destruct (Z.ltb_spec (u32 (num_warps dev * num_threads dev)) (group_size geo));
    [lia|].
  destruct (Z.ltb_spec 1 (group_size geo)); [lia|].
  change (tp_active_cores (threads_plan dev 0 (num_groups geo)))
    with (tp_active_cores (threads_plan dev core_id (num_groups geo))) in Ha.
  destruct (Z.leb_spec
              (tp_active_cores (threads_plan dev core_id (num_groups geo)))
              core_id); [lia|].
  set (st1 := set_warps_per_group 0
                (set_dims (geo_gridDim geo) (geo_blockDim geo) st)).
  destruct (spawn_tasks_runs dev Hdev core_id (num_groups geo) Hn Ha fuel st1
              Hfuel) as (st2 & E2 & G1 & G2 & G3 & C2).
  rewrite E2.
  destruct (join_runs fuel dev st2) as (st3 & E3 & (J1 & J2 & J3 & _) & C3).
  rewrite E3. exists st3. split; [reflexivity|].
  split; [rewrite C3, C2; reflexivity|].
  split; [rewrite J1, G1; reflexivity|].
  split; [rewrite J2, G2; reflexivity|].
  rewrite J3, G3. reflexivity.
Qed.

(** ** The task path does not read [blockDim] *)



Section BlockDimUnread.

Variable b : dim3_t.
Let h := with_blockDim b.





End BlockDimUnread.

Lemma normalize_state dimension grid_dim block_dim st st' :
  normalize dimension grid_dim block_dim st
  = normalize dimension grid_dim block_dim st'.
Proof. rewrite !normalize_unfold. reflexivity. Qed.



(** ** All the cores of a launch *)

Lemma sum_Z_app l1 l2 : sum_Z (l1 ++ l2) = sum_Z l1 + sum_Z l2.
Proof.
  unfold sum_Z. induction l1 as [|x l1 IH]; [reflexivity|].
  cbn [app fold_right]. rewrite IH. lia.
Qed.

Lemma sum_guarded (f : Z -> Z) a (k : nat) :
  0 <= a <= Z.of_nat k ->
  sum_Z (map (fun c => if c <? a then f c else 0) (map Z.of_nat (seq 0 k)))
  = sum_Z (map f (first_lanes a)).
Proof.
  induction k as [|k IH]; intros Ha.
  - replace a with 0 by lia. reflexivity.
  - rewrite seq_S, !map_app, sum_Z_app. cbn [map Nat.add sum_Z fold_right].
    destruct (Z.ltb_spec (Z.of_nat k) a) as [L|L].
    + assert (Ea : a = Z.of_nat (Datatypes.S k)) by lia.
      unfold first_lanes. replace (Z.to_nat a) with (Datatypes.S k) by lia.
      rewrite seq_S, !map_app, sum_Z_app. cbn [map Nat.add sum_Z fold_right].
      f_equal. apply f_equal. apply map_ext_in. intros c Hin.
      apply in_map_iff in Hin as (j & <- & Hj). apply in_seq in Hj.
      destruct (Z.ltb_spec (Z.of_nat j) a); [reflexivity|lia].
    + rewrite IH by lia. lia.
Qed.

Lemma active_cores_range dev geo :
  device_ok dev -> 0 <= active_cores dev geo <= num_cores dev.
Proof.
  intros [Hc Hw Ht Hcap]. unfold active_cores.
  destruct (1 <? group_size geo); cbn; rewrite MIN_spec.
  - pose proof (u32_range
                  (u32 (num_groups geo
                        * (if group_size geo mod num_threads dev =? 0
                           then group_size geo / num_threads dev
                           else u32 (group_size geo / num_threads dev + 1)))
                   + num_warps dev - 1)) as Hr.
    assert (0 <= u32
                   (u32 (num_groups geo
                         * (if group_size geo mod num_threads dev =? 0
                            then group_size geo / num_threads dev
                            else u32 (group_size geo / num_threads dev + 1)))
                    + num_warps dev - 1) / num_warps dev)
      by (apply Z.div_pos; lia).
    lia.
  - rewrite (u32_small (num_warps dev * num_threads dev)) by nia.
    pose proof (u32_range
                  (num_groups geo + num_warps dev * num_threads dev - 1)).
    assert (0 <= u32 (num_groups geo + num_warps dev * num_threads dev - 1)
                 / (num_warps dev * num_threads dev))
      by (apply Z.div_pos; nia).
    lia.
Qed.

Lemma slab_sizes_total dev geo :
  0 <= num_groups geo < 4294967296 ->
  1 <= active_cores dev geo ->
  sum_Z (map (slab_size dev geo) (first_lanes (active_cores dev geo)))
  = num_groups geo.
Proof.
  intros Hn Ha.
  rewrite map_ext_in
    with (g := fun c => num_groups geo / active_cores dev geo
                        + (if c <? num_groups geo mod active_cores dev geo
                           then 1 else 0)).
  2:{ intros c Hin. apply in_first_lanes in Hin.
      apply slab_size_closed; assumption. }
  unfold first_lanes. rewrite sum_with_extra.
  - pose proof (base_rem (num_groups geo) (active_cores dev geo) Hn Ha)
      as (E & Hr & Hq).
    rewrite Z2Nat.id by lia. lia.
  - apply Z.mod_pos_bound. lia.
Qed.

(** The callback invocations of a task-path launch, core by core and all
    together. *)
Lemma task_launch_total fuel dev dimension grid_dim block_dim st0 :
  device_ok dev ->
  let geo := normalize dimension grid_dim block_dim st0 in
  validated dev geo ->
  group_size geo <= 1 ->
  1 <= active_cores dev geo ->
  num_groups geo < Z.of_nat fuel ->
  exists k : Z -> Z,
    (forall core_id st, 0 <= core_id ->
       exists st',
         vx_spawn_threads fuel dev core_id dimension grid_dim block_dim st
         = Some (0, st')
         /\ ncalls st' = ncalls st + k core_id)
    /\ sum_Z (map k (first_lanes (num_cores dev))) = num_groups geo.
Proof.
  intros Hdev geo Hv Hgs Ha Hfuel.
  pose proof (num_groups_range dimension grid_dim block_dim st0) as Hn.
  fold geo in Hn.
  exists (fun c => if c <? active_cores dev geo
                   then slab_size dev geo c else 0).
  split.
  - intros c st Hc.
    destruct (Z.ltb_spec c (active_cores dev geo)) as [L|L].
    + destruct (launch_tasks_active fuel dev c dimension grid_dim block_dim st
                  Hdev) as (st' & E & C & _);
        rewrite ?(normalize_state dimension grid_dim block_dim st st0);
        try assumption; [fold geo; lia|].
      exists st'. split; [exact E|].
      rewrite (normalize_state dimension grid_dim block_dim st st0) in C.
      exact C.
    + destruct (launch_inactive fuel dev c dimension grid_dim block_dim st)
        as (st' & E & T & _);
        rewrite ?(normalize_state dimension grid_dim block_dim st st0);
        try assumption.
      exists st'. split; [exact E|]. unfold ncalls. rewrite T. lia.
  - pose proof (active_cores_range dev geo Hdev) as Hr.
    unfold first_lanes at 1. rewrite sum_guarded.
    + apply slab_sizes_total; assumption.
    + destruct Hdev as [Hc _ _ _]. lia.
Qed.

(** ** Degenerate launches *)

Lemma active_cores_zero_grid dev geo :
  device_ok dev -> num_groups geo = 0 -> active_cores dev geo = 0.
Proof.
  intros Hdev Hn. destruct (capacity_exact dev Hdev) as (Ec & Hc).
  destruct Hdev as [Hcores Hw Ht Hcap].
  unfold active_cores. rewrite Hn.
  destruct (1 <? group_size geo).
  - unfold groups_plan. cbn [gp_active_cores]. rewrite MIN_spec.
    rewrite Z.mul_0_l. change (u32 0) with 0. rewrite Z.add_0_l.
    rewrite u32_small by nia. rewrite Z.div_small by lia. lia.
  - unfold threads_plan. cbn [tp_active_cores]. rewrite MIN_spec.
    rewrite Ec, Z.add_0_l. rewrite u32_small by lia.
    rewrite Z.div_small by lia. lia.
Qed.

Lemma zero_axis_zero_grid dimension g block_dim st i :
  0 <= i < 3 -> i < dimension -> u32 (g i) = 0 ->
  num_groups (normalize dimension (Some g) block_dim st) = 0.
Proof.
  intros Hi Hd Hz. rewrite normalize_unfold. cbn [num_groups].
  assert (E : i = 0 \/ i = 1 \/ i = 2) by lia.
  assert (Ha : axis (Some g) dimension i = 0).
  { unfold axis. destruct (Z.ltb_spec i dimension); [exact Hz|lia]. }
  destruct E as [->|[->| ->]]; rewrite Ha;
    rewrite ?Z.mul_0_r, ?Z.mul_0_l; try reflexivity;
    change (u32 0) with 0; rewrite ?Z.mul_0_r, ?Z.mul_0_l; reflexivity.
Qed.

Lemma zero_axis_zero_block dimension grid_dim b st i :
  0 <= i < 3 -> i < dimension -> u32 (b i) = 0 ->
  group_size (normalize dimension grid_dim (Some b) st) = 0.
Proof.
  intros Hi Hd Hz. rewrite normalize_unfold. cbn [group_size].
  assert (E : i = 0 \/ i = 1 \/ i = 2) by lia.
  assert (Ha : axis (Some b) dimension i = 0).
  { unfold axis. destruct (Z.ltb_spec i dimension); [exact Hz|lia]. }
  destruct E as [->|[->| ->]]; rewrite Ha;
    rewrite ?Z.mul_0_r, ?Z.mul_0_l; try reflexivity;
    change (u32 0) with 0; rewrite ?Z.mul_0_r, ?Z.mul_0_l; reflexivity.
Qed.

(** C7 - zero-grid no-op.  A launch whose grid has no block
    ([num_groups = 0], as when an axis of [grid_dim] is 0) and whose block
    fits a core returns 0 on every core, whatever the fuel, without invoking
    the callback, spawning a warp, touching a thread mask, the scratch
    register or a thread-local: the trace of the core is as before. *)
Theorem zero_grid_noop fuel dev core_id dimension grid_dim block_dim st :
  device_ok dev ->
  let geo := normalize dimension grid_dim block_dim st in
  num_groups geo = 0 ->
  validated dev geo ->
  0 <= core_id ->
  exists st',
    vx_spawn_threads fuel dev core_id dimension grid_dim block_dim st
    = Some (0, st')
    /\ trace st' = trace st /\ mscratch st' = mscratch st
    /\ tmask st' = tmask st /\ tls st' = tls st.
Proof.
  intros Hdev geo Hn Hv Hc.
  destruct (launch_inactive fuel dev core_id dimension grid_dim block_dim st
              Hv) as (st' & E & T & M & K & L & _).
  - fold geo. rewrite (active_cores_zero_grid dev geo Hdev Hn). exact Hc.
  - exists st'. repeat split; assumption.
Qed.

Lemma zero_grid_noop_witness :
  let dev := mk_device 2 4 4 in
  let geo := normalize 2 (Some (arr [5; 0])) (Some (arr [2; 3])) boot in
  num_groups geo = 0 /\ validated dev geo /\ 0 <= 1
  /\ exists st',
       vx_spawn_threads 0 dev 1 2 (Some (arr [5; 0])) (Some (arr [2; 3])) boot
       = Some (0, st')
       /\ trace st' = trace boot /\ mscratch st' = mscratch boot
       /\ tmask st' = tmask boot /\ tls st' = tls boot.
Proof.
  intros dev geo.
  assert (Hn : num_groups geo = 0) by reflexivity.
  assert (Hv : validated dev geo) by (vm_compute; discriminate).
  assert (Hc : 0 <= 1) by lia.
  split; [exact Hn|]. split; [exact Hv|]. split; [exact Hc|].
  exact (zero_grid_noop 0%nat dev 1 2 (Some (arr [5; 0])) (Some (arr [2; 3]))
           boot dev0_ok Hn Hv Hc).
Defined.




(** ** The [dimension] argument *)

Lemma vx_spawn_threads_geometry fuel dev core_id d g b d' g' b' st :
  normalize d g b st = normalize d' g' b' st ->
  vx_spawn_threads fuel dev core_id d g b st
  = vx_spawn_threads fuel dev core_id d' g' b' st.
Proof. intros E. unfold vx_spawn_threads. rewrite E. reflexivity. Qed.

Lemma axis_high dim d i : 0 <= i < 3 -> 3 <= d -> axis dim d i = axis dim 3 i.
Proof.
  intros Hi Hd. unfold axis. destruct dim as [a|]; [|reflexivity].
  destruct (Z.ltb_spec i d), (Z.ltb_spec i 3); (reflexivity || lia).
Qed.

Lemma normalize_high_dimension d g b st :
  3 <= d -> normalize d g b st = normalize 3 g b st.
Proof.
  intros Hd. rewrite !normalize_unfold. cbv zeta.
  rewrite !(axis_high g d), !(axis_high b d) by lia. reflexivity.
Qed.

Lemma normalize_zero_dimension g b st :
  normalize 0 g b st
  = normalize 3 (Some (arr [1; 1; 1])) (Some (arr [1; 1; 1])) st.
Proof.
  rewrite !normalize_unfold. unfold axis. destruct g, b; reflexivity.
Qed.

Lemma normalize_first_three d g g' b b' st :
  (forall i, 0 <= i < 3 -> g i = g' i) ->
  (forall i, 0 <= i < 3 -> b i = b' i) ->
  normalize d (Some g) (Some b) st = normalize d (Some g') (Some b') st.
Proof.
  intros Hg Hb. rewrite !normalize_unfold. unfold axis.
  rewrite !Hg, !Hb by lia. reflexivity.
Qed.

(** The geometry of a launch, axis by axis. *)
Lemma normalize_words d g b st :
  let word := fun (dim : option (Z -> Z)) i =>
    match dim with
    | Some a => if i <? d then u32 (a i) else 1
    | None => 1
    end in
  normalize d g b st
  = mk_geometry
      (u32 (u32 (word g 0 * word g 1) * word g 2))
      (u32 (u32 (word b 0 * word b 1) * word b 2))
      (mk_dim3 (word g 0) (word g 1) (word g 2))
      (mk_dim3 (word b 0) (word b 1) (word b 2)).
Proof.
  intros word. rewrite normalize_unfold. cbv zeta.
  change (axis g d) with (word g). change (axis b d) with (word b).
  rewrite !Z.mul_1_l.
  rewrite (u32_small (word g 0)) by apply (axis_range g d 0).
  rewrite (u32_small (word b 0)) by apply (axis_range b d 0).
  reflexivity.
Qed.

(** A launch is the three-dimensional launch of its arrays with the axes
    from [dimension] on set to 1. *)
Lemma launch_padded fuel dev core_id d g b st :
  let padded := fun (dim : option (Z -> Z)) =>
    Some (fun i => match dim with
                   | Some a => if i <? d then a i else 1
                   | None => 1
                   end) in
  vx_spawn_threads fuel dev core_id d g b st
  = vx_spawn_threads fuel dev core_id 3 (padded g) (padded b) st.
Proof.
  intros padded. apply vx_spawn_threads_geometry.
  rewrite !normalize_unfold. unfold axis, padded.
  destruct g as [g|], b as [b|]; cbn [Z.ltb Z.compare];
    repeat match goal with
           | |- context [if ?i <? d then _ else _] => destruct (i <? d)
           end; reflexivity.
Qed.

(** C10 - dimension tolerance.  The launcher takes any [dimension]: an axis
    whose index is not below [dimension] counts as 1 and only the words 0, 1
    and 2 of the two arrays are read.  So with [dimension = 0] the launch is
    the 1x1x1 launch ([num_groups = 1], [group_size = 1]): every core
    returns 0 and the cores together invoke the callback exactly once; and
    with any [dimension >= 3] the launch is the one with [dimension = 3].
    For every [dimension], 1 and 2 included, the geometry of the launch has
    the word [i] of an array on the axes [i < dimension] and 1 on the axes
    from [dimension] on (1 on every axis for a null pointer), and the launch
    is the three-dimensional launch of the arrays with those axes set to
    1. *)
Theorem dimension_tolerance fuel dev :
  device_ok dev ->
  (2 <= fuel)%nat ->
  (forall fuel' core_id d g b st,
     3 <= d ->
     vx_spawn_threads fuel' dev core_id d g b st
     = vx_spawn_threads fuel' dev core_id 3 g b st)
  /\ (forall fuel' core_id d g g' b b' st,
        (forall i, 0 <= i < 3 -> g i = g' i) ->
        (forall i, 0 <= i < 3 -> b i = b' i) ->
        vx_spawn_threads fuel' dev core_id d (Some g) (Some b) st
        = vx_spawn_threads fuel' dev core_id d (Some g') (Some b') st)
  /\ (forall g b st,
        normalize 0 g b st
        = mk_geometry 1 1 (mk_dim3 1 1 1) (mk_dim3 1 1 1))
  /\ (forall fuel' core_id g b st,
        vx_spawn_threads fuel' dev core_id 0 g b st
        = vx_spawn_threads fuel' dev core_id 3 (Some (arr [1; 1; 1]))
                           (Some (arr [1; 1; 1])) st)
  /\ (forall g b,
        exists k : Z -> Z,
          (forall core_id st, 0 <= core_id ->
             exists st',
               vx_spawn_threads fuel dev core_id 0 g b st = Some (0, st')
               /\ ncalls st' = ncalls st + k core_id)
          /\ sum_Z (map k (first_lanes (num_cores dev))) = 1)
  /\ (forall d g b st,
        let word := fun (dim : option (Z -> Z)) i =>
          match dim with
          | Some a => if i <? d then u32 (a i) else 1
          | None => 1
          end in
        normalize d g b st
        = mk_geometry
            (u32 (u32 (word g 0 * word g 1) * word g 2))
            (u32 (u32 (word b 0 * word b 1) * word b 2))
            (mk_dim3 (word g 0) (word g 1) (word g 2))
            (mk_dim3 (word b 0) (word b 1) (word b 2)))
  /\ (forall fuel' core_id d g b st,
        let padded := fun (dim : option (Z -> Z)) =>
          Some (fun i => match dim with
                         | Some a => if i <? d then a i else 1
                         | None => 1
                         end) in
        vx_spawn_threads fuel' dev core_id d g b st
        = vx_spawn_threads fuel' dev core_id 3 (padded g) (padded b) st).
Proof.
  intros Hdev Hfuel.
  split; [|split; [|split; [|split; [|split; [|split]]]]];
    [| | | | |intros d g b st; apply normalize_words
     |intros fuel' c d g b st; apply launch_padded].
  - intros fuel' c d g b st Hd. apply vx_spawn_threads_geometry.
    apply normalize_high_dimension. exact Hd.
  - intros fuel' c d g g' b b' st Hg Hb. apply vx_spawn_threads_geometry.
    apply normalize_first_three; assumption.
  - intros g b st. rewrite normalize_unfold. unfold axis.
    destruct g, b; reflexivity.
  - intros fuel' c g b st. apply vx_spawn_threads_geometry.
    apply normalize_zero_dimension.
  - intros g b.
    assert (E : forall st, normalize 0 g b st
                           = mk_geometry 1 1 (mk_dim3 1 1 1) (mk_dim3 1 1 1)).
    { intros st. rewrite normalize_unfold. unfold axis.
      destruct g, b; reflexivity. }
    destruct (capacity_exact dev Hdev) as (Ec & Hc).
    pose proof (task_launch_total fuel dev 0 g b boot Hdev) as H.
    cbv zeta in H. rewrite (E boot) in H. cbn [num_groups group_size] in H.
    apply H.
    + unfold validated. cbn [group_size]. lia.
    + lia.
    + apply active_cores_pos; try assumption; cbn [num_groups group_size].
      * unfold validated. cbn [group_size]. lia.
      * lia.
      * lia.
      * change (1 <? 1) with false. cbv iota. destruct Hdev. lia.
    + lia.
Qed.

Lemma dimension_tolerance_witness :
  (forall g b,
     exists k : Z -> Z,
       (forall core_id st, 0 <= core_id ->
          exists st',
            vx_spawn_threads 2 (mk_device 2 4 4) core_id 0 g b st
            = Some (0, st')
            /\ ncalls st' = ncalls st + k core_id)
       /\ sum_Z (map k (first_lanes 2)) = 1)
  /\ calls (trace (snd (match vx_spawn_threads 2 (mk_device 2 4 4) 0 0
                                (Some (arr [7; 7; 7])) (Some (arr [9; 9; 9]))
                                boot with
                        | Some r => r
                        | None => (0, boot)
                        end)))
     = [(0, 0, tls0)]
  /\ normalize 1 (Some (arr [5; 7; 9])) (Some (arr [2; 3; 4])) boot
     = mk_geometry 5 2 (mk_dim3 5 1 1) (mk_dim3 2 1 1)
  /\ normalize 2 (Some (arr [5; 7; 9])) None boot
     = mk_geometry 35 1 (mk_dim3 5 7 1) (mk_dim3 1 1 1).
Proof.
  destruct (dimension_tolerance 2%nat (mk_device 2 4 4) dev0_ok (le_n 2))
    as (_ & _ & _ & _ & H5 & H6 & _).
  split; [exact H5|]. split; [reflexivity|]. split.
  - exact (H6 1 (Some (arr [5; 7; 9])) (Some (arr [2; 3; 4])) boot).
  - exact (H6 2 (Some (arr [5; 7; 9])) None boot).
Defined.

(** ** The group path on an active core *)

Section GroupsPath.

Variable dev : device.
Hypothesis Hdev : device_ok dev.
Variables core_id n gs : Z.
Hypothesis Hn : 0 <= n < 4294967296.
Hypothesis Hgs : 1 < gs <= u32 (num_warps dev * num_threads dev).
Hypothesis Hactive :
  0 <= core_id < gp_active_cores (groups_plan dev core_id n gs).

Let p := groups_plan dev core_id n gs.
Let wpc := num_warps dev.
Let W := gp_warps_per_group p.
Let C := gp_groups_launchable p.
Let T := gp_total_warps p.
Let G := gp_total_groups_per_core p.

Lemma groups_device :
  1 <= wpc < 4294967296 /\ 1 <= W <= wpc /\ 1 <= C /\ C * W <= wpc
  /\ 0 <= T < 4294967296.
Proof.
  destruct (capacity_exact dev Hdev) as (Ec & Hc).
  pose proof (warps_per_group_pos dev Hdev core_id n gs) as Hp.
  pose proof (warps_per_group_fits dev Hdev core_id n gs ltac:(lia)) as Hf.
  pose proof (groups_launchable_pos dev Hdev core_id n gs Hgs) as Hl.
  pose proof (batch_fits dev Hdev core_id n gs Hgs) as (_ & Hb).
  pose proof (u32_range (G * W)) as HT.
  pose proof (u32_range (num_warps dev * num_threads dev)) as Hu.
  specialize (Hp ltac:(lia)).
  fold p in Hp, Hf, Hl, Hb. fold W in Hp, Hf, Hb. fold C in Hl, Hb.
  fold wpc in Hf, Hb. change (u32 (G * W)) with T in HT.
  destruct Hdev as [_ Hw Ht Hcap]. fold wpc in Hw, Hcap.
  assert (wpc < 4294967296) by nia.
  repeat split; lia.
Qed.

(** A core is active only when the count of needed cores did not wrap. *)
Lemma groups_no_wrap : gp_needed_warps p + wpc - 1 < 4294967296.
Proof.
  pose proof groups_device as (Hw & _).
  pose proof Hactive as Ha. unfold groups_plan in Ha.
  cbn [gp_active_cores] in Ha. rewrite MIN_spec in Ha.
  change (gp_needed_warps p) with (u32 (n * W)).
  unfold W, p, groups_plan. cbn [gp_warps_per_group]. fold wpc in Ha |- *.
  match type of Ha with context [u32 (?nw + wpc - 1) / wpc] =>
    set (needed := nw) in * end.
  pose proof (u32_range (needed + wpc - 1)) as Hr.
  assert (Hneed : 1 <= u32 (needed + wpc - 1) / wpc) by lia.
  assert (Hge : wpc <= u32 (needed + wpc - 1)).
  { destruct (Z_lt_le_dec (u32 (needed + wpc - 1)) wpc) as [L|L]; [|exact L].
    rewrite Z.div_small in Hneed; lia. }
  assert (Hnr : 0 <= needed < 4294967296) by (apply u32_range).
  destruct (Z_lt_le_dec (needed + wpc - 1) 4294967296) as [L|L]; [exact L|].
  exfalso. unfold u32 in Hge.
  assert (E : (needed + wpc - 1) mod 4294967296
              = needed + wpc - 1 - 4294967296)
    by (symmetry; apply Z.mod_unique with (q := 1); lia).
  lia.
Qed.

Lemma groups_per_core_le : 0 <= G <= n.
Proof.
  assert (Ha : 1 <= gp_active_cores p) by (unfold p; lia).
  set (a := gp_active_cores p) in *.
  assert (E : G = n / a + (if core_id <? n mod a then 1 else 0))
    by (apply per_core_exact; [assumption|assumption|lia]).
  pose proof (base_rem n a Hn Ha) as (Ediv & Hr & Hq).
  rewrite E. destruct (Z.ltb_spec core_id (n mod a)); nia.
Qed.

(** The product [iterations * groups_per_core] of the loop bound never
    wraps around. *)
Lemma groups_rounds_fit w :
  0 <= w ->
  0 <= groups_iterations (groups_args p) w <= 4294967296
  /\ groups_iterations (groups_args p) w * C < 4294967296.
Proof.
  intros Hw.
  pose proof groups_device as (Hwpc & HW & HC & HCW & HT).
  pose proof (iterations_exact dev Hdev core_id n gs Hgs w Hw) as Eit.
  fold p in Eit. rewrite Eit. clear Eit.
  destruct (schedule_cases dev Hdev core_id n gs Hgs)
    as [(L & _ & Eb & Er)|(L & _ & Eb & Er)];
    fold p in L, Eb, Er; fold T in L, Eb, Er; fold C W in Eb, Er;
    rewrite Eb, Er.
  - set (batch := C * W) in *.
    assert (Hbatch : 1 <= batch) by (unfold batch; nia).
    pose proof (Z.div_mod T batch ltac:(lia)) as Hdm.
    pose proof (Z.mod_pos_bound T batch ltac:(lia)) as Hm.
    assert (Hb : 0 <= T / batch) by (apply Z.div_pos; lia).
    assert (HCb : C <= batch)
      by (unfold batch; rewrite <- (Z.mul_1_r C) at 1;
          apply Z.mul_le_mono_nonneg_l; lia).
    assert (HbC : T / batch * C <= T / batch * batch)
      by (apply Z.mul_le_mono_nonneg_l; lia).
    assert (Hbb : T / batch <= T / batch * batch)
      by (rewrite <- (Z.mul_1_r (T / batch)) at 1;
          apply Z.mul_le_mono_nonneg_l; lia).
    destruct (Z.ltb_spec w (T mod batch)) as [Lw|Lw].
    + split; [lia|]. rewrite Z.mul_add_distr_r, Z.mul_1_l.
      destruct (Z.eq_dec W 1) as [E1|E1].
      * assert (EC : batch = C) by (unfold batch; rewrite E1; lia).
        pose proof groups_no_wrap as Hnw.
        pose proof groups_per_core_le as HG.
        change (gp_needed_warps p) with (u32 (n * W)) in Hnw.
        rewrite E1, Z.mul_1_r, (u32_small n) in Hnw by lia.
        assert (ET : T = G)
          by (change T with (u32 (G * W)); rewrite E1, Z.mul_1_r;
              apply u32_small; lia).
        unfold batch in HCb. lia.
      * assert (HC2 : C * 2 <= batch)
          by (unfold batch; apply Z.mul_le_mono_nonneg_l; lia).
        assert (H2 : T / batch * (C * 2) <= T / batch * batch)
          by (apply Z.mul_le_mono_nonneg_l; lia).
        unfold batch in HC2. lia.
    + split; lia.
  - split; [destruct (w <? 0); lia|].
    destruct (Z.ltb_spec w 0); [lia|].
    assert (C <= C * W)
      by (rewrite <- (Z.mul_1_r C) at 1; apply Z.mul_le_mono_nonneg_l; lia).
    lia.
Qed.

Lemma groups_stub_runs fuel w st :
  0 <= w ->
  mscratch st = scratch_groups (groups_args p) ->
  4294967296 < Z.of_nat fuel ->
  exists st',
    process_thread_groups_stub fuel dev w st = Some st'
    /\ same_globals st st'
    /\ ncalls st' = ncalls st + groups_warp_calls dev (groups_args p) w.
Proof.
  intros Hw Hs Hfuel. unfold process_thread_groups_stub. rewrite Hs.
  pose proof groups_device as (Hwpc & HW & HC & HCW & HT).
  destruct (groups_rounds_fit w Hw) as (Hit & Hprod).
  destruct (masked_section dev w (threads_mask (groups_args p) w)
              (if 0 =? w then 1 else 0)
              (process_thread_groups fuel dev w)
              (lanes_of_mask (num_threads dev)
                             (threads_mask (groups_args p) w))
              (fun _ => groups_warp_rounds (groups_args p) w) st)
    as (st' & E & G' & C').
  - reflexivity.
  - intros t s Hin Hg.
    apply process_thread_groups_lane.
    + destruct Hg as (_ & _ & _ & ->). exact Hs.
    + change (g_groups_per_core (groups_args p)) with C. lia.
    + exact Hprod.
    + lia.
  - exists st'. split; [exact E|]. split; [exact G'|].
    rewrite C', sum_Z_const. reflexivity.
Qed.

Lemma spawn_groups_runs fuel st :
  4294967296 < Z.of_nat fuel ->
  exists st',
    spawn_groups fuel dev p st = Some st'
    /\ gridDim st' = gridDim st /\ blockDim st' = blockDim st
    /\ warps_per_group_pub st' = W
    /\ ncalls st'
       = ncalls st
         + sum_Z (map (groups_warp_calls dev (groups_args p))
                      (0 :: siblings (gp_active_warps p))).
Proof.
  intros Hfuel. unfold spawn_groups.
  set (st2 := set_warps_per_group (gp_warps_per_group p)
                (csr_write (scratch_groups (groups_args p)) st)).
  destruct (vx_wspawn_invariant fuel dev (gp_active_warps p) entry_groups_stub
              (groups_warp_calls dev (groups_args p)) st2)
    as (st3 & E3 & G3 & C3).
  { intros w s Hin Hg. cbn [run_entry]. apply groups_stub_runs.
    - unfold siblings in Hin. apply in_map_iff in Hin as (j & <- & _). lia.
    - destruct Hg as (_ & _ & _ & ->). reflexivity.
    - exact Hfuel. }
  rewrite E3.
  destruct (groups_stub_runs fuel 0 st3 ltac:(lia)) as (st4 & E4 & G4 & C4).
  { destruct G3 as (_ & _ & _ & ->). reflexivity. }
  { exact Hfuel. }
  exists st4. split; [exact E4|].
  destruct G3 as (A1 & A2 & A3 & _), G4 as (B1 & B2 & B3 & _).
  split; [rewrite B1, A1; reflexivity|].
  split; [rewrite B2, A2; reflexivity|].
  split; [rewrite B3, A3; reflexivity|].
  rewrite C4, C3. cbn [map sum_Z fold_right]. unfold sum_Z, ncalls, st2.
  cbn [trace set_warps_per_group csr_write]. lia.
Qed.

End GroupsPath.

Lemma launch_groups_active fuel dev core_id dimension grid_dim block_dim st :
  device_ok dev ->
  let geo := normalize dimension grid_dim block_dim st in
  validated dev geo ->
  1 < group_size geo ->
  0 <= core_id < active_cores dev geo ->
  4294967296 < Z.of_nat fuel ->
  let p := groups_plan dev core_id (num_groups geo) (group_size geo) in
  exists st',
    vx_spawn_threads fuel dev core_id dimension grid_dim block_dim st
    = Some (0, st')
    /\ ncalls st'
       = ncalls st
         + sum_Z (map (groups_warp_calls dev (groups_args p))
                      (0 :: siblings (gp_active_warps p)))
    /\ gridDim st' = geo_gridDim geo /\ blockDim st' = geo_blockDim geo
    /\ warps_per_group_pub st' = gp_warps_per_group p.
Proof.
  intros Hdev geo Hv Hgs Ha Hfuel p. unfold validated in Hv.
  pose proof (num_groups_range dimension grid_dim block_dim st) as Hn.
  fold geo in Hn.
  unfold vx_spawn_threads. fold geo. unfold active_cores in *.
  destruct (Z.ltb_spec (u32 (num_warps dev * num_threads dev)) (group_size geo));
    [lia|].
  destruct (Z.ltb_spec 1 (group_size geo)); [|lia].
  change (gp_active_cores
            (groups_plan dev 0 (num_groups geo) (group_size geo)))
    with (gp_active_cores p) in Ha.
  fold p.
  destruct (Z.leb_spec (gp_active_cores p) core_id); [lia|].
  set (st0 := set_dims (geo_gridDim geo) (geo_blockDim geo) st).
  destruct (spawn_groups_runs dev Hdev core_id (num_groups geo)
              (group_size geo) Hn ltac:(lia) Ha fuel st0 Hfuel)
    as (st2 & E2 & G1 & G2 & G3 & C2).
  fold p in E2, G3, C2. rewrite E2.
  destruct (join_runs fuel dev st2) as (st3 & E3 & (J1 & J2 & J3 & _) & C3).
  rewrite E3. exists st3. split; [reflexivity|].
  split; [rewrite C3, C2; reflexivity|].
  split; [rewrite J1, G1; reflexivity|].
  split; [rewrite J2, G2; reflexivity|].
  rewrite J3, G3. reflexivity.
Qed.

(** A launch that passes the capacity check returns 0, given enough fuel. *)
Lemma launch_returns fuel dev core_id dimension grid_dim block_dim st :
  device_ok dev ->
  validated dev (normalize dimension grid_dim block_dim st) ->
  0 <= core_id ->
  4294967296 < Z.of_nat fuel ->
  exists st',
    vx_spawn_threads fuel dev core_id dimension grid_dim block_dim st
    = Some (0, st').
Proof.
  intros Hdev Hv Hc Hfuel.
  set (geo := normalize dimension grid_dim block_dim st) in *.
  pose proof (num_groups_range dimension grid_dim block_dim st) as Hn.
  fold geo in Hn.
  destruct (Z_lt_le_dec core_id (active_cores dev geo)) as [La|La].
  - destruct (Z_lt_le_dec 1 (group_size geo)) as [Lg|Lg].
    + destruct (launch_groups_active fuel dev core_id dimension grid_dim
                  block_dim st Hdev Hv Lg ltac:(fold geo; lia) Hfuel)
        as (st' & E & _).
      exists st'. exact E.
    + destruct (launch_tasks_active fuel dev core_id dimension grid_dim
                  block_dim st Hdev Hv Lg ltac:(fold geo; lia)
                  ltac:(fold geo; lia))
        as (st' & E & _).
      exists st'. exact E.
  - destruct (launch_inactive fuel dev core_id dimension grid_dim block_dim st
                Hv La) as (st' & E & _).
    exists st'. exact E.
Qed.

(** The launcher returns -1 from the capacity check only. *)
Lemma launch_result_zero fuel dev core_id dimension grid_dim block_dim st r st' :
  validated dev (normalize dimension grid_dim block_dim st) ->
  vx_spawn_threads fuel dev core_id dimension grid_dim block_dim st
  = Some (r, st') ->
  r = 0.
Proof.
  unfold validated, vx_spawn_threads. intros Hv.
  destruct (Z.ltb_spec (u32 (num_warps dev * num_threads dev))
              (group_size (normalize dimension grid_dim block_dim st)));
    [lia|].
  destruct (1 <? _).
  - destruct (_ <=? core_id); [congruence|].
    destruct (spawn_groups _ _ _ _); [|discriminate].
    destruct (vx_wspawn _ _ _ _ _); [congruence|discriminate].
  - destruct (_ <=? core_id); [congruence|].
    destruct (spawn_tasks _ _ _ _); [|discriminate].
    destruct (vx_wspawn _ _ _ _ _); [congruence|discriminate].
Qed.

(** ** The oversize error *)

(** C2 - oversize-block error (as amended).  When [group_size] exceeds
    [warps_per_core * threads_per_warp] the launcher returns -1 at once,
    whatever the fuel: it invokes no callback, spawns no warp, touches no
    thread mask, leaves the scratch register, [__warps_per_group] and the
    thread-locals alone, and only prints its error message.  The globals
    [gridDim] and [blockDim], however, have already been overwritten with
    the geometry of the rejected launch.  For every other input the
    launcher returns 0 (given enough fuel) and never -1. *)
Theorem oversize_error dev core_id dimension grid_dim block_dim st :
  let geo := normalize dimension grid_dim block_dim st in
  let capacity := u32 (num_warps dev * num_threads dev) in
  (capacity < group_size geo ->
   forall fuel,
   exists st',
     vx_spawn_threads fuel dev core_id dimension grid_dim block_dim st
     = Some (-1, st')
     /\ trace st' = trace st ++ [ev_printf (group_size geo) capacity]
     /\ calls (trace st') = calls (trace st)
     /\ mscratch st' = mscratch st /\ tmask st' = tmask st
     /\ tls st' = tls st
     /\ warps_per_group_pub st' = warps_per_group_pub st
     /\ gridDim st' = geo_gridDim geo /\ blockDim st' = geo_blockDim geo)
  /\ (group_size geo <= capacity ->
      (forall fuel r st',
         vx_spawn_threads fuel dev core_id dimension grid_dim block_dim st
         = Some (r, st') -> r = 0)
      /\ (device_ok dev -> 0 <= core_id ->
          exists fuel0, forall fuel, (fuel0 <= fuel)%nat ->
          exists st',
            vx_spawn_threads fuel dev core_id dimension grid_dim block_dim st
            = Some (0, st'))).
Proof.
  intros geo capacity. split.
  - intros Hover fuel. eexists. split.
    + apply launch_oversize. unfold validated. fold geo capacity. lia.
    + fold geo capacity. cbn [trace emit set_dims mscratch tmask tls
                                warps_per_group_pub gridDim blockDim].
      repeat split. unfold calls. rewrite flat_map_app. cbn.
      apply app_nil_r.
  - intros Hv. split.
    + intros fuel r st' E.
      apply (launch_result_zero fuel dev core_id dimension grid_dim block_dim
               st r st' Hv E).
    + intros Hdev Hc. exists (Z.to_nat 4294967297). intros fuel Hfuel.
      apply launch_returns; try assumption. lia.
Qed.

Lemma oversize_error_witness :
  let dev := mk_device 2 4 4 in
  (exists st',
     vx_spawn_threads 0 dev 0 1 (Some (arr [1])) (Some (arr [17])) boot
     = Some (-1, st')
     /\ trace st' = [ev_printf 17 16])
  /\ (forall fuel r st',
        vx_spawn_threads fuel dev 0 1 (Some (arr [8])) None boot
        = Some (r, st') -> r = 0).
Proof.
  intros dev. split.
  - destruct (proj1 (oversize_error dev 0 1 (Some (arr [1]))
                       (Some (arr [17])) boot) eq_refl 0%nat)
      as (st' & E & T & _).
    exists st'. split; [exact E|exact T].
  - refine (proj1 (proj2 (oversize_error dev 0 1 (Some (arr [8])) None boot)
                     _)).
    vm_compute. discriminate.
Defined.

(** C2 as stated fails on the published globals: a core whose last launch
    had [gridDim = (8,1,1)] and [blockDim = (1,1,1)] and that rejects a
    launch of one block of 17 threads (capacity 16) returns -1 with
    [gridDim = (1,1,1)] and [blockDim = (17,1,1)]. *)
Lemma oversize_error_counterexample :
  let dev := mk_device 2 4 4 in
  let st := set_dims (mk_dim3 8 1 1) (mk_dim3 1 1 1) boot in
  exists st',
    vx_spawn_threads 0 dev 0 1 (Some (arr [1])) (Some (arr [17])) st
    = Some (-1, st')
    /\ gridDim st' = mk_dim3 1 1 1 /\ blockDim st' = mk_dim3 17 1 1
    /\ gridDim st' <> gridDim st /\ blockDim st' <> blockDim st.
Proof.
  intros dev st. eexists. split; [reflexivity|].
  cbn. repeat split; discriminate.
Qed.

(** ** The tail of the task path *)

Lemma remaining_lanes_trace targs w lanes st :
  mscratch st = scratch_threads targs ->
  exists st',
    foreach lanes (process_remaining_threads w) st = Some st'
    /\ trace st' = trace st ++ map (fun t => ev_callback w t (tls st w t)) lanes
    /\ tls st' = tls st /\ mscratch st' = mscratch st
    /\ tmask st' = tmask st.
Proof.
  revert st. induction lanes as [|t lanes IH]; intros st Hs.
  - exists st. cbn. rewrite app_nil_r. repeat split.
  - cbn [foreach]. unfold process_remaining_threads at 1. rewrite Hs.
    destruct (IH (callback w t st) Hs) as (st' & E & T & L & M & K).
    exists st'. split; [exact E|]. split.
    + rewrite T. cbn [trace callback emit tls map].
      rewrite <- app_assoc. reflexivity.
    + split; [exact L|]. split; [rewrite M; exact Hs|exact K].
Qed.

Lemma calls_of_callbacks w (f : Z -> tls_t) l :
  calls (map (fun t => ev_callback w t (f t)) l)
  = map (fun t => (w, t, f t)) l.
Proof.
  unfold calls. induction l as [|t l IH]; [reflexivity|].
  cbn [map flat_map app]. rewrite IH. reflexivity.
Qed.

(** The remainder stub never assigns [blockIdx]: whatever the launch, each
    tail lane invokes the callback with the thread-locals it had before the
    tail was entered. *)
Lemma spawn_tail_trace dev p st :
  1 <= num_threads dev <= 32 ->
  0 < tp_remaining_tasks p < num_threads dev ->
  mscratch st = scratch_threads (threads_args p) ->
  exists st',
    spawn_tail dev p st = Some st'
    /\ calls (trace st')
       = calls (trace st)
         ++ map (fun t => (0, t, tls st 0 t))
                (first_lanes (tp_remaining_tasks p)).
Proof.
  intros Ht Hr Hs. unfold spawn_tail.
  destruct (Z.eqb_spec (tp_remaining_tasks p) 0) as [E|_]; [lia|].
  unfold run_lanes. rewrite tmask_vx_tmc.
  rewrite low_mask_u32, lanes_of_low_mask by lia.
  destruct (remaining_lanes_trace (threads_args p) 0
              (first_lanes (tp_remaining_tasks p))
              (vx_tmc 0 (Z.ones (tp_remaining_tasks p)) st) Hs)
    as (st' & E & T & _).
  rewrite E. eexists. split; [reflexivity|].
  cbn [trace vx_tmc emit]. rewrite T. cbn [trace vx_tmc emit tls].
  rewrite <- (calls_of_callbacks 0 (tls st 0)).
  unfold calls. rewrite !flat_map_app. cbn [flat_map app].
  rewrite !app_nil_r. reflexivity.
Qed.

(** C1 - coverage, at the failing input.  One core with one warp of four
    lanes launches five single-thread blocks.  The full warp observes the
    blocks 0, 1, 2, 3; the tail lane, whose task is 4, invokes the callback
    with the [blockIdx] lane 0 was left with: block 0 is observed twice and
    block 4 never. *)
Theorem coverage_tail_observes_stale_block :
  let dev := mk_device 1 1 4 in
  let run := vx_spawn_threads 2 dev 0 1 (Some (arr [5])) None boot in
  device_ok dev
  /\ validated dev (normalize 1 (Some (arr [5])) None boot)
  /\ (exists st, run = Some (0, st))
  /\ observed_blocks run = [0; 1; 2; 3; 0]
  /\ count_occ Z.eq_dec (observed_blocks run) 0 = 2%nat
  /\ count_occ Z.eq_dec (observed_blocks run) 4 = 0%nat.
Proof.
  intros dev run.
  split; [constructor; cbn; lia|].
  split; [vm_compute; discriminate|].
  split; [eexists; vm_compute; reflexivity|].
  split; [vm_compute; reflexivity|].
  split; vm_compute; reflexivity.
Qed.

(** ** The callback invocations of the group path, one by one *)

Lemma calls_app tr1 tr2 : calls (tr1 ++ tr2) = calls tr1 ++ calls tr2.
Proof. unfold calls. apply flat_map_app. Qed.

Lemma calls_vx_tmc w m st : calls (trace (vx_tmc w m st)) = calls (trace st).
Proof.
  cbn [vx_tmc emit trace]. rewrite calls_app. cbn. apply app_nil_r.
Qed.

Lemma foreach_calls {A : Type} (f : A -> core_state -> option core_state)
      (I : core_state -> Prop) (g : A -> list (Z * Z * tls_t)) (l : list A) :
  (forall a s, In a l -> I s ->
     exists s', f a s = Some s' /\ I s'
                /\ calls (trace s') = calls (trace s) ++ g a) ->
  forall s, I s ->
    exists s', foreach l f s = Some s' /\ I s'
               /\ calls (trace s') = calls (trace s) ++ flat_map g l.
Proof.
  induction l as [|a l IH]; intros Hf s Hs.
  - exists s. cbn. rewrite app_nil_r. repeat split. assumption.
  - destruct (Hf a s (or_introl eq_refl) Hs) as (s1 & E1 & I1 & C1).
    destruct (IH (fun a' s' Hin => Hf a' s' (or_intror Hin)) s1 I1)
      as (s2 & E2 & I2 & C2).
    exists s2. cbn [foreach flat_map]. rewrite E1.
    split; [exact E2|]. split; [exact I2|].
    rewrite C2, C1, app_assoc. reflexivity.
Qed.

(** The rounds of the block loop of one lane. *)
Lemma iterate_calls w t step :
  forall (n : nat) i s,
    let body := fun i s =>
      callback w t
        (set_tls w t
           (fun c => mk_tls (decompose i (gridDim s)) (threadIdx c)
                            (__local_group_id c)) s) in
    let s' := iterate body i step n s in
    (same_globals s s' /\ tmask s' = tmask s)
    /\ threadIdx (tls s' w t) = threadIdx (tls s w t)
    /\ __local_group_id (tls s' w t) = __local_group_id (tls s w t)
    /\ calls (trace s')
       = calls (trace s)
         ++ map (fun k =>
                   (w, t,
                    mk_tls (decompose (i + Z.of_nat k * step) (gridDim s))
                           (threadIdx (tls s w t))
                           (__local_group_id (tls s w t))))
                (seq 0 n).
Proof.
  induction n as [|n IH]; intros i s body s'.
  - subst s'. cbn. rewrite app_nil_r. repeat split.
  - subst s'. cbn [iterate].
    specialize (IH (i + step) (body i s)). cbv zeta in IH.
    fold body in IH.
    destruct IH as ((G & M) & T1 & T2 & C).
    assert (Etls : tls (body i s) w t
                   = mk_tls (decompose i (gridDim s)) (threadIdx (tls s w t))
                            (__local_group_id (tls s w t))).
    { unfold body, callback. cbn [tls emit set_tls].
      rewrite !Z.eqb_refl. reflexivity. }
    assert (Ecalls : calls (trace (body i s))
                     = calls (trace s)
                       ++ [(w, t, mk_tls (decompose i (gridDim s))
                                         (threadIdx (tls s w t))
                                         (__local_group_id (tls s w t)))]).
    { unfold body, callback at 1. cbn [trace emit]. rewrite calls_app.
      cbn [calls flat_map app trace set_tls tls].
      rewrite !Z.eqb_refl. reflexivity. }
    rewrite Etls in T1, T2, C. cbn [threadIdx __local_group_id] in T1, T2, C.
    split; [split|].
    + apply (same_globals_trans s (body i s)); [repeat split|exact G].
    + rewrite M. reflexivity.
    + split; [exact T1|]. split; [exact T2|].
      rewrite C, Ecalls, <- app_assoc. f_equal.
      rewrite <- cons_seq, <- seq_shift. cbn [map app]. rewrite map_map.
      f_equal.
      * f_equal. f_equal. f_equal. lia.
      * apply map_ext. intros k. f_equal. f_equal. f_equal.
        change (gridDim (body i s)) with (gridDim s). lia.
Qed.

Lemma process_thread_groups_calls fuel dev targs w t st :
  mscratch st = scratch_groups targs ->
  0 < g_groups_per_core targs ->
  groups_iterations targs w * g_groups_per_core targs < 4294967296 ->
  (Z.to_nat (groups_iterations targs w) < fuel)%nat ->
  exists st',
    process_thread_groups fuel dev w t st = Some st'
    /\ (same_globals st st' /\ tmask st' = tmask st)
    /\ calls (trace st')
       = calls (trace st)
         ++ lane_events dev targs (gridDim st) (blockDim st) w t.
Proof.
  intros Hs Hc Hprod Hfuel.
  unfold process_thread_groups. rewrite Hs. cbv zeta.
  rewrite for_u32_runs; try assumption; try apply u32_range.
  eexists. split; [reflexivity|].
  unfold lane_events, rounds_of, groups_warp_rounds, first_lanes.
  match goal with
  | |- context [iterate ?b ?i ?stp ?n ?s0] =>
      pose proof (iterate_calls w t stp n i s0) as H; cbv zeta in H
  end.
  destruct (_ <? 4294967296).
  - destruct H as ((G & M) & _ & _ & C). split; [split|].
    + apply (same_globals_trans _ _ _ (same_globals_refl _)).
      destruct G as (G1 & G2 & G3 & G4). repeat split; assumption.
    + rewrite M. reflexivity.
    + rewrite C. cbn [trace set_tls tls gridDim threadIdx __local_group_id].
      rewrite !Z.eqb_refl. cbn [andb threadIdx __local_group_id].
      f_equal. rewrite map_map. apply map_ext. intros k. reflexivity.
  - clear H. split; [split; [repeat split|reflexivity]|].
    cbn. rewrite app_nil_r. reflexivity.
Qed.

Lemma masked_section_calls dev w mask after body
      (g : Z -> list (Z * Z * tls_t)) st :
  (forall t s, In t (lanes_of_mask (num_threads dev) mask) ->
     same_globals st s ->
     exists s', body t s = Some s'
                /\ (same_globals s s' /\ tmask s' = tmask s)
                /\ calls (trace s') = calls (trace s) ++ g t) ->
  exists st',
    match run_lanes dev w body (vx_tmc w mask st) with
    | Some st' => Some (vx_tmc w after st')
    | None => None
    end = Some st'
    /\ same_globals st st'
    /\ calls (trace st')
       = calls (trace st) ++ flat_map g (lanes_of_mask (num_threads dev) mask).
Proof.
  intros Hbody. unfold run_lanes. rewrite tmask_vx_tmc.
  destruct (foreach_calls body (same_globals st) g
              (lanes_of_mask (num_threads dev) mask))
    with (s := vx_tmc w mask st) as (st1 & E & G & C).
  - intros t s Hin Hs. destruct (Hbody t s Hin Hs) as (s' & E & (G & _) & C).
    exists s'. split; [exact E|]. split; [|exact C].
    apply (same_globals_trans _ _ _ Hs G).
  - apply same_globals_vx_tmc.
  - rewrite E. eexists. split; [reflexivity|]. split.
    + apply (same_globals_trans _ _ _ G). apply same_globals_vx_tmc.
    + rewrite calls_vx_tmc, C, calls_vx_tmc. reflexivity.
Qed.

Lemma vx_wspawn_calls fuel dev n e (g : Z -> list (Z * Z * tls_t)) st :
  (forall w s, In w (siblings n) -> same_globals st s ->
     exists s', run_entry fuel dev e w s = Some s'
                /\ same_globals s s'
                /\ calls (trace s') = calls (trace s) ++ g w) ->
  exists st',
    vx_wspawn fuel dev n e st = Some st'
    /\ same_globals st st'
    /\ calls (trace st') = calls (trace st) ++ flat_map g (siblings n).
Proof.
  intros Hw. unfold vx_wspawn.
  destruct (foreach_calls (run_entry fuel dev e) (same_globals st) g
              (siblings n)) with (s := emit (ev_wspawn n e) st)
    as (st' & E & G & C).
  - intros w s Hin Hs. destruct (Hw w s Hin Hs) as (s' & E & G & C).
    exists s'. split; [exact E|]. split; [|exact C].
    apply (same_globals_trans _ _ _ Hs G).
  - repeat split.
  - exists st'. split; [exact E|]. split; [exact G|].
    rewrite C. cbn [trace emit]. rewrite calls_app. cbn.
    rewrite app_nil_r. reflexivity.
Qed.

Section GroupsTrace.

Variable dev : device.
Hypothesis Hdev : device_ok dev.
Variables core_id n gs : Z.
Hypothesis Hn : 0 <= n < 4294967296.
Hypothesis Hgs : 1 < gs <= u32 (num_warps dev * num_threads dev).
Hypothesis Hactive :
  0 <= core_id < gp_active_cores (groups_plan dev core_id n gs).

Let p := groups_plan dev core_id n gs.

Lemma groups_stub_calls fuel w st :
  0 <= w ->
  mscratch st = scratch_groups (groups_args p) ->
  4294967296 < Z.of_nat fuel ->
  exists st',
    process_thread_groups_stub fuel dev w st = Some st'
    /\ same_globals st st'
    /\ calls (trace st')
       = calls (trace st)
         ++ warp_events dev (groups_args p) (gridDim st) (blockDim st) w.
Proof.
  intros Hw Hs Hfuel. unfold process_thread_groups_stub. rewrite Hs.
  pose proof (groups_device dev Hdev core_id n gs Hgs)
    as (Hwpc & HW & HC & HCW & HT).
  destruct (groups_rounds_fit dev Hdev core_id n gs Hn Hgs Hactive w Hw)
    as (Hit & Hprod).
  fold p in HC, Hit, Hprod.
  apply masked_section_calls. intros t s Hin Hg.
  destruct Hg as (G1 & G2 & G3 & G4).
  rewrite <- G1, <- G2.
  apply process_thread_groups_calls.
  - rewrite G4. exact Hs.
  - change (g_groups_per_core (groups_args p)) with (gp_groups_launchable p).
    lia.
  - exact Hprod.
  - lia.
Qed.

Lemma spawn_groups_calls fuel st :
  4294967296 < Z.of_nat fuel ->
  exists st',
    spawn_groups fuel dev p st = Some st'
    /\ gridDim st' = gridDim st /\ blockDim st' = blockDim st
    /\ calls (trace st')
       = calls (trace st) ++ core_events dev p (gridDim st) (blockDim st).
Proof.
  intros Hfuel. unfold spawn_groups.
  set (st2 := set_warps_per_group (gp_warps_per_group p)
                (csr_write (scratch_groups (groups_args p)) st)).
  destruct (vx_wspawn_calls fuel dev (gp_active_warps p) entry_groups_stub
              (warp_events dev (groups_args p) (gridDim st) (blockDim st))
              st2)
    as (st3 & E3 & G3 & C3).
  { intros w s Hin (G1 & G2 & G3 & G4). cbn [run_entry].
    change (gridDim st) with (gridDim st2).
    change (blockDim st) with (blockDim st2).
    rewrite <- G1, <- G2. apply groups_stub_calls.
    - unfold siblings in Hin. apply in_map_iff in Hin as (j & <- & _). lia.
    - rewrite G4. reflexivity.
    - exact Hfuel. }
  rewrite E3.
  destruct (groups_stub_calls fuel 0 st3 ltac:(lia)) as (st4 & E4 & G4 & C4).
  { destruct G3 as (_ & _ & _ & ->). reflexivity. }
  { exact Hfuel. }
  exists st4. split; [exact E4|].
  destruct G3 as (A1 & A2 & _), G4 as (B1 & B2 & _).
  split; [rewrite B1, A1; reflexivity|].
  split; [rewrite B2, A2; reflexivity|].
  rewrite C4, C3, A1, A2. unfold core_events, warps_run.
  rewrite flat_map_app. cbn [flat_map]. rewrite app_nil_r, app_assoc.
  reflexivity.
Qed.

End GroupsTrace.

Lemma launch_groups_calls fuel dev core_id dimension grid_dim block_dim st :
  device_ok dev ->
  let geo := normalize dimension grid_dim block_dim st in
  validated dev geo ->
  1 < group_size geo ->
  0 <= core_id < active_cores dev geo ->
  4294967296 < Z.of_nat fuel ->
  let p := groups_plan dev core_id (num_groups geo) (group_size geo) in
  exists st',
    vx_spawn_threads fuel dev core_id dimension grid_dim block_dim st
    = Some (0, st')
    /\ calls (trace st')
       = calls (trace st)
         ++ core_events dev p (geo_gridDim geo) (geo_blockDim geo).
Proof.
  intros Hdev geo Hv Hgs Ha Hfuel p. unfold validated in Hv.
  pose proof (num_groups_range dimension grid_dim block_dim st) as Hn.
  fold geo in Hn.
  unfold vx_spawn_threads. fold geo. unfold active_cores in *.
  destruct (Z.ltb_spec (u32 (num_warps dev * num_threads dev)) (group_size geo));
    [lia|].
  destruct (Z.ltb_spec 1 (group_size geo)); [|lia].
  change (gp_active_cores
            (groups_plan dev 0 (num_groups geo) (group_size geo)))
    with (gp_active_cores p) in Ha.
  fold p.
  destruct (Z.leb_spec (gp_active_cores p) core_id); [lia|].
  set (st0 := set_dims (geo_gridDim geo) (geo_blockDim geo) st).
  destruct (spawn_groups_calls dev Hdev core_id (num_groups geo)
              (group_size geo) Hn ltac:(lia) Ha fuel st0 Hfuel)
    as (st2 & E2 & _ & _ & C2).
  fold p in E2, C2. rewrite E2. cbn [vx_wspawn siblings foreach].
  eexists. split; [reflexivity|].
  cbn [trace emit]. rewrite calls_app, C2. cbn. rewrite app_nil_r.
  reflexivity.
Qed.

(** ** Lists without repetition *)

Lemma map_flat_map {A B C : Type} (g : B -> C) (f : A -> list B) l :
  map g (flat_map f l) = flat_map (fun a => map g (f a)) l.
Proof.
  induction l as [|a l IH]; [reflexivity|].
  cbn [flat_map]. rewrite map_app, IH. reflexivity.
Qed.

Lemma NoDup_flat_map {A B : Type} (f : A -> list B) l :
  NoDup l ->
  (forall a, In a l -> NoDup (f a)) ->
  (forall a a' x, In a l -> In a' l -> In x (f a) -> In x (f a') -> a = a') ->
  NoDup (flat_map f l).
Proof.
  induction 1 as [|a l Hnotin Hnd IH]; intros Hf Hdisj; [constructor|].
  cbn [flat_map]. apply NoDup_app.
  - apply Hf. left. reflexivity.
  - apply IH.
    + intros a' Hin. apply Hf. right. exact Hin.
    + intros a1 a2 x H1 H2. apply Hdisj; right; assumption.
  - intros x Hx Hx'. apply in_flat_map in Hx' as (a' & Hin' & Hx').
    assert (E : a = a')
      by (apply (Hdisj a a' x); [left; reflexivity|right; exact Hin'| |];
          assumption).
    subst a'. contradiction.
Qed.

Lemma NoDup_map_on {X Y : Type} (key : X -> Y) (xs : list X) :
  (forall u v, In u xs -> In v xs -> key u = key v -> u = v) ->
  NoDup xs -> NoDup (map key xs).
Proof.
  intros Hkey Hxs. apply NoDup_map_NoDup_ForallPairs; [exact Hkey|exact Hxs].
Qed.

Lemma NoDup_first_lanes k : NoDup (first_lanes k).
Proof.
  unfold first_lanes. apply NoDup_map_on; [|apply seq_NoDup].
  intros u v _ _ E. lia.
Qed.

Lemma NoDup_lanes_of_mask tpw mask : NoDup (lanes_of_mask tpw mask).
Proof.
  unfold lanes_of_mask. apply NoDup_filter. apply (NoDup_first_lanes tpw).
Qed.

Lemma in_warps_run a w : 1 <= a -> In w (warps_run a) <-> 0 <= w < a.
Proof.
  intros Ha. rewrite <- in_first_lanes, first_lanes_siblings by exact Ha.
  unfold warps_run. rewrite in_app_iff. cbn [In]. tauto.
Qed.

Lemma NoDup_warps_run a : NoDup (warps_run a).
Proof.
  unfold warps_run, siblings. apply NoDup_app.
  - apply NoDup_map_on; [|apply seq_NoDup]. intros x y _ _ E. lia.
  - constructor; [intros []|constructor].
  - intros w Hin [E|[]]. subst w.
    apply in_map_iff in Hin as (j & E & Hj). apply in_seq in Hj. lia.
Qed.

(** ** The x-fastest decomposition *)

Lemma decompose_lin lin d :
  0 <= lin -> 0 < dim_x d -> 0 < dim_y d ->
  dim_x d * dim_y d < 4294967296 ->
  lin_of (decompose lin d) d = lin.
Proof.
  intros Hl Hx Hy Hfit. unfold lin_of, decompose.
  cbn [dim_x dim_y dim_z]. rewrite u32_small by nia.
  rewrite <- Z.div_div by lia.
  pose proof (Z.div_mod lin (dim_x d) ltac:(lia)) as E1.
  pose proof (Z.div_mod (lin / dim_x d) (dim_y d) ltac:(lia)) as E2.
  rewrite (Z.add_comm (lin mod dim_x d)).
  rewrite (Z.add_comm ((lin / dim_x d) mod dim_y d)).
  rewrite <- E2. rewrite <- E1. reflexivity.
Qed.

Lemma decompose_inj lin lin' d :
  0 <= lin -> 0 <= lin' -> 0 < dim_x d -> 0 < dim_y d ->
  dim_x d * dim_y d < 4294967296 ->
  decompose lin d = decompose lin' d -> lin = lin'.
Proof.
  intros H1 H2 Hx Hy Hfit E.
  rewrite <- (decompose_lin lin d), <- (decompose_lin lin' d) by assumption.
  rewrite E. reflexivity.
Qed.

(** Inside the grid the decomposition yields the coordinates of a block. *)
Lemma decompose_in_range lin d :
  0 < dim_x d -> 0 < dim_y d -> 0 < dim_z d ->
  dim_x d * dim_y d * dim_z d < 4294967296 ->
  0 <= lin < dim_x d * dim_y d * dim_z d ->
  0 <= dim_x (decompose lin d) < dim_x d
  /\ 0 <= dim_y (decompose lin d) < dim_y d
  /\ 0 <= dim_z (decompose lin d) < dim_z d.
Proof.
  intros Hx Hy Hz Hfit Hl. unfold decompose. cbn [dim_x dim_y dim_z].
  assert (Hxy : 0 < dim_x d * dim_y d) by nia.
  rewrite u32_small by nia.
  split; [apply Z.mod_pos_bound; lia|].
  split; [apply Z.mod_pos_bound; lia|].
  split; [apply Z.div_pos; lia|].
  apply Z.div_lt_upper_bound; lia.
Qed.

(** Every block of the grid is the decomposition of its linear index. *)
Lemma decompose_onto (b d : dim3_t) :
  0 < dim_x d -> 0 < dim_y d ->
  dim_x d * dim_y d < 4294967296 ->
  0 <= dim_x b < dim_x d -> 0 <= dim_y b < dim_y d -> 0 <= dim_z b ->
  decompose (lin_of b d) d = b.
Proof.
  intros Hx Hy Hfit Bx By Bz. unfold decompose, lin_of.
  destruct b as [bx by_ bz]. cbn [dim_x dim_y dim_z] in *.
  rewrite u32_small by nia.
  replace (bx + dim_x d * (by_ + dim_y d * bz))
    with (bx + (by_ + dim_y d * bz) * dim_x d) by lia.
  rewrite <- Z.div_div by lia.
  rewrite Z.mod_add, Z.div_add by lia.
  rewrite (Z.mod_small bx), (Z.div_small bx), Z.add_0_l by lia.
  replace (by_ + dim_y d * bz) with (by_ + bz * dim_y d) by lia.
  rewrite Z.mod_add, Z.div_add by lia.
  rewrite (Z.mod_small by_), (Z.div_small by_), Z.add_0_l by lia.
  reflexivity.
Qed.

(** ** Striding through a slab *)

(** Warp slot [lg] of [c] slots takes the blocks [lg], [lg + c], ... of the
    [g] blocks of a core: round [k] is one of its
    [g / c + (lg < g mod c ? 1 : 0)] rounds exactly when block [lg + k * c]
    exists. *)
Lemma stride_rounds c g lg k :
  1 <= c -> 0 <= g -> 0 <= lg < c -> 0 <= k ->
  k < g / c + (if lg <? g mod c then 1 else 0) <-> lg + k * c < g.
Proof.
  intros Hc Hg Hlg Hk.
  pose proof (Z.div_mod g c ltac:(lia)) as E.
  pose proof (Z.mod_pos_bound g c ltac:(lia)) as Hm.
  assert (Hq : 0 <= g / c) by (apply Z.div_pos; lia).
  destruct (Z.ltb_spec lg (g mod c)) as [L|L]; split; intros H.
  - assert (k * c <= g / c * c) by (apply Z.mul_le_mono_nonneg_r; lia). lia.
  - destruct (Z_lt_le_dec k (g / c + 1)) as [K|K]; [lia|].
    assert ((g / c + 1) * c <= k * c)
      by (apply Z.mul_le_mono_nonneg_r; lia).
    lia.
  - assert ((k + 1) * c <= g / c * c)
      by (apply Z.mul_le_mono_nonneg_r; lia).
    lia.
  - destruct (Z_lt_le_dec k (g / c + 0)) as [K|K]; [lia|].
    assert (g / c * c <= k * c) by (apply Z.mul_le_mono_nonneg_r; lia).
    lia.
Qed.

Lemma euclid_unique c q r q' r' :
  0 <= r < c -> 0 <= r' < c -> r + q * c = r' + q' * c -> q = q' /\ r = r'.
Proof.
  intros Hr Hr' E.
  assert (Hq : q = q').
  { destruct (Z.lt_trichotomy q q') as [L|[L|L]]; [|exact L|].
    - assert ((q + 1) * c <= q' * c) by (apply Z.mul_le_mono_nonneg_r; lia).
      lia.
    - assert ((q' + 1) * c <= q * c) by (apply Z.mul_le_mono_nonneg_r; lia).
      lia. }
  subst q'. split; [reflexivity|lia].
Qed.

Lemma euclid_div c q r : 0 <= r < c -> (r + q * c) / c = q.
Proof.
  intros H. rewrite Z.div_add by lia. rewrite Z.div_small by lia. lia.
Qed.

Lemma euclid_mod c q r : 0 <= r < c -> (r + q * c) mod c = r.
Proof.
  intros H. rewrite Z.mod_add by lia. apply Z.mod_small. lia.
Qed.

Lemma div_lt_iff w c m : 1 <= c -> 0 <= w -> w / c < m <-> w < m * c.
Proof.
  intros Hc Hw.
  pose proof (Z.div_mod w c ltac:(lia)) as E.
  pose proof (Z.mod_pos_bound w c ltac:(lia)) as Hm.
  split; intros H.
  - assert ((w / c + 1) * c <= m * c)
      by (apply Z.mul_le_mono_nonneg_r; lia).
    lia.
  - apply Z.div_lt_upper_bound; lia.
Qed.

(** ** The group path when nothing wraps around *)

Section GroupsCoverage.

Variable dev : device.
Hypothesis Hdev : device_ok dev.
Variables core_id n gs : Z.
Hypothesis Hn : 0 <= n < 4294967296.
Hypothesis Hgs : 1 < gs <= u32 (num_warps dev * num_threads dev).
Hypothesis Hactive :
  0 <= core_id < gp_active_cores (groups_plan dev core_id n gs).
Hypothesis Hfit :
  n * gp_warps_per_group (groups_plan dev core_id n gs) + num_warps dev - 1
  < 4294967296.

Let p := groups_plan dev core_id n gs.
Let wpc := num_warps dev.
Let tpw := num_threads dev.
Let W := gp_warps_per_group p.
Let C := gp_groups_launchable p.
Let G := gp_total_groups_per_core p.
Let A := gp_active_warps p.
Let a := gp_active_cores p.
Let off := gp_group_offset p.
Let targs := groups_args p.

Lemma cov_device :
  1 <= wpc < 4294967296 /\ 1 <= tpw <= 32 /\ 1 <= W <= wpc /\ 1 <= C
  /\ C * W <= wpc /\ C <= wpc.
Proof.
  pose proof (groups_device dev Hdev core_id n gs Hgs)
    as (Hwpc & HW & HC & HCW & _).
  fold p wpc W C in Hwpc, HW, HC, HCW.
  destruct Hdev as [_ _ Ht _]. fold tpw in Ht.
  assert (C <= C * W)
    by (rewrite <- (Z.mul_1_r C) at 1; apply Z.mul_le_mono_nonneg_l; lia).
  repeat split; lia.
Qed.

Lemma cov_cores : 1 <= a <= n.
Proof.
  pose proof cov_device as (Hwpc & _ & HW & _).
  split; [unfold a, p; lia|].
  assert (HnW : 0 <= n * W) by (apply Z.mul_nonneg_nonneg; lia).
  assert (HnW' : n * W <= n * wpc) by (apply Z.mul_le_mono_nonneg_l; lia).
  assert (E : a = Z.min ((n * W + wpc - 1) / wpc) (num_cores dev)).
  { unfold a, p, groups_plan. cbn [gp_active_cores]. rewrite MIN_spec.
    change (if gs mod num_threads dev =? 0
            then gs / num_threads dev
            else u32 (gs / num_threads dev + 1)) with W.
    fold wpc. rewrite (u32_small (n * W)) by (unfold W, p, wpc in *; lia).
    rewrite u32_small by (unfold W, p, wpc in *; lia). reflexivity. }
  assert ((n * W + wpc - 1) / wpc < n + 1)
    by (apply Z.div_lt_upper_bound; lia).
  lia.
Qed.

Lemma cov_slab :
  G = n / a + (if core_id <? n mod a then 1 else 0)
  /\ off = slab_start n a core_id
  /\ 1 <= G /\ 0 <= off /\ off + G <= n.
Proof.
  pose proof cov_cores as (Ha1 & Han).
  assert (E1 : G = n / a + (if core_id <? n mod a then 1 else 0))
    by (apply per_core_exact; [assumption|assumption|unfold p in *; lia]).
  assert (E2 : off = slab_start n a core_id)
    by (apply offset_exact; [assumption|assumption|exact Hactive]).
  pose proof (slab_start_bound n a Hn Ha1 core_id
                ltac:(unfold a, p in *; lia)) as B1.
  pose proof (slab_start_bound n a Hn Ha1 (core_id + 1)
                ltac:(unfold a, p in *; lia)) as B2.
  rewrite slab_start_succ in B2 by (unfold p in *; lia).
  assert (1 <= n / a) by (apply Z.div_le_lower_bound; lia).
  split; [exact E1|]. split; [exact E2|].
  rewrite E1, E2. destruct (core_id <? n mod a); lia.
Qed.

Lemma cov_total : gp_total_warps p = G * W /\ G * W <= n * W.
Proof.
  pose proof cov_device as (Hwpc & _ & HW & _).
  pose proof cov_slab as (_ & _ & HG & Hoff & HoffG).
  assert (H1 : G * W <= n * W) by (apply Z.mul_le_mono_nonneg_r; lia).
  assert (H2 : 0 <= G * W) by (apply Z.mul_nonneg_nonneg; lia).
  split; [|exact H1].
  change (gp_total_warps p) with (u32 (G * W)). apply u32_small.
  unfold W, p, wpc in *. lia.
Qed.

Lemma cov_schedule :
  1 <= A <= C * W
  /\ (forall w, 0 <= w < A ->
        w / W < C
        /\ groups_iterations targs w
           = G / C + (if w / W <? G mod C then 1 else 0))
  /\ (forall j gw, 0 <= j < G -> 0 <= gw < W ->
        0 <= (j mod C) * W + gw < A).
Proof.
  pose proof cov_device as (Hwpc & _ & HW & HC & HCW & _).
  pose proof cov_slab as (_ & _ & HG & _).
  pose proof cov_total as (ET & _).
  assert (Hiter : forall w, 0 <= w ->
            groups_iterations targs w
            = gp_warp_batches p
              + (if w <? gp_remaining_warps p then 1 else 0))
    by (intros w Hw; apply (iterations_exact dev Hdev core_id n gs Hgs w Hw)).
  assert (Hslot : forall j gw, 0 <= j -> 0 <= gw < W ->
            0 <= (j mod C) * W + gw < C * W).
  { intros j gw Hj Hgw.
    pose proof (Z.mod_pos_bound j C ltac:(lia)) as Hm.
    assert (0 <= j mod C * W) by (apply Z.mul_nonneg_nonneg; lia).
    assert ((j mod C + 1) * W <= C * W)
      by (apply Z.mul_le_mono_nonneg_r; lia).
    lia. }
  destruct (schedule_cases dev Hdev core_id n gs Hgs)
    as [(L & EA & Eb & Er)|(L & EA & Eb & Er)];
    fold p in L, EA, Eb, Er; fold A in EA; fold C W in EA, Eb, Er;
    fold wpc in L; rewrite ET in *.
  - (* several batches *)
    assert (Eb' : gp_warp_batches p = G / C)
      by (rewrite Eb; apply Z.div_mul_cancel_r; lia).
    assert (Er' : gp_remaining_warps p = G mod C * W)
      by (rewrite Er; apply Z.mul_mod_distr_r; lia).
    split; [rewrite EA; lia|]. split.
    + intros w Hw. rewrite EA in Hw.
      assert (Hlg : w / W < C) by (apply div_lt_iff; lia).
      split; [exact Hlg|].
      rewrite Hiter, Eb', Er' by lia. f_equal.
      destruct (Z.ltb_spec w (G mod C * W)) as [K|K],
               (Z.ltb_spec (w / W) (G mod C)) as [K'|K']; try reflexivity.
      * apply div_lt_iff in K; lia.
      * apply div_lt_iff in K'; lia.
    + intros j gw Hj Hgw. rewrite EA. apply Hslot; lia.
  - (* one batch: every block of the core has its warps *)
    assert (HGC : G <= C).
    { change C with (wpc / W). apply Z.div_le_lower_bound; lia. }
    assert (HA : A = G * W) by exact EA.
    assert (HGW : G * W <= C * W) by (apply Z.mul_le_mono_nonneg_r; lia).
    assert (1 * W <= G * W) by (apply Z.mul_le_mono_nonneg_r; lia).
    split; [lia|]. split.
    + intros w Hw. rewrite HA in Hw.
      assert (Hlg : w / W < G) by (apply div_lt_iff; lia).
      split; [lia|].
      rewrite Hiter, Eb, Er by lia.
      destruct (Z.ltb_spec w 0); [lia|].
      destruct (Z.eq_dec G C) as [E|E].
      * rewrite E, Z.div_same, Z.mod_same by lia.
        assert (0 <= w / W) by (apply Z.div_pos; lia).
        destruct (Z.ltb_spec (w / W) 0); lia.
      * rewrite Z.div_small, Z.mod_small by lia.
        destruct (Z.ltb_spec (w / W) G); lia.
    + intros j gw Hj Hgw. rewrite HA.
      rewrite Z.mod_small by lia.
      assert (0 <= j * W) by (apply Z.mul_nonneg_nonneg; lia).
      assert ((j + 1) * W <= G * W) by (apply Z.mul_le_mono_nonneg_r; lia).
      lia.
Qed.

(** The loop bound of a warp does not wrap: the warp runs all its rounds,
    from the block [off + warp_id / warps_per_group] on. *)
Lemma cov_rounds w :
  0 <= w < A ->
  groups_warp_rounds targs w = G / C + (if w / W <? G mod C then 1 else 0)
  /\ forall k, round_group_id targs w k = off + w / W + k * C.
Proof.
  intros Hw.
  pose proof cov_device as (Hwpc & _ & HW & HC & HCW & HCwpc).
  pose proof cov_slab as (_ & _ & HG & Hoff & HoffG).
  destruct cov_schedule as (_ & Hsched & _).
  destruct (Hsched w Hw) as (Hlg & Eit).
  assert (Hlg0 : 0 <= w / W) by (apply Z.div_pos; lia).
  assert (HnW : n <= n * W)
    by (rewrite <- (Z.mul_1_r n) at 1; apply Z.mul_le_mono_nonneg_l; lia).
  assert (Estart : u32 (g_group_offset targs + w / g_warps_per_group targs)
                   = off + w / W).
  { change (g_group_offset targs) with off.
    change (g_warps_per_group targs) with W.
    apply u32_small. unfold W, p, wpc in *. lia. }
  split.
  - unfold groups_warp_rounds. rewrite Estart, Eit.
    change (g_groups_per_core targs) with C.
    pose proof (Z.div_mod G C ltac:(lia)) as E.
    pose proof (Z.mod_pos_bound G C ltac:(lia)) as Hm.
    assert (Hq : 0 <= G / C) by (apply Z.div_pos; lia).
    assert (Hb : off + w / W
                 + (G / C + (if w / W <? G mod C then 1 else 0)) * C
                 < 4294967296).
    { rewrite Z.mul_add_distr_r.
      destruct (Z.ltb_spec (w / W) (G mod C));
        unfold W, p, wpc in *; lia. }
    destruct (Z.ltb_spec
                (off + w / W
                 + (G / C + (if w / W <? G mod C then 1 else 0)) * C)
                4294967296); [reflexivity|lia].
  - intros k. unfold round_group_id. rewrite Estart. reflexivity.
Qed.

Let r := gs mod tpw.

Lemma cov_block_size :
  0 <= r < tpw /\ gs = (W - 1) * tpw + (if r =? 0 then tpw else r).
Proof.
  pose proof cov_device as (_ & Ht & _).
  pose proof (u32_range (num_warps dev * num_threads dev)) as Hu.
  pose proof (Z.div_mod gs tpw ltac:(lia)) as E.
  pose proof (Z.mod_pos_bound gs tpw ltac:(lia)) as Hr. fold r in E, Hr.
  assert (Hq : 0 <= gs / tpw) by (apply Z.div_pos; lia).
  split; [exact Hr|].
  assert (EW : W = if r =? 0 then gs / tpw else u32 (gs / tpw + 1))
    by reflexivity.
  assert (gs / tpw <= gs)
    by (apply Z.div_le_upper_bound; [lia|];
        rewrite <- (Z.mul_1_l gs) at 1;
        apply Z.mul_le_mono_nonneg_r; lia).
  rewrite EW. destruct (Z.eqb_spec r 0) as [E0|E0].
  - lia.
  - rewrite u32_small by lia. lia.
Qed.

Lemma cov_lanes w :
  lanes_of_mask tpw (threads_mask targs w)
  = first_lanes (if negb (r =? 0) && (w mod W =? W - 1) then r else tpw).
Proof.
  apply (threads_mask_lanes dev core_id n gs w Hdev Hgs).
Qed.

Lemma cov_lane w t :
  0 <= w < A -> 0 <= t < tpw ->
  lane_task_id dev targs w t = (w mod W) * tpw + t.
Proof.
  intros Hw Ht.
  pose proof cov_device as (Hwpc & Htpw & HW & HC & HCW & _).
  destruct cov_schedule as (HA & _).
  destruct Hdev as [_ _ _ Hcap]. fold wpc tpw in Hcap.
  pose proof (Z.div_mod w W ltac:(lia)) as E.
  pose proof (Z.mod_pos_bound w W ltac:(lia)) as Hm.
  assert (Hq : 0 <= w / W) by (apply Z.div_pos; lia).
  assert (Hq' : 0 <= w / W * W) by (apply Z.mul_nonneg_nonneg; lia).
  assert (Hm' : 0 <= w mod W * tpw) by (apply Z.mul_nonneg_nonneg; lia).
  assert (Hm'' : (w mod W + 1) * tpw <= wpc * tpw)
    by (apply Z.mul_le_mono_nonneg_r; lia).
  unfold lane_task_id. change (g_warps_per_group targs) with W. fold tpw.
  rewrite (u32_small (w / W * W)) by lia.
  replace (w - w / W * W) with (w mod W) by lia.
  rewrite (u32_small (w mod W)) by lia.
  rewrite (u32_small (w mod W * tpw)) by lia.
  apply u32_small. lia.
Qed.

(** What an index (warp, lane, round) of the trace of the core stands for. *)
Lemma cov_index w t k :
  In w (warps_run A) ->
  In t (lanes_of_mask tpw (threads_mask targs w)) ->
  In k (rounds_of targs w) ->
  (0 <= w < A /\ 0 <= w / W < C /\ 0 <= w mod W < W)
  /\ 0 <= t < tpw /\ 0 <= k
  /\ round_group_id targs w k = off + (w / W + k * C)
  /\ lane_task_id dev targs w t = (w mod W) * tpw + t
  /\ w / W + k * C < G
  /\ (w mod W) * tpw + t < gs.
Proof.
  intros Hw Ht Hk.
  pose proof cov_device as (Hwpc & Htpw & HW & HC & HCW & _).
  pose proof cov_slab as (_ & _ & HG & _).
  destruct cov_schedule as (HA & Hsched & _).
  pose proof cov_block_size as (Hr & Egs).
  apply in_warps_run in Hw; [|lia].
  destruct (Hsched w Hw) as (Hlg & _).
  destruct (cov_rounds w Hw) as (Erounds & Eid).
  rewrite cov_lanes in Ht. apply in_first_lanes in Ht.
  unfold rounds_of in Hk. apply in_first_lanes in Hk. rewrite Erounds in Hk.
  pose proof (Z.mod_pos_bound w W ltac:(lia)) as Hm.
  assert (Hq : 0 <= w / W) by (apply Z.div_pos; lia).
  assert (Ht' : 0 <= t < tpw)
    by (destruct (negb (r =? 0) && (w mod W =? W - 1)); lia).
  split; [repeat split; lia|]. split; [exact Ht'|]. split; [lia|].
  split; [rewrite Eid; lia|]. split; [apply cov_lane; assumption|].
  split.
  - apply (stride_rounds C G (w / W) k); lia.
  - rewrite Egs.
    assert (Hm' : 0 <= w mod W * tpw) by (apply Z.mul_nonneg_nonneg; lia).
    destruct (Z.eqb_spec (w mod W) (W - 1)) as [EL|EL].
    + rewrite EL in *. destruct (Z.eqb_spec r 0); cbn [negb andb] in Ht; lia.
    + assert ((w mod W + 1) * tpw <= (W - 1) * tpw)
        by (apply Z.mul_le_mono_nonneg_r; lia).
      destruct (r =? 0); lia.
Qed.

(** The index of the invocation for thread [l] of block [off + j]. *)
Lemma cov_index_of j l :
  0 <= j < G -> 0 <= l < gs ->
  let w := (j mod C) * W + l / tpw in
  In w (warps_run A)
  /\ In (l mod tpw) (lanes_of_mask tpw (threads_mask targs w))
  /\ In (j / C) (rounds_of targs w)
  /\ round_group_id targs w (j / C) = off + j
  /\ lane_task_id dev targs w (l mod tpw) = l.
Proof.
  intros Hj Hl w.
  pose proof cov_device as (Hwpc & Htpw & HW & HC & HCW & _).
  destruct cov_schedule as (HA & Hsched & Hslot).
  pose proof cov_block_size as (Hr & Egs).
  pose proof (Z.div_mod l tpw ltac:(lia)) as El.
  pose proof (Z.mod_pos_bound l tpw ltac:(lia)) as Hlm.
  assert (Hlq : 0 <= l / tpw) by (apply Z.div_pos; lia).
  assert (HlW : l / tpw < W).
  { apply Z.div_lt_upper_bound; [lia|].
    assert ((W - 1) * tpw + tpw = tpw * W) by lia.
    destruct (r =? 0); lia. }
  pose proof (Z.div_mod j C ltac:(lia)) as Ej.
  pose proof (Z.mod_pos_bound j C ltac:(lia)) as Hjm.
  assert (Hjq : 0 <= j / C) by (apply Z.div_pos; lia).
  pose proof (Hslot j (l / tpw) Hj ltac:(lia)) as Hw. fold w in Hw.
  assert (Ewq : w / W = j mod C).
  { unfold w. rewrite Z.add_comm. apply euclid_div. lia. }
  assert (Ewm : w mod W = l / tpw).
  { unfold w. rewrite Z.add_comm. apply euclid_mod. lia. }
  destruct (cov_rounds w Hw) as (Erounds & Eid).
  split; [apply in_warps_run; lia|]. split; [|split; [|split]].
  - rewrite cov_lanes, Ewm. apply in_first_lanes.
    destruct (Z.eqb_spec (l / tpw) (W - 1)) as [EL|EL];
      destruct (Z.eqb_spec r 0) as [E0|E0]; cbn [negb andb]; lia.
  - unfold rounds_of. apply in_first_lanes. rewrite Erounds, Ewq.
    split; [lia|]. apply (stride_rounds C G (j mod C) (j / C)); lia.
  - rewrite Eid, Ewq. lia.
  - rewrite cov_lane by lia. rewrite Ewm. lia.
Qed.

Variables gd bd : dim3_t.
Hypothesis Hgd :
  0 < dim_x gd /\ 0 < dim_y gd /\ dim_x gd * dim_y gd < 4294967296.
Hypothesis Hbd :
  0 < dim_x bd /\ 0 < dim_y bd /\ dim_x bd * dim_y bd < 4294967296.

Let events := core_events dev p gd bd.

Lemma in_warp_identities w x :
  In x (map identity (warp_events dev targs gd bd w)) ->
  exists t k,
    In t (lanes_of_mask tpw (threads_mask targs w))
    /\ In k (rounds_of targs w)
    /\ x = (decompose (round_group_id targs w k) gd,
            decompose (lane_task_id dev targs w t) bd).
Proof.
  intros Hin. apply in_map_iff in Hin as (e & <- & He).
  unfold warp_events in He. apply in_flat_map in He as (t & Ht & He).
  unfold lane_events in He. apply in_map_iff in He as (k & <- & Hk).
  exists t, k. repeat split; assumption.
Qed.

Lemma cov_sound x :
  In x (map identity events) ->
  exists j l,
    0 <= j < G /\ 0 <= l < gs
    /\ x = (decompose (off + j) gd, decompose l bd).
Proof.
  intros Hin. unfold events, core_events in Hin.
  rewrite map_flat_map in Hin. apply in_flat_map in Hin as (w & Hw & Hin).
  apply in_warp_identities in Hin as (t & k & Ht & Hk & ->).
  destruct (cov_index w t k Hw Ht Hk)
    as ((Hw' & Hlg & Hgw) & Ht' & Hk' & Eg & El & Hj & Hl).
  exists (w / W + k * C), (w mod W * tpw + t).
  assert (0 <= k * C)
    by (apply Z.mul_nonneg_nonneg; [lia|pose proof cov_device; lia]).
  assert (0 <= w mod W * tpw)
    by (apply Z.mul_nonneg_nonneg; [lia|pose proof cov_device; lia]).
  rewrite Eg, El. repeat split; lia.
Qed.

Lemma cov_complete j l :
  0 <= j < G -> 0 <= l < gs ->
  In (decompose (off + j) gd, decompose l bd) (map identity events).
Proof.
  intros Hj Hl.
  destruct (cov_index_of j l Hj Hl) as (Hw & Ht & Hk & Eg & El).
  set (w := j mod C * W + l / tpw) in *.
  unfold events, core_events. rewrite map_flat_map.
  apply in_flat_map. exists w. split; [exact Hw|].
  unfold warp_events. rewrite map_flat_map.
  apply in_flat_map. exists (l mod tpw). split; [exact Ht|].
  unfold lane_events. rewrite map_map. apply in_map_iff.
  exists (j / C). split; [|exact Hk].
  unfold identity. cbn [snd blockIdx threadIdx]. fold targs.
  rewrite Eg, El. reflexivity.
Qed.

Lemma cov_nodup : NoDup (map identity events).
Proof.
  pose proof cov_device as (Hwpc & Htpw & HW & HC & HCW & _).
  pose proof cov_slab as (_ & _ & HG & Hoff & _).
  destruct Hgd as (Gx & Gy & Gxy). destruct Hbd as (Bx & By & Bxy).
  assert (Hkey : forall w t k w' t' k',
            In w (warps_run A) ->
            In t (lanes_of_mask tpw (threads_mask targs w)) ->
            In k (rounds_of targs w) ->
            In w' (warps_run A) ->
            In t' (lanes_of_mask tpw (threads_mask targs w')) ->
            In k' (rounds_of targs w') ->
            (decompose (round_group_id targs w k) gd,
             decompose (lane_task_id dev targs w t) bd)
            = (decompose (round_group_id targs w' k') gd,
               decompose (lane_task_id dev targs w' t') bd) ->
            w = w' /\ t = t' /\ k = k').
  { intros w t k w' t' k' Hw Ht Hk Hw' Ht' Hk' E.
    destruct (cov_index w t k Hw Ht Hk)
      as ((Hw1 & Hlg & Hgw) & Ht1 & Hk1 & Eg & El & _).
    destruct (cov_index w' t' k' Hw' Ht' Hk')
      as ((Hw2 & Hlg' & Hgw') & Ht2 & Hk2 & Eg' & El' & _).
    pose proof (f_equal fst E) as E1. pose proof (f_equal snd E) as E2.
    cbn [fst snd] in E1, E2.
    rewrite Eg, Eg' in E1. rewrite El, El' in E2.
    assert (0 <= k * C) by (apply Z.mul_nonneg_nonneg; lia).
    assert (0 <= k' * C) by (apply Z.mul_nonneg_nonneg; lia).
    assert (0 <= w mod W * tpw) by (apply Z.mul_nonneg_nonneg; lia).
    assert (0 <= w' mod W * tpw) by (apply Z.mul_nonneg_nonneg; lia).
    apply decompose_inj in E1; try assumption; try lia.
    apply decompose_inj in E2; try assumption; try lia.
    destruct (euclid_unique C k (w / W) k' (w' / W) ltac:(lia) ltac:(lia)
                ltac:(lia)) as (Ek & Eq).
    destruct (euclid_unique tpw (w mod W) t (w' mod W) t' ltac:(lia)
                ltac:(lia) ltac:(lia)) as (Em & Et).
    pose proof (Z.div_mod w W ltac:(lia)).
    pose proof (Z.div_mod w' W ltac:(lia)).
    repeat split; try assumption. rewrite Eq, Em in *. lia. }
  unfold events, core_events. rewrite map_flat_map.
  apply NoDup_flat_map.
  - apply NoDup_warps_run.
  - intros w Hw. unfold warp_events. rewrite map_flat_map.
    apply NoDup_flat_map.
    + apply NoDup_lanes_of_mask.
    + intros t Ht. unfold lane_events. rewrite map_map.
      apply NoDup_map_on; [|apply NoDup_first_lanes].
      intros k k' Hk Hk' E. unfold identity in E.
      cbn [snd blockIdx threadIdx] in E.
      apply (Hkey w t k w t k'); assumption.
    + intros t t' x Ht Ht' Hx Hx'.
      unfold lane_events in Hx, Hx'. rewrite map_map in Hx, Hx'.
      apply in_map_iff in Hx as (k & <- & Hk).
      apply in_map_iff in Hx' as (k' & E & Hk').
      unfold identity in E. cbn [snd blockIdx threadIdx] in E.
      symmetry in E. apply (Hkey w t k w t' k'); assumption.
  - intros w w' x Hw Hw' Hx Hx'.
    apply in_warp_identities in Hx as (t & k & Ht & Hk & ->).
    apply in_warp_identities in Hx' as (t' & k' & Ht' & Hk' & E).
    apply (Hkey w t k w' t' k'); assumption.
Qed.

End GroupsCoverage.

(** ** Coverage of the group path *)

(** A grid (a block) whose axis product fits 32 bits and is not zero. *)
Lemma product_exact x y z :
  0 <= x < 4294967296 -> 0 <= y < 4294967296 -> 0 <= z < 4294967296 ->
  x * y * z < 4294967296 ->
  0 < u32 (u32 (u32 (1 * x) * y) * z) ->
  u32 (u32 (u32 (1 * x) * y) * z) = x * y * z
  /\ 0 < x /\ 0 < y /\ 0 < z /\ x * y < 4294967296.
Proof.
  intros Hx Hy Hz Hfit Hpos.
  assert (Hxy0 : 0 <= x * y) by (apply Z.mul_nonneg_nonneg; lia).
  destruct (Z.eq_dec z 0) as [Ez|Ez].
  { subst z. rewrite Z.mul_0_r in Hpos. cbv in Hpos. discriminate. }
  assert (Hxy : x * y < 4294967296).
  { assert (x * y * 1 <= x * y * z)
      by (apply Z.mul_le_mono_nonneg_l; lia).
    lia. }
  rewrite Z.mul_1_l in *. rewrite (u32_small x) in * by lia.
  rewrite (u32_small (x * y)) in * by lia.
  rewrite u32_small in * by (split; [apply Z.mul_nonneg_nonneg|]; lia).
  split; [reflexivity|].
  assert (x <> 0) by (intros ->; lia).
  assert (y <> 0) by (intros ->; lia).
  repeat split; lia.
Qed.

Lemma geometry_exact dimension grid_dim block_dim st :
  let geo := normalize dimension grid_dim block_dim st in
  let gd := geo_gridDim geo in
  let bd := geo_blockDim geo in
  dim_x gd * dim_y gd * dim_z gd < 4294967296 ->
  dim_x bd * dim_y bd * dim_z bd < 4294967296 ->
  0 < num_groups geo -> 0 < group_size geo ->
  (num_groups geo = dim_x gd * dim_y gd * dim_z gd
   /\ 0 < dim_x gd /\ 0 < dim_y gd /\ 0 < dim_z gd
   /\ dim_x gd * dim_y gd < 4294967296)
  /\ (group_size geo = dim_x bd * dim_y bd * dim_z bd
      /\ 0 < dim_x bd /\ 0 < dim_y bd /\ 0 < dim_z bd
      /\ dim_x bd * dim_y bd < 4294967296).
Proof.
  rewrite normalize_unfold. cbv zeta.
  cbn [geo_gridDim geo_blockDim num_groups group_size dim_x dim_y dim_z].
  intros Hg Hb Hn Hs.
  split; apply product_exact; try apply axis_range; assumption.
Qed.

Lemma slabs_disjoint dev geo c1 c2 b :
  0 <= num_groups geo < 4294967296 ->
  0 <= c1 < active_cores dev geo -> 0 <= c2 < active_cores dev geo ->
  slab_offset dev geo c1 <= b < slab_offset dev geo c1 + slab_size dev geo c1 ->
  slab_offset dev geo c2 <= b < slab_offset dev geo c2 + slab_size dev geo c2 ->
  c1 = c2.
Proof.
  intros Hn H1 H2 B1 B2.
  assert (Ha : 1 <= active_cores dev geo) by lia.
  rewrite slab_next, slab_offset_closed in B1, B2 by assumption.
  destruct (Z.lt_trichotomy c1 c2) as [L|[E|L]]; [|exact E|].
  - pose proof (slab_start_mono (num_groups geo) (active_cores dev geo)
                  Hn Ha (c1 + 1) c2 ltac:(lia)). lia.
  - pose proof (slab_start_mono (num_groups geo) (active_cores dev geo)
                  Hn Ha (c2 + 1) c1 ltac:(lia)). lia.
Qed.

Lemma slabs_cover dev geo b :
  0 <= num_groups geo < 4294967296 ->
  1 <= active_cores dev geo ->
  0 <= b < num_groups geo ->
  exists c, 0 <= c < active_cores dev geo
            /\ slab_offset dev geo c <= b
               < slab_offset dev geo c + slab_size dev geo c.
Proof.
  intros Hn Ha Hb.
  destruct (slab_cover (num_groups geo) (active_cores dev geo) Hn Ha b Hb)
    as (c & Hc & Hin).
  exists c. split; [exact Hc|].
  rewrite slab_next, slab_offset_closed by assumption. exact Hin.
Qed.

Lemma slab_in_grid dev geo c :
  0 <= num_groups geo < 4294967296 ->
  0 <= c < active_cores dev geo ->
  0 <= slab_offset dev geo c
  /\ slab_offset dev geo c + slab_size dev geo c <= num_groups geo.
Proof.
  intros Hn Hc. assert (Ha : 1 <= active_cores dev geo) by lia.
  rewrite slab_next, slab_offset_closed by assumption.
  pose proof (slab_start_bound _ _ Hn Ha c ltac:(lia)).
  pose proof (slab_start_bound _ _ Hn Ha (c + 1) ltac:(lia)).
  lia.
Qed.

(** The callback invocations of the group path on one active core: each
    thread of each block of the slab of the core is identified exactly
    once, and nothing else is. *)
Lemma group_path_core_coverage fuel dev core_id dimension grid_dim block_dim st :
  device_ok dev ->
  let geo := normalize dimension grid_dim block_dim st in
  let gd := geo_gridDim geo in
  let bd := geo_blockDim geo in
  let p := groups_plan dev core_id (num_groups geo) (group_size geo) in
  validated dev geo ->
  1 < group_size geo ->
  dim_x gd * dim_y gd * dim_z gd < 4294967296 ->
  dim_x bd * dim_y bd * dim_z bd < 4294967296 ->
  num_groups geo * gp_warps_per_group p + num_warps dev - 1 < 4294967296 ->
  0 <= core_id < active_cores dev geo ->
  4294967296 < Z.of_nat fuel ->
  (exists st',
     vx_spawn_threads fuel dev core_id dimension grid_dim block_dim st
     = Some (0, st')
     /\ calls (trace st') = calls (trace st) ++ core_events dev p gd bd)
  /\ NoDup (map identity (core_events dev p gd bd))
  /\ forall x,
       In x (map identity (core_events dev p gd bd)) <->
       exists b l,
         slab_offset dev geo core_id <= b
         < slab_offset dev geo core_id + slab_size dev geo core_id
         /\ 0 <= l < group_size geo
         /\ x = (decompose b gd, decompose l bd).
Proof.
  intros Hdev geo gd bd p Hv Hgs Hg Hb Hfit Ha Hfuel.
  pose proof (num_groups_range dimension grid_dim block_dim st) as Hn.
  fold geo in Hn. unfold validated in Hv.
  assert (Hact : 0 <= core_id < gp_active_cores p).
  { unfold active_cores in Ha.
    destruct (Z.ltb_spec 1 (group_size geo)); [exact Ha|lia]. }
  assert (Hgs' : 1 < group_size geo
                 <= u32 (num_warps dev * num_threads dev)) by lia.
  pose proof (cov_cores dev Hdev core_id (num_groups geo) (group_size geo)
                Hn Hgs' Hact Hfit) as (_ & Hn1).
  fold p in Hn1.
  assert (Hnpos : 0 < num_groups geo) by lia.
  assert (Hspos : 0 < group_size geo) by lia.
  destruct (geometry_exact dimension grid_dim block_dim st Hg Hb Hnpos Hspos)
    as ((_ & Gx & Gy & _ & Gxy) & (_ & Bx & By & _ & Bxy)).
  fold geo gd bd in Gx, Gy, Gxy, Bx, By, Bxy.
  assert (Eoff : slab_offset dev geo core_id = gp_group_offset p)
    by (unfold slab_offset; destruct (Z.ltb_spec 1 (group_size geo));
        [reflexivity|lia]).
  assert (Esize : slab_size dev geo core_id = gp_total_groups_per_core p)
    by (unfold slab_size; destruct (Z.ltb_spec 1 (group_size geo));
        [reflexivity|lia]).
  split; [|split].
  - destruct (launch_groups_calls fuel dev core_id dimension grid_dim
                block_dim st Hdev Hv Hgs Ha Hfuel) as (st' & E & C).
    exists st'. split; [exact E|exact C].
  - apply cov_nodup; try assumption; repeat split; assumption.
  - intros x. rewrite Eoff, Esize. split.
    + intros Hin.
      destruct (cov_sound dev Hdev core_id (num_groups geo) (group_size geo)
                  Hn Hgs' Hact Hfit gd bd x Hin) as (j & l & Hj & Hl & ->).
      fold p in Hj. exists (gp_group_offset p + j), l. fold p.
      repeat split; lia.
    + intros (b & l & Hb' & Hl & ->).
      replace b with (gp_group_offset p + (b - gp_group_offset p)) by lia.
      apply (cov_complete dev Hdev core_id (num_groups geo) (group_size geo)
               Hn Hgs' Hact Hfit gd bd); fold p; lia.
Qed.

Lemma inside_iff_decompose b d :
  0 < dim_x d -> 0 < dim_y d -> 0 < dim_z d ->
  dim_x d * dim_y d * dim_z d < 4294967296 ->
  inside b d <->
  exists lin, 0 <= lin < dim_x d * dim_y d * dim_z d /\ b = decompose lin d.
Proof.
  intros Hx Hy Hz Hfit.
  assert (Hxy : dim_x d * dim_y d < 4294967296).
  { assert (dim_x d * dim_y d * 1 <= dim_x d * dim_y d * dim_z d)
      by (apply Z.mul_le_mono_nonneg_l; nia).
    lia. }
  split.
  - intros (Bx & By & Bz). exists (lin_of b d). split.
    + unfold lin_of.
      assert (0 <= dim_y b + dim_y d * dim_z b) by nia.
      assert (dim_y b + dim_y d * dim_z b + 1 <= dim_y d * dim_z d).
      { assert (dim_y d * (dim_z b + 1) <= dim_y d * dim_z d)
          by (apply Z.mul_le_mono_nonneg_l; lia).
        lia. }
      assert (dim_x d * (dim_y b + dim_y d * dim_z b + 1)
              <= dim_x d * (dim_y d * dim_z d))
        by (apply Z.mul_le_mono_nonneg_l; lia).
      assert (0 <= dim_x d * (dim_y b + dim_y d * dim_z b))
        by (apply Z.mul_nonneg_nonneg; lia).
      lia.
    + symmetry. apply decompose_onto; lia.
  - intros (lin & Hl & ->). apply decompose_in_range; assumption.
Qed.

(** X1 - coverage of the group path.  A validated launch with more than one
    thread per block whose grid and block products fit 32 bits and whose
    count of needed cores does not wrap around runs to completion on every
    core, and the cores together invoke the callback exactly once for each
    thread of each block of the grid, and for nothing else: the identities
    ([blockIdx], [threadIdx]) observed are without repetition and are
    precisely the pairs of a block of [gridDim] and a thread of
    [blockDim]. *)
Theorem group_path_coverage fuel dev dimension grid_dim block_dim st0 :
  device_ok dev ->
  let geo := normalize dimension grid_dim block_dim st0 in
  let gd := geo_gridDim geo in
  let bd := geo_blockDim geo in
  validated dev geo ->
  1 < group_size geo ->
  0 < num_groups geo ->
  dim_x gd * dim_y gd * dim_z gd < 4294967296 ->
  dim_x bd * dim_y bd * dim_z bd < 4294967296 ->
  num_groups geo
  * gp_warps_per_group
      (groups_plan dev 0 (num_groups geo) (group_size geo))
  + num_warps dev - 1 < 4294967296 ->
  4294967296 < Z.of_nat fuel ->
  (forall core_id st, 0 <= core_id ->
     exists st',
       vx_spawn_threads fuel dev core_id dimension grid_dim block_dim st
       = Some (0, st')
       /\ calls (trace st')
          = calls (trace st) ++ launch_events dev geo core_id)
  /\ NoDup (launch_identities dev geo)
  /\ forall b t,
       In (b, t) (launch_identities dev geo) <-> inside b gd /\ inside t bd.
Proof.
  intros Hdev geo gd bd Hv Hgs Hnpos Hg Hb Hfit Hfuel.
  pose proof (num_groups_range dimension grid_dim block_dim st0) as Hn.
  fold geo in Hn.
  assert (Hspos : 0 < group_size geo) by lia.
  destruct (geometry_exact dimension grid_dim block_dim st0 Hg Hb Hnpos Hspos)
    as ((EN & Gx & Gy & Gz & Gxy) & (ES & Bx & By & Bz & Bxy)).
  fold geo gd bd in EN, Gx, Gy, Gz, Gxy, ES, Bx, By, Bz, Bxy.
  assert (Ha : 1 <= active_cores dev geo).
  { apply active_cores_pos; try assumption; try lia.
    destruct (Z.ltb_spec 1 (group_size geo)); [exact Hfit|lia]. }
  pose proof (active_cores_range dev geo Hdev) as Har.
  assert (Hcore : forall c, 0 <= c < active_cores dev geo ->
            NoDup (map identity (launch_events dev geo c))
            /\ forall x,
                 In x (map identity (launch_events dev geo c)) <->
                 exists b l,
                   slab_offset dev geo c <= b
                   < slab_offset dev geo c + slab_size dev geo c
                   /\ 0 <= l < group_size geo
                   /\ x = (decompose b gd, decompose l bd)).
  { intros c Hc. unfold launch_events.
    destruct (Z.ltb_spec c (active_cores dev geo)); [|lia].
    destruct (group_path_core_coverage fuel dev c dimension grid_dim
                block_dim st0 Hdev Hv Hgs Hg Hb Hfit Hc Hfuel)
      as (_ & Hnd & Hin).
    split; [exact Hnd|exact Hin]. }
  split; [|split].
  - intros c st Hc. unfold launch_events.
    destruct (Z.ltb_spec c (active_cores dev geo)) as [L|L].
    + pose proof (group_path_core_coverage fuel dev c dimension grid_dim
                    block_dim st Hdev) as H.
      cbv zeta in H.
      rewrite (normalize_state dimension grid_dim block_dim st st0) in H.
      fold geo gd bd in H.
      destruct (H Hv Hgs Hg Hb Hfit ltac:(lia) Hfuel) as (Hrun & _).
      exact Hrun.
    + pose proof (launch_inactive fuel dev c dimension grid_dim block_dim st)
        as H.
      cbv zeta in H.
      rewrite (normalize_state dimension grid_dim block_dim st st0) in H.
      fold geo in H. destruct (H Hv L) as (st' & E & T & _).
      exists st'. split; [exact E|]. rewrite T, app_nil_r. reflexivity.
  - unfold launch_identities. apply NoDup_flat_map.
    + apply NoDup_first_lanes.
    + intros c Hc. apply in_first_lanes in Hc.
      destruct (Z_lt_le_dec c (active_cores dev geo)) as [L|L].
      * apply Hcore. lia.
      * unfold launch_events.
        destruct (Z.ltb_spec c (active_cores dev geo)); [lia|constructor].
    + intros c c' x Hc Hc' Hx Hx'.
      apply in_first_lanes in Hc. apply in_first_lanes in Hc'.
      assert (Lc : c < active_cores dev geo).
      { destruct (Z_lt_le_dec c (active_cores dev geo)) as [L|L]; [exact L|].
        unfold launch_events in Hx.
        destruct (Z.ltb_spec c (active_cores dev geo)); [lia|destruct Hx]. }
      assert (Lc' : c' < active_cores dev geo).
      { destruct (Z_lt_le_dec c' (active_cores dev geo)) as [L|L]; [exact L|].
        unfold launch_events in Hx'.
        destruct (Z.ltb_spec c' (active_cores dev geo)); [lia|destruct Hx']. }
      apply (Hcore c ltac:(lia)) in Hx as (b1 & l1 & S1 & _ & ->).
      apply (Hcore c' ltac:(lia)) in Hx' as (b2 & l2 & S2 & _ & E).
      pose proof (f_equal fst E) as Eb. cbn [fst] in Eb.
      pose proof (slab_in_grid dev geo c Hn ltac:(lia)).
      pose proof (slab_in_grid dev geo c' Hn ltac:(lia)).
      apply decompose_inj in Eb; try assumption; try lia.
      subst b2. apply (slabs_disjoint dev geo c c' b1 Hn); lia.
  - intros b t. unfold launch_identities. rewrite in_flat_map.
    rewrite (inside_iff_decompose b gd), (inside_iff_decompose t bd)
      by assumption.
    rewrite <- EN, <- ES. split.
    + intros (c & Hc & Hx). apply in_first_lanes in Hc.
      assert (Lc : c < active_cores dev geo).
      { destruct (Z_lt_le_dec c (active_cores dev geo)) as [L|L]; [exact L|].
        unfold launch_events in Hx.
        destruct (Z.ltb_spec c (active_cores dev geo)); [lia|destruct Hx]. }
      apply (Hcore c ltac:(lia)) in Hx as (b1 & l1 & S1 & Hl1 & E).
      pose proof (slab_in_grid dev geo c Hn ltac:(lia)).
      pose proof (f_equal fst E) as Eb. pose proof (f_equal snd E) as Et.
      cbn [fst snd] in Eb, Et.
      split; [exists b1|exists l1]; split; try assumption; lia.
    + intros ((b1 & Hb1 & ->) & (l1 & Hl1 & ->)).
      destruct (slabs_cover dev geo b1 Hn Ha Hb1) as (c & Hc & Hin).
      exists c. split; [apply in_first_lanes; lia|].
      apply (Hcore c Hc). exists b1, l1. repeat split; lia.
Qed.

(** ** The callback invocations of the task path, one by one *)

Lemma process_threads_calls fuel dev targs w t st :
  mscratch st = scratch_threads targs ->
  0 < num_threads dev ->
  threads_iterations targs w * num_threads dev < 4294967296 ->
  (Z.to_nat (threads_iterations targs w) < fuel)%nat ->
  exists st',
    process_threads fuel dev w t st = Some st'
    /\ (same_globals st st' /\ tmask st' = tmask st)
    /\ calls (trace st')
       = calls (trace st) ++ task_lane_events dev targs (gridDim st) w t.
Proof.
  intros Hs Ht Hprod Hfuel.
  unfold process_threads. rewrite Hs. cbv zeta.
  rewrite for_u32_runs; try assumption; try apply u32_range.
  eexists. split; [reflexivity|].
  unfold task_lane_events, threads_lane_rounds, start_task_id, first_lanes.
  match goal with
  | |- context [iterate ?b ?i ?stp ?n ?s0] =>
      pose proof (iterate_calls w t stp n i s0) as H; cbv zeta in H
  end.
  destruct (_ <? 4294967296).
  - destruct H as ((G & M) & _ & _ & C). split; [split|].
    + destruct G as (G1 & G2 & G3 & G4). repeat split; assumption.
    + rewrite M. reflexivity.
    + rewrite C. cbn [trace set_tls tls gridDim threadIdx __local_group_id].
      rewrite !Z.eqb_refl. cbn [andb threadIdx __local_group_id].
      f_equal. rewrite map_map. apply map_ext. intros k. reflexivity.
  - clear H. split; [split; [repeat split|reflexivity]|].
    cbn. rewrite app_nil_r. reflexivity.
Qed.

Section TaskTrace.

Variable dev : device.
Hypothesis Hdev : device_ok dev.
Variables core_id n : Z.
Hypothesis Hn : 0 <= n < 4294967296.
Hypothesis Hactive : 0 <= core_id < tp_active_cores (threads_plan dev core_id n).

Let p := threads_plan dev core_id n.
Let tpw := num_threads dev.
Let W := tp_total_warps p.
Let A := tp_active_warps p.
Let off := tp_all_tasks_offset p.
Let targs := threads_args p.

Lemma task_warp_calls fuel w after st :
  0 <= w < A ->
  mscratch st = scratch_threads targs ->
  n < Z.of_nat fuel ->
  exists st',
    match run_lanes dev w (process_threads fuel dev w)
                    (vx_tmc w (u32 (-1)) st) with
    | Some st' => Some (vx_tmc w after st')
    | None => None
    end = Some st'
    /\ same_globals st st'
    /\ calls (trace st')
       = calls (trace st) ++ task_warp_events dev targs (gridDim st) w.
Proof.
  intros Hw Hs Hfuel.
  pose proof Hdev as [_ Hwpc Htpw Hcap].
  pose proof (task_warps dev Hdev core_id n Hn Hactive) as (EP & Hr & HW & HWn).
  destruct (task_warp dev Hdev core_id n Hn Hactive w Hw)
    as (Eit & Esw & Hsw & Hend).
  fold p targs W A in EP, HW, HWn, Eit, Esw, Hsw, Hend.
  assert (Hit : 0 <= threads_iterations targs w) by (apply u32_range).
  assert (Hprod : threads_iterations targs w * num_threads dev < 4294967296).
  { assert (threads_iterations targs w * num_threads dev
            <= W * num_threads dev)
      by (apply Z.mul_le_mono_nonneg_r; lia).
    pose proof (task_slab dev core_id n Hn Hactive)
      as (_ & _ & Hoff & HP & HoffP).
    fold p in EP, HoffP, HP, Hr, Hoff. lia. }
  apply masked_section_calls. intros t s Hin (G1 & G2 & G3 & G4).
  rewrite <- G1. apply process_threads_calls.
  - rewrite G4. exact Hs.
  - lia.
  - exact Hprod.
  - lia.
Qed.

Lemma spawn_full_warps_calls fuel st :
  mscratch st = scratch_threads targs ->
  n < Z.of_nat fuel ->
  exists st',
    spawn_full_warps fuel dev p st = Some st'
    /\ same_globals st st'
    /\ calls (trace st')
       = calls (trace st) ++ full_warp_events dev p (gridDim st).
Proof.
  intros Hs Hfuel. unfold spawn_full_warps, full_warp_events. fold A.
  destruct (Z.leb_spec 1 A) as [L|L].
  - destruct (vx_wspawn_calls fuel dev A entry_threads_stub
                (task_warp_events dev targs (gridDim st)) st)
      as (st1 & E1 & G1 & C1).
    { intros w s Hin (G1 & G2 & G3 & G4). cbn [run_entry].
      unfold process_threads_stub. rewrite <- G1.
      apply task_warp_calls; [| |exact Hfuel].
      - assert (In w (first_lanes A))
          by (rewrite first_lanes_siblings by lia; right; exact Hin).
        apply in_first_lanes. assumption.
      - rewrite G4. exact Hs. }
    rewrite E1.
    destruct (task_warp_calls fuel 0 1 st1 ltac:(lia)) as (st2 & E2 & G2 & C2).
    { destruct G1 as (_ & _ & _ & ->). exact Hs. }
    { exact Hfuel. }
    rewrite E2. exists st2. split; [reflexivity|]. split.
    + apply (same_globals_trans _ _ _ G1 G2).
    + destruct G1 as (A1 & _). rewrite C2, C1, A1. unfold warps_run.
      rewrite flat_map_app. cbn [flat_map]. rewrite app_nil_r, app_assoc.
      reflexivity.
  - exists st. split; [reflexivity|]. split; [apply same_globals_refl|].
    rewrite app_nil_r. reflexivity.
Qed.

End TaskTrace.

(** ** Coverage of the full-warp section of the task path *)

Section TaskCoverage.

Variable dev : device.
Hypothesis Hdev : device_ok dev.
Variables core_id n : Z.
Hypothesis Hn : 0 <= n < 4294967296.
Hypothesis Hactive : 0 <= core_id < tp_active_cores (threads_plan dev core_id n).

Let p := threads_plan dev core_id n.
Let tpw := num_threads dev.
Let W := tp_total_warps p.
Let A := tp_active_warps p.
Let off := tp_all_tasks_offset p.
Let targs := threads_args p.

Lemma full_device : 1 <= tpw <= 32 /\ 0 <= W < 4294967296 /\ 0 <= off.
Proof.
  pose proof Hdev as [_ _ Ht _].
  pose proof (task_warps dev Hdev core_id n Hn Hactive) as (_ & _ & HW & HWn).
  pose proof (task_slab dev core_id n Hn Hactive) as (_ & _ & Hoff & _).
  fold p W off in HW, HWn, Hoff. fold tpw in Ht. lia.
Qed.

(** A lane of warp [w] takes the tasks of the warp-rows
    [slab_start W A w .. slab_start W A (w + 1) - 1], one per round. *)
Lemma full_lane w t :
  0 <= w < A -> 0 <= t < tpw ->
  threads_lane_rounds dev targs w t
  = slab_start W A (w + 1) - slab_start W A w
  /\ start_task_id dev targs w t = off + slab_start W A w * tpw + t
  /\ 0 <= slab_start W A w
  /\ slab_start W A (w + 1) <= W.
Proof.
  intros Hw Ht.
  pose proof full_device as (Htpw & HW & Hoff).
  pose proof Hdev as [_ Hwpc _ Hcap].
  pose proof (task_no_wrap dev Hdev core_id n Hn Hactive) as (Hn1 & Hfit).
  pose proof (task_slab dev core_id n Hn Hactive)
    as (_ & _ & _ & HP & HoffP).
  pose proof (task_warps dev Hdev core_id n Hn Hactive) as (EP & Hr & _).
  destruct (task_warp dev Hdev core_id n Hn Hactive w Hw)
    as (Eit & Esw & Hsw & Hend).
  fold p targs W A off tpw in HP, HoffP, EP, Hr, Eit, Esw, Hsw, Hend, Hfit.
  assert (HK : tpw <= num_warps dev * tpw)
    by (rewrite <- (Z.mul_1_l tpw) at 1;
        apply Z.mul_le_mono_nonneg_r; lia).
  assert (Hit : 0 <= threads_iterations targs w) by (apply u32_range).
  pose proof (lane_range_bounds off (slab_start W A w)
                (threads_iterations targs w) W tpw t n
                (tp_remaining_tasks p) (tp_tasks_per_core p)
                (num_warps dev * tpw)
                Hoff Hsw Hit Hend EP ltac:(lia) HoffP Ht HK Hfit)
    as (B1 & B2 & B3).
  assert (Estart : start_task_id dev targs w t
                   = off + slab_start W A w * tpw + t).
  { unfold start_task_id. rewrite Esw. fold tpw.
    change (t_all_tasks_offset targs) with off.
    rewrite (u32_small (slab_start W A w * tpw)) by lia.
    rewrite (u32_small (off + slab_start W A w * tpw)) by lia.
    apply u32_small. lia. }
  assert (Esucc : slab_start W A (w + 1)
                  = slab_start W A w + threads_iterations targs w).
  { rewrite slab_start_succ by lia. rewrite Eit. reflexivity. }
  split; [|split; [exact Estart|split; [exact Hsw|lia]]].
  unfold threads_lane_rounds. rewrite Estart. fold tpw.
  destruct (Z.ltb_spec
              (off + slab_start W A w * tpw + t
               + threads_iterations targs w * tpw) 4294967296); lia.
Qed.

Lemma in_full_warp_blocks w x gd :
  In x (map (fun e => blockIdx (snd e)) (task_warp_events dev targs gd w)) ->
  exists t k,
    0 <= t < tpw
    /\ 0 <= k < threads_lane_rounds dev targs w t
    /\ x = decompose (start_task_id dev targs w t + k * tpw) gd.
Proof.
  intros Hin. pose proof full_device as (Htpw & _).
  apply in_map_iff in Hin as (e & <- & He).
  unfold task_warp_events in He. apply in_flat_map in He as (t & Ht & He).
  rewrite lanes_of_full_mask in Ht by (fold tpw; lia).
  apply in_first_lanes in Ht.
  unfold task_lane_events in He. apply in_map_iff in He as (k & <- & Hk).
  apply in_first_lanes in Hk.
  exists t, k. repeat split; try (fold tpw in Ht; lia); lia.
Qed.

Variable gd : dim3_t.
Hypothesis Hgd :
  0 < dim_x gd /\ 0 < dim_y gd /\ dim_x gd * dim_y gd < 4294967296.

Let blocks := map (fun e => blockIdx (snd e)) (full_warp_events dev p gd).

(** The tasks of two indices (warp, lane, round) differ. *)
Lemma full_index_unique w t k w' t' k' :
  0 <= w < A -> 0 <= t < tpw -> 0 <= k < threads_lane_rounds dev targs w t ->
  0 <= w' < A -> 0 <= t' < tpw ->
  0 <= k' < threads_lane_rounds dev targs w' t' ->
  decompose (start_task_id dev targs w t + k * tpw) gd
  = decompose (start_task_id dev targs w' t' + k' * tpw) gd ->
  w = w' /\ t = t' /\ k = k'.
Proof.
  intros Hw Ht Hk Hw' Ht' Hk' E.
  pose proof full_device as (Htpw & HW & Hoff).
  destruct Hgd as (Gx & Gy & Gxy).
  destruct (full_lane w t Hw Ht) as (Er & Es & Hs & He).
  destruct (full_lane w' t' Hw' Ht') as (Er' & Es' & Hs' & He').
  rewrite Er in Hk. rewrite Er' in Hk'. rewrite Es, Es' in E.
  assert (0 <= (slab_start W A w + k) * tpw)
    by (apply Z.mul_nonneg_nonneg; lia).
  assert (0 <= (slab_start W A w' + k') * tpw)
    by (apply Z.mul_nonneg_nonneg; lia).
  apply decompose_inj in E; try assumption; try lia.
  destruct (euclid_unique tpw (slab_start W A w + k) t
              (slab_start W A w' + k') t' ltac:(lia) ltac:(lia) ltac:(lia))
    as (Erow & Et).
  assert (HA1 : 1 <= A) by lia.
  assert (Ew : w = w').
  { destruct (Z.lt_trichotomy w w') as [L|[L|L]]; [|exact L|].
    - pose proof (slab_start_mono W A HW HA1 (w + 1) w' ltac:(lia)). lia.
    - pose proof (slab_start_mono W A HW HA1 (w' + 1) w ltac:(lia)). lia. }
  subst w'. repeat split; [exact Et|lia].
Qed.

Lemma full_sound x :
  In x blocks ->
  exists j, off <= j < off + W * tpw /\ x = decompose j gd.
Proof.
  intros Hin. unfold blocks, full_warp_events in Hin.
  pose proof full_device as (Htpw & HW & Hoff).
  fold A in Hin. destruct (Z.leb_spec 1 A) as [L|L]; [|destruct Hin].
  rewrite map_flat_map in Hin. apply in_flat_map in Hin as (w & Hw & Hin).
  apply in_warps_run in Hw; [|exact L].
  apply in_full_warp_blocks in Hin as (t & k & Ht & Hk & ->).
  destruct (full_lane w t Hw Ht) as (Er & Es & Hs & He).
  rewrite Er in Hk. rewrite Es.
  exists (off + slab_start W A w * tpw + t + k * tpw).
  split; [|reflexivity].
  assert (0 <= (slab_start W A w + k) * tpw)
    by (apply Z.mul_nonneg_nonneg; lia).
  assert ((slab_start W A w + k + 1) * tpw <= W * tpw)
    by (apply Z.mul_le_mono_nonneg_r; lia).
  lia.
Qed.

Lemma full_complete j :
  off <= j < off + W * tpw -> In (decompose j gd) blocks.
Proof.
  intros Hj. pose proof full_device as (Htpw & HW & Hoff).
  pose proof (task_schedule dev Hdev core_id n Hn Hactive)
    as (HA & HAW & HA0 & _).
  fold p W A in HA, HAW, HA0.
  set (i := j - off).
  pose proof (Z.div_mod i tpw ltac:(lia)) as Ei.
  pose proof (Z.mod_pos_bound i tpw ltac:(lia)) as Him.
  assert (Hrow : 0 <= i / tpw < W).
  { split; [apply Z.div_pos; unfold i; lia|].
    apply Z.div_lt_upper_bound; unfold i; lia. }
  assert (HA1 : 1 <= A) by (destruct (Z.eq_dec A 0); [lia|lia]).
  destruct (slab_cover W A HW HA1 (i / tpw) Hrow) as (w & Hw & Hin).
  destruct (full_lane w (i mod tpw) Hw Him) as (Er & Es & Hs & He).
  unfold blocks, full_warp_events. fold A.
  destruct (Z.leb_spec 1 A); [|lia].
  rewrite map_flat_map. apply in_flat_map.
  exists w. split; [apply in_warps_run; lia|].
  unfold task_warp_events. rewrite map_flat_map. apply in_flat_map.
  exists (i mod tpw). split.
  { rewrite lanes_of_full_mask by (fold tpw; lia). apply in_first_lanes.
    exact Him. }
  unfold task_lane_events. rewrite map_map. apply in_map_iff.
  exists (i / tpw - slab_start W A w). split.
  - cbn [snd blockIdx]. fold targs tpw. rewrite Es. f_equal. unfold i in *.
    lia.
  - apply in_first_lanes. fold targs. rewrite Er. lia.
Qed.

Lemma full_nodup : NoDup blocks.
Proof.
  pose proof full_device as (Htpw & HW & Hoff).
  unfold blocks, full_warp_events. fold A.
  destruct (Z.leb_spec 1 A) as [L|L]; [|constructor].
  rewrite map_flat_map. apply NoDup_flat_map.
  - apply NoDup_warps_run.
  - intros w Hw. apply in_warps_run in Hw; [|exact L].
    unfold task_warp_events. rewrite map_flat_map. apply NoDup_flat_map.
    + apply NoDup_lanes_of_mask.
    + intros t Ht. rewrite lanes_of_full_mask in Ht by (fold tpw; lia).
      apply in_first_lanes in Ht.
      unfold task_lane_events. rewrite map_map.
      apply NoDup_map_on; [|apply NoDup_first_lanes].
      intros k k' Hk Hk' E. cbn [snd blockIdx] in E.
      apply in_first_lanes in Hk. apply in_first_lanes in Hk'.
      fold targs tpw in Hk, Hk', E.
      apply (full_index_unique w t k w t k'); assumption.
    + intros t t' x Ht Ht' Hx Hx'.
      rewrite lanes_of_full_mask in Ht, Ht' by (fold tpw; lia).
      apply in_first_lanes in Ht. apply in_first_lanes in Ht'.
      unfold task_lane_events in Hx, Hx'. rewrite map_map in Hx, Hx'.
      apply in_map_iff in Hx as (k & <- & Hk).
      apply in_map_iff in Hx' as (k' & E & Hk').
      cbn [snd blockIdx] in E. symmetry in E.
      apply in_first_lanes in Hk. apply in_first_lanes in Hk'.
      fold targs tpw in Hk, Hk', E.
      apply (full_index_unique w t k w t' k'); assumption.
  - intros w w' x Hw Hw' Hx Hx'.
    apply in_warps_run in Hw; [|exact L].
    apply in_warps_run in Hw'; [|exact L].
    apply in_full_warp_blocks in Hx as (t & k & Ht & Hk & ->).
    apply in_full_warp_blocks in Hx' as (t' & k' & Ht' & Hk' & E).
    apply (full_index_unique w t k w' t' k'); assumption.
Qed.

End TaskCoverage.

Lemma big_fuel : 4294967296 < Z.of_nat (Z.to_nat 4294967297).
Proof. lia. Qed.

(** ** Invocation counts of the task path *)

Lemma task_path_validated dev geo :
  device_ok dev -> group_size geo <= 1 -> validated dev geo.
Proof.
  intros Hdev Hgs. unfold validated.
  destruct (capacity_exact dev Hdev) as (-> & H). lia.
Qed.

(** X3 - invocations of the task path.  A launch of single-thread blocks
    (group_size <= 1) whose count of needed cores does not wrap around runs
    to completion on every core; core [c] invokes the callback once for each
    task of its slab ([slab_size] of them, tail tasks included, none when the
    core is not active), and the cores together [num_groups] times. *)
Theorem task_path_invocations fuel dev dimension grid_dim block_dim st0 :
  device_ok dev ->
  let geo := normalize dimension grid_dim block_dim st0 in
  let k := fun c =>
    if c <? active_cores dev geo then slab_size dev geo c else 0 in
  group_size geo <= 1 ->
  num_groups geo + num_warps dev * num_threads dev - 1 < 4294967296 ->
  num_groups geo < Z.of_nat fuel ->
  (forall core_id st, 0 <= core_id ->
     exists st',
       vx_spawn_threads fuel dev core_id dimension grid_dim block_dim st
       = Some (0, st')
       /\ ncalls st' = ncalls st + k core_id)
  /\ sum_Z (map k (first_lanes (num_cores dev))) = num_groups geo.
Proof.
  intros Hdev geo k Hgs Hfit Hfuel.
  pose proof (num_groups_range dimension grid_dim block_dim st0) as Hn.
  pose proof (group_size_range dimension grid_dim block_dim st0) as Hg.
  fold geo in Hn, Hg.
  pose proof (task_path_validated dev geo Hdev Hgs) as Hv.
  split.
  - intros c st Hc. unfold k.
    destruct (Z.ltb_spec c (active_cores dev geo)) as [L|L].
    + destruct (launch_tasks_active fuel dev c dimension grid_dim block_dim st
                  Hdev) as (st' & E & C & _);
        rewrite ?(normalize_state dimension grid_dim block_dim st st0);
        try assumption; [fold geo; lia|].
      exists st'. split; [exact E|].
      rewrite (normalize_state dimension grid_dim block_dim st st0) in C.
      exact C.
    + destruct (launch_inactive fuel dev c dimension grid_dim block_dim st)
        as (st' & E & T & _);
        rewrite ?(normalize_state dimension grid_dim block_dim st st0);
        try assumption.
      exists st'. split; [exact E|]. unfold ncalls. rewrite T. lia.
  - pose proof (active_cores_range dev geo Hdev) as Hr.
    unfold k, first_lanes at 1. rewrite sum_guarded.
    2:{ destruct Hdev as [Hc _ _ _]. lia. }
    destruct (Z.eq_dec (num_groups geo) 0) as [E0|E0].
    + rewrite (active_cores_zero_grid dev geo Hdev E0), E0. reflexivity.
    + apply slab_sizes_total; [assumption|].
      apply active_cores_pos; try assumption; try lia.
      destruct (Z.ltb_spec 1 (group_size geo)); [lia|exact Hfit].
Qed.

Lemma task_path_invocations_witness :
  let dev := mk_device 2 1 4 in
  let geo := normalize 1 (Some (arr [11])) None boot in
  group_size geo <= 1
  /\ num_groups geo + 1 * 4 - 1 < 4294967296
  /\ num_groups geo < Z.of_nat 12
  /\ map (fun c => if c <? active_cores dev geo
                   then slab_size dev geo c else 0) [0; 1] = [6; 5]
  /\ sum_Z (map (fun c => if c <? active_cores dev geo
                          then slab_size dev geo c else 0)
                (first_lanes 2)) = 11.
Proof.
  intros dev geo.
  assert (Hd : device_ok dev) by (constructor; cbn; lia).
  assert (Hg : group_size geo <= 1) by (vm_compute; discriminate).
  assert (Hf : num_groups geo + 1 * 4 - 1 < 4294967296) by reflexivity.
  assert (Hu : num_groups geo < Z.of_nat 12) by reflexivity.
  split; [exact Hg|]. split; [exact Hf|]. split; [exact Hu|].
  split; [reflexivity|].
  exact (proj2 (task_path_invocations 12%nat dev 1 (Some (arr [11])) None boot
                  Hd Hg Hf Hu)).
Defined.

(** ** What a launch publishes *)

Lemma launch_inactive_pub fuel dev core_id dimension grid_dim block_dim st :
  let geo := normalize dimension grid_dim block_dim st in
  validated dev geo ->
  active_cores dev geo <= core_id ->
  exists st',
    vx_spawn_threads fuel dev core_id dimension grid_dim block_dim st
    = Some (0, st')
    /\ warps_per_group_pub st'
       = if 1 <? group_size geo then warps_per_group_pub st else 0.
Proof.
  intros geo Hv Ha. unfold validated in Hv. unfold vx_spawn_threads.
  fold geo. unfold active_cores in Ha.
  destruct (Z.ltb_spec (u32 (num_warps dev * num_threads dev)) (group_size geo));
    [lia|].
  destruct (1 <? group_size geo).
  - change (gp_active_cores
              (groups_plan dev core_id (num_groups geo) (group_size geo)))
      with (gp_active_cores
              (groups_plan dev 0 (num_groups geo) (group_size geo))).
    destruct (Z.leb_spec
                (gp_active_cores
                   (groups_plan dev 0 (num_groups geo) (group_size geo)))
                core_id); [|lia].
    eexists. split; reflexivity.
  - change (tp_active_cores (threads_plan dev core_id (num_groups geo)))
      with (tp_active_cores (threads_plan dev 0 (num_groups geo))).
    destruct (Z.leb_spec
                (tp_active_cores (threads_plan dev 0 (num_groups geo)))
                core_id); [|lia].
    eexists. split; reflexivity.
Qed.

Lemma geometry_axes dimension grid_dim block_dim st :
  let geo := normalize dimension grid_dim block_dim st in
  geo_gridDim geo
  = mk_dim3 (axis grid_dim dimension 0) (axis grid_dim dimension 1)
            (axis grid_dim dimension 2)
  /\ geo_blockDim geo
     = mk_dim3 (axis block_dim dimension 0) (axis block_dim dimension 1)
               (axis block_dim dimension 2).
Proof. split; reflexivity. Qed.

(** X9 - what a launch publishes.  Every call returns (-1 when the block
    exceeds the capacity of a core, 0 otherwise) with [gridDim] and
    [blockDim] set to the three axes of the request, each read from the
    argument array below [dimension] and 1 from there on or when the pointer
    is null; this holds on the error path and on cores without work too.
    [__warps_per_group] is the warp demand ceil(group_size /
    threads_per_warp) on the active cores of the group path, 0 on every core
    of the task path, and left as it was on the error path and on the idle
    cores of the group path. *)
Theorem published_globals fuel dev core_id dimension grid_dim block_dim st :
  device_ok dev ->
  0 <= core_id ->
  4294967296 < Z.of_nat fuel ->
  let geo := normalize dimension grid_dim block_dim st in
  let capacity := num_warps dev * num_threads dev in
  exists r st',
    vx_spawn_threads fuel dev core_id dimension grid_dim block_dim st
    = Some (r, st')
    /\ r = (if capacity <? group_size geo then -1 else 0)
    /\ gridDim st'
       = mk_dim3 (axis grid_dim dimension 0) (axis grid_dim dimension 1)
                 (axis grid_dim dimension 2)
    /\ blockDim st'
       = mk_dim3 (axis block_dim dimension 0) (axis block_dim dimension 1)
                 (axis block_dim dimension 2)
    /\ warps_per_group_pub st'
       = if capacity <? group_size geo then warps_per_group_pub st
         else if 1 <? group_size geo then
           if core_id <? active_cores dev geo
           then (group_size geo + num_threads dev - 1) / num_threads dev
           else warps_per_group_pub st
         else 0.
Proof.
  intros Hdev Hc Hfuel geo capacity.
  destruct (capacity_exact dev Hdev) as (Ecap & Hcap). unfold capacity.
  pose proof (num_groups_range dimension grid_dim block_dim st) as Hn.
  pose proof (group_size_range dimension grid_dim block_dim st) as Hg.
  fold geo in Hn, Hg.
  destruct (geometry_axes dimension grid_dim block_dim st) as (Eg & Eb).
  fold geo in Eg, Eb. rewrite <- Eg, <- Eb.
  destruct (Z.ltb_spec (num_warps dev * num_threads dev) (group_size geo))
    as [Hbig|Hfits].
  - pose proof (launch_oversize fuel dev core_id dimension grid_dim block_dim st)
      as E. cbv zeta in E. fold geo in E.
    rewrite E by (unfold validated; rewrite Ecap; lia).
    eexists. eexists. split; [reflexivity|]. repeat split.
  - assert (Hv : validated dev geo) by (unfold validated; rewrite Ecap; lia).
    destruct (Z.ltb_spec core_id (active_cores dev geo)) as [Hact|Hidle].
    + destruct (Z.ltb_spec 1 (group_size geo)) as [G|G].
      * destruct (launch_groups_active fuel dev core_id dimension grid_dim
                    block_dim st Hdev Hv G ltac:(fold geo; lia) Hfuel)
          as (st' & E & _ & D1 & D2 & P).
        exists 0, st'. split; [exact E|]. split; [reflexivity|].
        split; [exact D1|]. split; [exact D2|].
        fold geo in P. rewrite P.
        apply (warps_per_group_ceil dev Hdev). lia.
      * destruct (launch_tasks_active fuel dev core_id dimension grid_dim
                    block_dim st Hdev Hv G ltac:(fold geo; lia)
                    ltac:(fold geo; lia))
          as (st' & E & _ & D1 & D2 & P).
        exists 0, st'. split; [exact E|]. split; [reflexivity|].
        split; [exact D1|]. split; [exact D2|exact P].
    + destruct (launch_inactive fuel dev core_id dimension grid_dim block_dim
                  st Hv Hidle) as (st' & E & _ & _ & _ & _ & D1 & D2).
      destruct (launch_inactive_pub fuel dev core_id dimension grid_dim
                  block_dim st Hv Hidle) as (st'' & E' & P).
      rewrite E in E'. injection E' as <-.
      exists 0, st'. split; [exact E|]. split; [reflexivity|].
      split; [exact D1|]. split; [exact D2|].
      fold geo in P. rewrite P. destruct (1 <? group_size geo); reflexivity.
Qed.

Lemma published_globals_witness :
  0 <= 0
  /\ 4294967296 < Z.of_nat (Z.to_nat 4294967297)
  /\ exists r st',
       vx_spawn_threads (Z.to_nat 4294967297) (mk_device 2 4 4) 0 1
                        (Some (arr [3])) (Some (arr [6])) boot
       = Some (r, st')
       /\ r = 0
       /\ gridDim st' = mk_dim3 3 1 1 /\ blockDim st' = mk_dim3 6 1 1
       /\ warps_per_group_pub st' = 2.
Proof.
  assert (H0 : 0 <= 0) by lia.
  assert (Hf : 4294967296 < Z.of_nat (Z.to_nat 4294967297)) by lia.
  split; [exact H0|]. split; [exact Hf|].
  exact (published_globals (Z.to_nat 4294967297) (mk_device 2 4 4) 0 1
           (Some (arr [3])) (Some (arr [6])) boot dev0_ok H0 Hf).
Defined.

Lemma lin_of_range b d :
  inside b d ->
  0 <= lin_of b d < dim_x d * dim_y d * dim_z d.
Proof.
  unfold inside, lin_of. intros ((X0 & X1) & (Y0 & Y1) & (Z0 & Z1)).
  assert (H1 : 0 <= dim_y d * dim_z b) by (apply Z.mul_nonneg_nonneg; lia).
  assert (H2 : dim_y d * dim_z b <= dim_y d * (dim_z d - 1))
    by (apply Z.mul_le_mono_nonneg_l; lia).
  assert (H3 : 0 <= dim_x d * (dim_y b + dim_y d * dim_z b))
    by (apply Z.mul_nonneg_nonneg; lia).
  assert (H4 : dim_x d * (dim_y b + dim_y d * dim_z b)
               <= dim_x d * (dim_y d * dim_z d - 1))
    by (apply Z.mul_le_mono_nonneg_l; lia).
  lia.
Qed.

(** X5 - block index round trip.  For dimensions [d] whose product fits 32
    bits, the x-fastest decomposition the stubs apply to a linear index
    ([lin % d.x], [(lin / d.x) % d.y], [lin / (d.x * d.y)]) is a bijection
    between [[0, d.x * d.y * d.z)] and the indices inside [d]: the index
    [x + d.x * (y + d.y * z)] computed from the result is the linear index
    again, and every index inside [d] is the decomposition of its linear
    index. *)
Theorem block_index_round_trip d :
  0 < dim_x d -> 0 < dim_y d -> 0 < dim_z d ->
  dim_x d * dim_y d * dim_z d < 4294967296 ->
  (forall lin, 0 <= lin < dim_x d * dim_y d * dim_z d ->
     inside (decompose lin d) d /\ lin_of (decompose lin d) d = lin)
  /\ (forall b, inside b d ->
        0 <= lin_of b d < dim_x d * dim_y d * dim_z d
        /\ decompose (lin_of b d) d = b).
Proof.
  intros Hx Hy Hz Hfit.
  assert (Hxy : dim_x d * dim_y d < 4294967296).
  { assert (dim_x d * dim_y d * 1 <= dim_x d * dim_y d * dim_z d)
      by (apply Z.mul_le_mono_nonneg_l; [apply Z.mul_nonneg_nonneg|]; lia).
    lia. }
  split.
  - intros lin Hlin. split.
    + apply decompose_in_range; assumption.
    + apply decompose_lin; try assumption. lia.
  - intros b Hb. split; [apply lin_of_range; exact Hb|].
    destruct Hb as (Bx & By & Bz).
    apply decompose_onto; try assumption. lia.
Qed.

Lemma block_index_round_trip_witness :
  let d := mk_dim3 4 3 2 in
  (0 < dim_x d /\ 0 < dim_y d /\ 0 < dim_z d
   /\ dim_x d * dim_y d * dim_z d < 4294967296)
  /\ decompose 17 d = mk_dim3 1 1 1
  /\ lin_of (decompose 17 d) d = 17.
Proof.
  intros d.
  assert (Hx : 0 < dim_x d) by reflexivity.
  assert (Hy : 0 < dim_y d) by reflexivity.
  assert (Hz : 0 < dim_z d) by reflexivity.
  assert (Hf : dim_x d * dim_y d * dim_z d < 4294967296) by reflexivity.
  split; [repeat split|]. split; [reflexivity|].
  refine (proj2 (proj1 (block_index_round_trip d Hx Hy Hz Hf) 17 _)).
  cbn. lia.
Defined.

(** ** How many cores take part *)

Lemma needed_cores_bounds n d cap :
  0 <= n -> 1 <= d <= cap ->
  0 <= (n * d + cap - 1) / cap <= n
  /\ (0 < n -> 1 <= (n * d + cap - 1) / cap).
Proof.
  intros Hn Hd.
  assert (H0 : 0 <= n * d) by (apply Z.mul_nonneg_nonneg; lia).
  assert (H1 : n * d <= n * cap) by (apply Z.mul_le_mono_nonneg_l; lia).
  split; [split|].
  - apply Z.div_pos; lia.
  - apply Z.lt_succ_r. apply Z.div_lt_upper_bound; lia.
  - intros Hpos. apply Z.div_le_lower_bound; [lia|].
    assert (1 * 1 <= n * d) by (apply Z.mul_le_mono_nonneg; lia). lia.
Qed.

Lemma tasks_per_core_pos dev core_id n :
  device_ok dev ->
  0 <= n < 4294967296 ->
  0 <= core_id < tp_active_cores (threads_plan dev core_id n) ->
  1 <= tp_tasks_per_core (threads_plan dev core_id n).
Proof.
  intros Hdev Hn Ha.
  destruct (task_no_wrap dev Hdev core_id n Hn Ha) as (Hn1 & Hfit).
  destruct (task_slab dev core_id n Hn Ha) as (_ & -> & _).
  destruct (capacity_exact dev Hdev) as (Ecap & Hcap).
  assert (Hle : tp_active_cores (threads_plan dev core_id n) <= n).
  { unfold threads_plan. cbn [tp_active_cores].
    rewrite Ecap, MIN_spec, u32_small by lia.
    pose proof (needed_cores_bounds n 1 (num_warps dev * num_threads dev)
                  ltac:(lia) ltac:(lia)) as (H & _).
    rewrite Z.mul_1_r in H. lia. }
  assert (1 <= n / tp_active_cores (threads_plan dev core_id n))
    by (apply Z.div_le_lower_bound; lia).
  destruct (core_id <? _); lia.
Qed.

(** X6 - the number of active cores.  When the 32-bit ceiling division of
    the launcher does not wrap around, the cores that take part are
    min(ceil(demand / capacity), num_cores), where the demand is
    [num_groups * warps_per_group] warps against [warps_per_core] in the
    group path and [num_groups] threads against
    [warps_per_core * threads_per_warp] in the task path.  They are never
    more than the blocks, at least one when there is a block, and every
    active core owns at least one block. *)
Theorem active_core_count dev dimension grid_dim block_dim st :
  device_ok dev ->
  let geo := normalize dimension grid_dim block_dim st in
  let n := num_groups geo in
  let warps_per_group :=
    (group_size geo + num_threads dev - 1) / num_threads dev in
  let demand := if 1 <? group_size geo then n * warps_per_group else n in
  let capacity :=
    if 1 <? group_size geo then num_warps dev
    else num_warps dev * num_threads dev in
  validated dev geo ->
  demand + capacity - 1 < 4294967296 ->
  active_cores dev geo
  = Z.min ((demand + capacity - 1) / capacity) (num_cores dev)
  /\ 0 <= active_cores dev geo <= Z.min n (num_cores dev)
  /\ (0 < n -> 1 <= active_cores dev geo)
  /\ forall c, 0 <= c < active_cores dev geo -> 1 <= slab_size dev geo c.
Proof.
  intros Hdev geo n wpg demand capacity Hv Hfit.
  pose proof (num_groups_range dimension grid_dim block_dim st) as Hn.
  pose proof (group_size_range dimension grid_dim block_dim st) as Hg.
  fold geo in Hn, Hg. fold n in Hn.
  destruct (capacity_exact dev Hdev) as (Ecap & Hcap).
  pose proof Hdev as [Hc Hw Ht _].
  assert (Ea : active_cores dev geo
               = Z.min ((demand + capacity - 1) / capacity) (num_cores dev)
               /\ 0 <= (demand + capacity - 1) / capacity <= n
               /\ (0 < n -> 1 <= (demand + capacity - 1) / capacity)).
  { unfold active_cores, demand, capacity in *.
    destruct (Z.ltb_spec 1 (group_size geo)) as [G|G].
    - pose proof (warps_per_group_ceil dev Hdev 0 n (group_size geo) Hg) as Ew.
      pose proof (warps_per_group_pos dev Hdev 0 n (group_size geo)
                    ltac:(lia)) as Hp.
      pose proof (warps_per_group_fits dev Hdev 0 n (group_size geo)
                    ltac:(unfold validated in Hv; lia)) as Hle.
      fold n. fold wpg in Ew. rewrite Ew in Hp, Hle.
      assert (H0 : 0 <= n * wpg) by (apply Z.mul_nonneg_nonneg; lia).
      split.
      + unfold groups_plan. cbn [gp_active_cores].
        change (if group_size geo mod num_threads dev =? 0
                then group_size geo / num_threads dev
                else u32 (group_size geo / num_threads dev + 1))
          with (gp_warps_per_group (groups_plan dev 0 n (group_size geo))).
        rewrite Ew, MIN_spec.
        rewrite (u32_small (n * wpg)) by lia.
        rewrite u32_small by lia. reflexivity.
      + apply needed_cores_bounds; lia.
    - fold n. split.
      + unfold threads_plan. cbn [tp_active_cores].
        rewrite Ecap, MIN_spec, u32_small by lia. reflexivity.
      + pose proof (needed_cores_bounds n 1 (num_warps dev * num_threads dev)
                      ltac:(lia) ltac:(lia)) as H.
        rewrite Z.mul_1_r in H. exact H. }
  destruct Ea as (Ea & Hr & Hpos).
  split; [exact Ea|]. split; [lia|]. split; [lia|].
  intros c Hcore.
  rewrite (slab_size_closed dev geo Hn c Hcore). fold n.
  assert (1 <= n / active_cores dev geo)
    by (apply Z.div_le_lower_bound; lia).
  destruct (c <? _); lia.
Qed.

Lemma active_core_count_witness :
  let dev := mk_device 4 4 4 in
  let geo := normalize 1 (Some (arr [5])) (Some (arr [6])) boot in
  validated dev geo
  /\ 5 * 2 + 4 - 1 < 4294967296
  /\ active_cores dev geo = 3
  /\ map (slab_size dev geo) [0; 1; 2] = [2; 2; 1].
Proof.
  intros dev geo.
  assert (Hd : device_ok dev) by (constructor; cbn; lia).
  assert (Hv : validated dev geo) by (vm_compute; discriminate).
  assert (Hf : 5 * 2 + 4 - 1 < 4294967296) by reflexivity.
  split; [exact Hv|]. split; [exact Hf|]. split; [|reflexivity].
  exact (proj1 (active_core_count dev 1 (Some (arr [5])) (Some (arr [6])) boot
                  Hd Hv Hf)).
Defined.

(** X8 - the rows of full warps of the task path.  On an active core the
    tasks of the slab are [W] rows of [threads_per_warp] tasks and a tail of
    fewer than [threads_per_warp]; [min W warps_per_core] warps are started,
    and [process_threads] deals the rows to them in contiguous, balanced
    ranges: warp [w] takes [iterations w] rows from row [start_warp w] on,
    the ranges follow one another from row 0 to row [W], two warps differ by
    at most one row, and the rows add up to [W]. *)
Theorem full_warp_rows dev core_id dimension grid_dim block_dim st :
  device_ok dev ->
  let geo := normalize dimension grid_dim block_dim st in
  let p := threads_plan dev core_id (num_groups geo) in
  let first := threads_start_warp (threads_args p) in
  let count := threads_iterations (threads_args p) in
  let A := tp_active_warps p in
  let W := tp_total_warps p in
  group_size geo <= 1 ->
  0 <= core_id < active_cores dev geo ->
  tp_tasks_per_core p = W * num_threads dev + tp_remaining_tasks p
  /\ 0 <= tp_remaining_tasks p < num_threads dev
  /\ A = Z.min W (num_warps dev)
  /\ (forall w, 0 <= w < A ->
        count w = W / A + (if w <? W mod A then 1 else 0))
  /\ (1 <= A -> first 0 = 0 /\ first (A - 1) + count (A - 1) = W)
  /\ (forall w, 0 <= w -> w + 1 < A -> first (w + 1) = first w + count w)
  /\ (forall w1 w2, 0 <= w1 < A -> 0 <= w2 < A -> count w1 - count w2 <= 1)
  /\ sum_Z (map count (first_lanes A)) = W.
Proof.
  intros Hdev geo p first count A W Hgs Ha.
  pose proof (num_groups_range dimension grid_dim block_dim st) as Hn.
  fold geo in Hn.
  assert (Hact : 0 <= core_id < tp_active_cores p).
  { unfold active_cores in Ha.
    destruct (Z.ltb_spec 1 (group_size geo)); [lia|exact Ha]. }
  pose proof (task_warps dev Hdev core_id (num_groups geo) Hn Hact)
    as (EP & Hr & HW).
  pose proof (task_schedule dev Hdev core_id (num_groups geo) Hn Hact)
    as (HA & HAW & HA0 & _).
  pose proof (task_schedule_cases dev core_id (num_groups geo))
    as Hcases.
  fold p in EP, Hr, HW, HA, HAW, HA0, Hcases.
  fold W in EP, HW, HAW, HA0, Hcases. fold A in HA, HAW, HA0, Hcases.
  assert (HWr : 0 <= W < 4294967296) by lia.
  assert (Hrow : forall w, 0 <= w < A ->
            count w = W / A + (if w <? W mod A then 1 else 0)
            /\ first w = slab_start W A w).
  { intros w Hw.
    destruct (task_warp dev Hdev core_id (num_groups geo) Hn Hact w Hw)
      as (E1 & E2 & _).
    split; [exact E1|exact E2]. }
  split; [rewrite EP; lia|]. split; [exact Hr|].
  split; [destruct Hcases as [(L & E & _)|(L & E & _)]; lia|].
  split; [intros w Hw; apply (Hrow w Hw)|].
  split; [|split; [|split]].
  - intros H1. destruct (Hrow 0 ltac:(lia)) as (_ & ->).
    destruct (Hrow (A - 1) ltac:(lia)) as (-> & ->).
    split; [apply slab_start_0; lia|].
    rewrite <- (slab_start_succ W A) by lia.
    replace (A - 1 + 1) with A by lia. apply slab_start_last; lia.
  - intros w H0 H1. destruct (Hrow w ltac:(lia)) as (-> & ->).
    destruct (Hrow (w + 1) ltac:(lia)) as (_ & ->).
    apply slab_start_succ. lia.
  - intros w1 w2 H1 H2. destruct (Hrow w1 H1) as (-> & _).
    destruct (Hrow w2 H2) as (-> & _).
    destruct (w1 <? _), (w2 <? _); lia.
  - apply (task_iterations_sum dev Hdev core_id (num_groups geo) Hn Hact).
Qed.

Lemma full_warp_rows_witness :
  let dev := mk_device 1 3 2 in
  let geo := normalize 1 (Some (arr [23])) None boot in
  let targs := threads_args (threads_plan dev 0 (num_groups geo)) in
  group_size geo <= 1
  /\ 0 <= 0 < active_cores dev geo
  /\ map (threads_start_warp targs) [0; 1; 2] = [0; 4; 8]
  /\ map (threads_iterations targs) [0; 1; 2] = [4; 4; 3]
  /\ sum_Z (map (threads_iterations targs) (first_lanes 3)) = 11.
Proof.
  intros dev geo targs.
  assert (Hd : device_ok dev) by (constructor; cbn; lia).
  assert (Hg : group_size geo <= 1) by (vm_compute; discriminate).
  assert (Ha : 0 <= 0 < active_cores dev geo)
    by (vm_compute; split; [discriminate|reflexivity]).
  split; [exact Hg|]. split; [exact Ha|].
  split; [reflexivity|]. split; [reflexivity|].
  exact (proj2 (proj2 (proj2 (proj2 (proj2 (proj2 (proj2
           (full_warp_rows dev 0 1 (Some (arr [23])) None boot Hd Hg Ha)))))))).
Defined.

(** X7 - surplus cores stay idle.  On a core whose id is not below the
    number of active cores a validated launch returns 0 at once, whatever
    the fuel: no callback, no warp spawn, no thread-mask change, no write to
    the scratch register or to a thread-local.  The core still publishes
    [gridDim] and [blockDim]; [__warps_per_group] is reset to 0 in the task
    path and left as it was in the group path, which returns before the
    assignment. *)
Theorem surplus_cores_idle fuel dev core_id dimension grid_dim block_dim st :
  let geo := normalize dimension grid_dim block_dim st in
  validated dev geo ->
  active_cores dev geo <= core_id ->
  exists st',
    vx_spawn_threads fuel dev core_id dimension grid_dim block_dim st
    = Some (0, st')
    /\ trace st' = trace st
    /\ mscratch st' = mscratch st /\ tmask st' = tmask st /\ tls st' = tls st
    /\ gridDim st' = geo_gridDim geo /\ blockDim st' = geo_blockDim geo
    /\ warps_per_group_pub st'
       = if 1 <? group_size geo then warps_per_group_pub st else 0.
Proof.
  intros geo Hv Ha. unfold validated in Hv. unfold vx_spawn_threads.
  fold geo. unfold active_cores in Ha.
  destruct (Z.ltb_spec (u32 (num_warps dev * num_threads dev)) (group_size geo));
    [lia|].
  destruct (1 <? group_size geo).
  - change (gp_active_cores
              (groups_plan dev core_id (num_groups geo) (group_size geo)))
      with (gp_active_cores
              (groups_plan dev 0 (num_groups geo) (group_size geo))).
    destruct (Z.leb_spec
                (gp_active_cores
                   (groups_plan dev 0 (num_groups geo) (group_size geo)))
                core_id); [|lia].
    eexists. split; [reflexivity|]. repeat split.
  - change (tp_active_cores (threads_plan dev core_id (num_groups geo)))
      with (tp_active_cores (threads_plan dev 0 (num_groups geo))).
    destruct (Z.leb_spec
                (tp_active_cores (threads_plan dev 0 (num_groups geo)))
                core_id); [|lia].
    eexists. split; [reflexivity|]. repeat split.
Qed.

Lemma surplus_cores_idle_witness :
  let dev := mk_device 2 4 4 in
  let geo := normalize 1 (Some (arr [3])) (Some (arr [2])) boot in
  validated dev geo
  /\ active_cores dev geo <= 1
  /\ exists st',
       vx_spawn_threads 0 dev 1 1 (Some (arr [3])) (Some (arr [2]))
         (set_warps_per_group 7 boot) = Some (0, st')
       /\ trace st' = []
       /\ warps_per_group_pub st' = 7.
Proof.
  intros dev geo.
  assert (Hv : validated dev geo) by (vm_compute; discriminate).
  assert (Ha : active_cores dev geo <= 1) by (vm_compute; discriminate).
  split; [exact Hv|]. split; [exact Ha|].
  destruct (surplus_cores_idle 0 dev 1 1 (Some (arr [3])) (Some (arr [2]))
              (set_warps_per_group 7 boot) Hv Ha)
    as (st' & E & T & _ & _ & _ & _ & _ & P).
  exists st'. split; [exact E|]. split; [exact T|exact P].
Defined.

Lemma group_path_coverage_witness :
  let dev := mk_device 2 4 4 in
  let geo := normalize 1 (Some (arr [3])) (Some (arr [6])) boot in
  (validated dev geo /\ 1 < group_size geo /\ 0 < num_groups geo
   /\ 4294967296 < Z.of_nat (Z.to_nat 4294967297))
  /\ NoDup (launch_identities dev geo)
  /\ length (launch_identities dev geo) = 18%nat
  /\ map (fun x => (dim_x (fst x), dim_x (snd x))) (launch_identities dev geo)
     = [(0, 4); (0, 5); (1, 0); (1, 1); (1, 2); (1, 3); (1, 4); (1, 5);
        (0, 0); (0, 1); (0, 2); (0, 3);
        (2, 4); (2, 5); (2, 0); (2, 1); (2, 2); (2, 3)].
Proof.
  intros dev geo.
  assert (Hv : validated dev geo) by (vm_compute; discriminate).
  assert (Hg : 1 < group_size geo) by reflexivity.
  assert (Hn : 0 < num_groups geo) by reflexivity.
  pose proof big_fuel as Hf.
  split; [exact (conj Hv (conj Hg (conj Hn Hf)))|].
  split; [|split; reflexivity].
  refine (proj1 (proj2 (group_path_coverage (Z.to_nat 4294967297) dev 1
                          (Some (arr [3])) (Some (arr [6])) boot dev0_ok
                          Hv Hg Hn _ _ _ Hf))); reflexivity.
Defined.

(** ** Loops and lists, whatever the fuel *)

Lemma for_u32_preserves {S : Type} (I : S -> Prop) (body : Z -> S -> S) :
  (forall i s, I s -> I (body i s)) ->
  forall fuel i stop step s s',
    I s -> for_u32 fuel i stop step body s = Some s' -> I s'.
Proof.
  intros Hbody. induction fuel as [|fuel IH]; intros i stop step s s' Hs E.
  - discriminate.
  - cbn [for_u32] in E. destruct (i <? stop).
    + apply (IH _ _ _ _ _ (Hbody i s Hs) E).
    + injection E as <-. exact Hs.
Qed.

Lemma foreach_preserves {A S : Type} (I : S -> Prop)
      (f : A -> S -> option S) (l : list A) :
  (forall a s s', In a l -> I s -> f a s = Some s' -> I s') ->
  forall s s', I s -> foreach l f s = Some s' -> I s'.
Proof.
  induction l as [|a l IH]; intros Hf s s' Hs E.
  - injection E as <-. exact Hs.
  - cbn [foreach] in E. destruct (f a s) as [s1|] eqn:E1; [|discriminate].
    apply (IH (fun a' u u' Hin => Hf a' u u' (or_intror Hin)) s1 s').
    + apply (Hf a s s1 (or_introl eq_refl) Hs E1).
    + exact E.
Qed.

(** ** The lanes of a warp append callbacks, and nothing else *)

Lemma lane_grew_refl dev w st : lane_grew dev w st st.
Proof.
  split; [reflexivity|]. split; [reflexivity|].
  exists []. split; [symmetry; apply app_nil_r|constructor].
Qed.

Lemma lane_grew_set_tls dev w w' t f st :
  lane_grew dev w st (set_tls w' t f st).
Proof. exact (lane_grew_refl dev w st). Qed.

Lemma lane_grew_callback dev w t f st s :
  0 <= t < num_threads dev ->
  lane_grew dev w st s ->
  lane_grew dev w st (callback w t (set_tls w t f s)).
Proof.
  intros Ht (M & K & body & T & F).
  split; [exact M|]. split; [exact K|].
  exists (body ++ [ev_callback w t (tls (set_tls w t f s) w t)]). split.
  - cbn [callback emit trace set_tls]. rewrite T, app_assoc. reflexivity.
  - apply Forall_app. split; [exact F|].
    constructor; [|constructor]. eexists. eexists. split; [reflexivity|exact Ht].
Qed.

Lemma lane_grew_trans dev w st1 st2 st3 :
  lane_grew dev w st1 st2 -> lane_grew dev w st2 st3 -> lane_grew dev w st1 st3.
Proof.
  intros (M1 & K1 & b1 & T1 & F1) (M2 & K2 & b2 & T2 & F2).
  split; [congruence|]. split; [congruence|].
  exists (b1 ++ b2). split.
  - rewrite T2, T1, app_assoc. reflexivity.
  - apply Forall_app. split; assumption.
Qed.

Lemma process_threads_grows fuel dev w t st st' :
  0 <= t < num_threads dev ->
  process_threads fuel dev w t st = Some st' -> lane_grew dev w st st'.
Proof.
  intros Ht E. unfold process_threads in E.
  destruct (mscratch st) as [|a|targs] eqn:Es; try discriminate.
  cbv zeta in E.
  refine (for_u32_preserves (lane_grew dev w st) _ _ _ _ _ _ _ _ _ E).
  - intros i s Hs. apply lane_grew_callback; assumption.
  - apply lane_grew_set_tls.
Qed.

Lemma process_thread_groups_grows fuel dev w t st st' :
  0 <= t < num_threads dev ->
  process_thread_groups fuel dev w t st = Some st' -> lane_grew dev w st st'.
Proof.
  intros Ht E. unfold process_thread_groups in E.
  destruct (mscratch st) as [|targs|a] eqn:Es; try discriminate.
  cbv zeta in E.
  refine (for_u32_preserves (lane_grew dev w st) _ _ _ _ _ _ _ _ _ E).
  - intros i s Hs. apply lane_grew_callback; assumption.
  - apply lane_grew_set_tls.
Qed.

Lemma process_remaining_threads_grows dev w t st st' :
  0 <= t < num_threads dev ->
  process_remaining_threads w t st = Some st' -> lane_grew dev w st st'.
Proof.
  intros Ht E. unfold process_remaining_threads in E.
  destruct (mscratch st) as [|a|targs] eqn:Es; try discriminate.
  injection E as <-.
  split; [reflexivity|]. split; [reflexivity|].
  exists [ev_callback w t (tls st w t)]. split; [reflexivity|].
  constructor; [|constructor]. eexists. eexists. split; [reflexivity|exact Ht].
Qed.

Lemma in_lanes_of_mask tpw mask t :
  In t (lanes_of_mask tpw mask) -> 0 <= t < tpw.
Proof.
  unfold lanes_of_mask. intros H. apply filter_In in H as (H & _).
  apply in_map_iff in H as (k & <- & Hk). apply in_seq in Hk. lia.
Qed.

(** [vx_tmc(mask); body on the enabled lanes; vx_tmc(after)], whatever the
    fuel. *)
Lemma masked_section_ran dev w mask after body st st' :
  (forall t s s', 0 <= t < num_threads dev ->
     body t s = Some s' -> lane_grew dev w s s') ->
  match run_lanes dev w body (vx_tmc w mask st) with
  | Some s => Some (vx_tmc w after s)
  | None => None
  end = Some st' ->
  warp_ran dev w mask after st st'.
Proof.
  intros Hbody E.
  destruct (run_lanes dev w body (vx_tmc w mask st)) as [s1|] eqn:E1;
    [|discriminate].
  injection E as <-. unfold run_lanes in E1.
  assert (H : lane_grew dev w (vx_tmc w mask st) s1).
  { refine (foreach_preserves (lane_grew dev w (vx_tmc w mask st)) _ _ _ _ _
              (lane_grew_refl _ _ _) E1).
    intros t s s' Hin Hs Es.
    apply (lane_grew_trans _ _ _ _ _ Hs).
    apply (Hbody t s s'); [|exact Es].
    apply in_lanes_of_mask in Hin. exact Hin. }
  destruct H as (M & K & evs & T & F).
  split; [exact M|]. split.
  - intros w'. cbn [vx_tmc emit tmask]. rewrite K. cbn [vx_tmc emit tmask].
    destruct (w' =? w); reflexivity.
  - exists evs. split; [|exact F].
    cbn [vx_tmc emit trace]. rewrite T. cbn [vx_tmc emit trace].
    rewrite <- !app_assoc. reflexivity.
Qed.

(** ** The stubs *)

Lemma process_threads_stub_ran fuel dev w st st' :
  process_threads_stub fuel dev w st = Some st' ->
  warp_ran dev w (u32 (-1)) 0 st st'.
Proof.
  intros E. unfold process_threads_stub in E.
  apply (masked_section_ran dev w (u32 (-1)) 0 (process_threads fuel dev w));
    [|exact E].
  intros t s s' Ht. apply process_threads_grows. exact Ht.
Qed.

Lemma process_thread_groups_stub_ran fuel dev targs w st st' :
  mscratch st = scratch_groups targs ->
  process_thread_groups_stub fuel dev w st = Some st' ->
  warp_ran dev w (threads_mask targs w) (if 0 =? w then 1 else 0) st st'.
Proof.
  intros Hs E. unfold process_thread_groups_stub in E. rewrite Hs in E.
  apply (masked_section_ran dev w _ _ (process_thread_groups fuel dev w));
    [|exact E].
  intros t s s' Ht. apply process_thread_groups_grows. exact Ht.
Qed.

(** ** What a trace of warps projects to *)

Lemma controls_app tr1 tr2 : controls (tr1 ++ tr2) = controls tr1 ++ controls tr2.
Proof. unfold controls. apply filter_app. Qed.

Lemma controls_lanes dev w body :
  Forall (lane_event dev w) body -> controls body = [].
Proof.
  induction 1 as [|e body (t & c & -> & _) _ IH]; [reflexivity|].
  cbn. exact IH.
Qed.

Lemma warp_ran_controls dev w mask after st st' :
  warp_ran dev w mask after st st' ->
  controls (trace st')
  = controls (trace st) ++ [ev_tmc w mask; ev_tmc w after].
Proof.
  intros (_ & _ & body & -> & F).
  rewrite controls_app. f_equal.
  change (ev_tmc w mask :: body ++ [ev_tmc w after])
    with ([ev_tmc w mask] ++ body ++ [ev_tmc w after]).
  rewrite !controls_app, (controls_lanes dev w body F). reflexivity.
Qed.

Lemma grew_within_refl dev st : grew_within dev st st.
Proof. exists []. split; [symmetry; apply app_nil_r|constructor]. Qed.

Lemma grew_within_trans dev st1 st2 st3 :
  grew_within dev st1 st2 -> grew_within dev st2 st3 -> grew_within dev st1 st3.
Proof.
  intros (n1 & T1 & F1) (n2 & T2 & F2). exists (n1 ++ n2). split.
  - rewrite T2, T1, app_assoc. reflexivity.
  - apply Forall_app. split; assumption.
Qed.

Lemma grew_within_emit dev e st :
  within_hardware dev e -> grew_within dev st (emit e st).
Proof.
  intros H. exists [e]. split; [reflexivity|]. constructor; [exact H|constructor].
Qed.

Lemma warp_ran_within dev w mask after st st' :
  0 <= w < num_warps dev ->
  0 <= mask < 4294967296 -> 0 <= after < 4294967296 ->
  warp_ran dev w mask after st st' -> grew_within dev st st'.
Proof.
  intros Hw Hm Ha (_ & _ & body & T & F).
  exists (ev_tmc w mask :: body ++ [ev_tmc w after]). split; [exact T|].
  constructor; [split; assumption|].
  apply Forall_app. split.
  - eapply Forall_impl; [|exact F].
    intros e (t & c & -> & Ht). split; assumption.
  - constructor; [split; assumption|constructor].
Qed.

(** ** The warps a spawn starts *)

Lemma warps_ran dev (mask after : Z -> Z) (m : scratch_t)
      (f : Z -> core_state -> option core_state) (ws : list Z) :
  (forall w s s', In w ws -> mscratch s = m -> f w s = Some s' ->
     warp_ran dev w (mask w) (after w) s s') ->
  NoDup ws ->
  forall st st',
    mscratch st = m ->
    foreach ws f st = Some st' ->
    mscratch st' = m
    /\ (forall w, In w ws -> tmask st' w = after w)
    /\ (forall w, ~ In w ws -> tmask st' w = tmask st w)
    /\ controls (trace st')
       = controls (trace st)
         ++ flat_map (fun w => [ev_tmc w (mask w); ev_tmc w (after w)]) ws.
Proof.
  induction ws as [|w ws IH]; intros Hf Hnd st st' Hm E.
  - injection E as <-. cbn. rewrite app_nil_r.
    split; [exact Hm|]. repeat split; intros w [].
  - cbn [foreach] in E. destruct (f w st) as [s1|] eqn:E1; [|discriminate].
    inversion Hnd as [|? ? Hnotin Hnd']. subst.
    pose proof (Hf w st s1 (or_introl eq_refl) eq_refl E1) as R.
    pose proof (warp_ran_controls _ _ _ _ _ _ R) as C1.
    destruct R as (M1 & K1 & _).
    destruct (IH (fun w' s s' Hin => Hf w' s s' (or_intror Hin)) Hnd' s1 st'
                M1 E)
      as (M2 & Kin & Kout & C2).
    split; [exact M2|]. split; [|split].
    + intros w' [<-|Hin].
      * rewrite (Kout w Hnotin), K1, Z.eqb_refl. reflexivity.
      * apply Kin. exact Hin.
    + intros w' Hout.
      rewrite (Kout w' (fun H => Hout (or_intror H))), K1.
      destruct (Z.eqb_spec w' w) as [->|]; [|reflexivity].
      exfalso. apply Hout. left. reflexivity.
    + rewrite C2, C1. cbn [flat_map]. rewrite <- app_assoc. reflexivity.
Qed.

Lemma warps_within dev (I : core_state -> Prop)
      (f : Z -> core_state -> option core_state) (ws : list Z) :
  (forall w s s', In w ws -> I s -> f w s = Some s' ->
     I s' /\ grew_within dev s s') ->
  forall st st',
    I st -> foreach ws f st = Some st' -> I st' /\ grew_within dev st st'.
Proof.
  intros Hf st st' Hst E.
  refine (foreach_preserves (fun s => I s /\ grew_within dev st s) f ws _ st st'
            (conj Hst (grew_within_refl dev st)) E).
  intros w s s' Hin (Hs & G) Es.
  destruct (Hf w s s' Hin Hs Es) as (Hs' & G').
  split; [exact Hs'|]. apply (grew_within_trans _ _ _ _ G G').
Qed.

Lemma in_siblings n w : In w (siblings n) <-> 1 <= w < n.
Proof.
  unfold siblings. rewrite in_map_iff. split.
  - intros (k & <- & Hk). apply in_seq in Hk. lia.
  - intros H. exists (Z.to_nat w). split; [lia|]. apply in_seq. lia.
Qed.

Lemma NoDup_siblings n : NoDup (siblings n).
Proof.
  unfold siblings. apply NoDup_map_on; [|apply seq_NoDup].
  intros u v _ _ H. lia.
Qed.

(** ** The group path, whatever the fuel *)

Lemma flat_map_agree {A B : Type} (f g : A -> list B) (l : list A) :
  (forall a, In a l -> f a = g a) -> flat_map f l = flat_map g l.
Proof.
  induction l as [|a l IH]; intros H; [reflexivity|].
  cbn [flat_map]. rewrite (H a (or_introl eq_refl)).
  rewrite IH; [reflexivity|]. intros b Hb. apply H. right. exact Hb.
Qed.

Lemma sibling_masks (mask : Z -> Z) n :
  flat_map (fun w => [ev_tmc w (mask w); ev_tmc w (if 0 =? w then 1 else 0)])
           (siblings n)
  = flat_map (fun w => [ev_tmc w (mask w); ev_tmc w 0]) (siblings n).
Proof.
  apply flat_map_agree. intros w Hw. apply in_siblings in Hw.
  destruct (Z.eqb_spec 0 w); [lia|reflexivity].
Qed.

Lemma spawn_groups_ran fuel dev p st st' :
  spawn_groups fuel dev p st = Some st' ->
  let targs := groups_args p in
  let A := gp_active_warps p in
  mscratch st' = scratch_groups targs
  /\ tmask st' 0 = 1
  /\ (forall w, w <> 0 ->
        tmask st' w = if (1 <=? w) && (w <? A) then 0 else tmask st w)
  /\ controls (trace st')
     = controls (trace st)
       ++ ev_wspawn A entry_groups_stub
          :: flat_map (fun w => [ev_tmc w (threads_mask targs w); ev_tmc w 0])
                      (siblings A)
          ++ [ev_tmc 0 (threads_mask targs 0); ev_tmc 0 1].
Proof.
  intros E targs A. unfold spawn_groups in E. fold targs A in E.
  set (st2 := set_warps_per_group (gp_warps_per_group p)
                (csr_write (scratch_groups targs) st)) in E.
  destruct (vx_wspawn fuel dev A entry_groups_stub st2) as [st3|] eqn:E3;
    [|discriminate].
  unfold vx_wspawn in E3.
  destruct (warps_ran dev (threads_mask targs)
              (fun w => if 0 =? w then 1 else 0) (scratch_groups targs)
              (run_entry fuel dev entry_groups_stub) (siblings A))
    with (st := emit (ev_wspawn A entry_groups_stub) st2) (st' := st3)
    as (M3 & Kin & Kout & C3).
  - intros w s s' _ Hs Es.
    apply (process_thread_groups_stub_ran fuel dev targs w s s' Hs Es).
  - apply NoDup_siblings.
  - reflexivity.
  - exact E3.
  - pose proof (process_thread_groups_stub_ran fuel dev targs 0 st3 st' M3 E)
      as R.
    pose proof (warp_ran_controls _ _ _ _ _ _ R) as C.
    destruct R as (M & K & _).
    split; [congruence|]. split; [rewrite K; reflexivity|]. split.
    + intros w Hw. rewrite K.
      destruct (Z.eqb_spec w 0) as [->|_]; [contradiction|].
      destruct (Z.leb_spec 1 w) as [L1|L1];
        destruct (Z.ltb_spec w A) as [L2|L2]; cbn [andb].
      * rewrite (Kin w) by (apply in_siblings; lia).
        destruct (Z.eqb_spec 0 w); [lia|reflexivity].
      * rewrite (Kout w) by (rewrite in_siblings; lia). reflexivity.
      * rewrite (Kout w) by (rewrite in_siblings; lia). reflexivity.
      * rewrite (Kout w) by (rewrite in_siblings; lia). reflexivity.
    + rewrite C, C3, sibling_masks.
      cbn [emit trace st2 set_warps_per_group csr_write].
      rewrite controls_app. cbn [controls filter].
      rewrite <- !app_assoc. reflexivity.
Qed.

Lemma threads_mask_range dev core_id n gs w :
  0 <= threads_mask (groups_args (groups_plan dev core_id n gs)) w
  < 4294967296.
Proof.
  unfold threads_mask, groups_args, groups_plan.
  cbn [g_warps_per_group g_remaining_mask].
  destruct (_ =? u32 _); [destruct (_ =? 0)|]; apply u32_range.
Qed.

Lemma grew_within_same_trace dev st s s' :
  trace s' = trace s -> grew_within dev st s -> grew_within dev st s'.
Proof. intros E (new & T & F). exists new. split; [congruence|exact F]. Qed.

Lemma grew_within_from dev st0 st s :
  trace st0 = trace st -> grew_within dev st0 s -> grew_within dev st s.
Proof. intros E (new & T & F). exists new. split; [congruence|exact F]. Qed.

Lemma spawn_groups_within fuel dev p st st' :
  1 <= num_warps dev ->
  0 <= gp_active_warps p <= num_warps dev ->
  (forall w, 0 <= threads_mask (groups_args p) w < 4294967296) ->
  spawn_groups fuel dev p st = Some st' ->
  grew_within dev st st'.
Proof.
  intros Hwpc HA Hmask E. unfold spawn_groups in E.
  set (targs := groups_args p) in *. set (A := gp_active_warps p) in *.
  set (st2 := set_warps_per_group (gp_warps_per_group p)
                (csr_write (scratch_groups targs) st)) in E.
  destruct (vx_wspawn fuel dev A entry_groups_stub st2) as [st3|] eqn:E3;
    [|discriminate].
  unfold vx_wspawn in E3.
  destruct (warps_within dev (fun s => mscratch s = scratch_groups targs)
              (run_entry fuel dev entry_groups_stub) (siblings A))
    with (st := emit (ev_wspawn A entry_groups_stub) st2) (st' := st3)
    as (M3 & G3).
  - intros w s s' Hin Hs Es. apply in_siblings in Hin.
    pose proof (process_thread_groups_stub_ran fuel dev targs w s s' Hs Es)
      as R.
    split; [destruct R as (M & _); congruence|].
    apply (warp_ran_within dev w (threads_mask targs w)
             (if 0 =? w then 1 else 0) s s');
      [lia|apply Hmask|destruct (0 =? w); lia|exact R].
  - reflexivity.
  - exact E3.
  - pose proof (process_thread_groups_stub_ran fuel dev targs 0 st3 st' M3 E)
      as R.
    apply (warp_ran_within dev 0 (threads_mask targs 0) 1 st3 st') in R;
      [|lia|apply Hmask|lia].
    apply (grew_within_trans dev st (emit (ev_wspawn A entry_groups_stub) st2)).
    + exists [ev_wspawn A entry_groups_stub]. split; [reflexivity|].
      constructor; [exact HA|constructor].
    + apply (grew_within_trans dev _ st3 _ G3 R).
Qed.

(** ** The task path, whatever the fuel *)

Lemma spawn_full_warps_ran fuel dev p st st' :
  spawn_full_warps fuel dev p st = Some st' ->
  let A := tp_active_warps p in
  mscratch st' = mscratch st
  /\ (1 <= A -> tmask st' 0 = 1)
  /\ (A < 1 -> tmask st' 0 = tmask st 0)
  /\ (forall w, w <> 0 ->
        tmask st' w = if (1 <=? w) && (w <? A) then 0 else tmask st w)
  /\ controls (trace st')
     = controls (trace st)
       ++ (if 1 <=? A
           then ev_wspawn A entry_threads_stub
                :: flat_map (fun w => [ev_tmc w (u32 (-1)); ev_tmc w 0])
                            (siblings A)
                ++ [ev_tmc 0 (u32 (-1)); ev_tmc 0 1]
           else []).
Proof.
  intros E A. unfold spawn_full_warps in E. fold A in E.
  destruct (Z.leb_spec 1 A) as [L|L].
  - destruct (vx_wspawn fuel dev A entry_threads_stub st) as [st1|] eqn:E1;
      [|discriminate].
    unfold vx_wspawn in E1.
    destruct (warps_ran dev (fun _ => u32 (-1)) (fun _ => 0) (mscratch st)
                (run_entry fuel dev entry_threads_stub) (siblings A))
      with (st := emit (ev_wspawn A entry_threads_stub) st) (st' := st1)
      as (M1 & Kin & Kout & C1).
    + intros w s s' _ _ Es.
      apply (process_threads_stub_ran fuel dev w s s' Es).
    + apply NoDup_siblings.
    + reflexivity.
    + exact E1.
    + pose proof (masked_section_ran dev 0 (u32 (-1)) 1
                    (process_threads fuel dev 0) st1 st'
                    (fun t s s' Ht => process_threads_grows fuel dev 0 t s s' Ht)
                    E) as R.
      pose proof (warp_ran_controls _ _ _ _ _ _ R) as C.
      destruct R as (M & K & _).
      split; [congruence|]. split; [intros _; rewrite K; reflexivity|].
      split; [lia|]. split.
      * intros w Hw. rewrite K.
        destruct (Z.eqb_spec w 0) as [->|_]; [contradiction|].
        destruct (Z.leb_spec 1 w) as [L1|L1];
          destruct (Z.ltb_spec w A) as [L2|L2]; cbn [andb].
        -- apply (Kin w). apply in_siblings. lia.
        -- rewrite (Kout w) by (rewrite in_siblings; lia). reflexivity.
        -- rewrite (Kout w) by (rewrite in_siblings; lia). reflexivity.
        -- rewrite (Kout w) by (rewrite in_siblings; lia). reflexivity.
      * rewrite C, C1. cbn [emit trace]. rewrite controls_app.
        cbn [controls filter]. rewrite <- !app_assoc. reflexivity.
  - injection E as <-. split; [reflexivity|]. split; [lia|].
    split; [reflexivity|]. split.
    + intros w _. destruct (Z.ltb_spec w A); [|rewrite andb_false_r; reflexivity].
      destruct (Z.leb_spec 1 w); [lia|reflexivity].
    + rewrite app_nil_r. reflexivity.
Qed.

Lemma spawn_tail_ran dev p st st' :
  spawn_tail dev p st = Some st' ->
  let r := tp_remaining_tasks p in
  mscratch st' = mscratch st
  /\ (r <> 0 -> tmask st' 0 = 1)
  /\ (r = 0 -> tmask st' 0 = tmask st 0)
  /\ (forall w, w <> 0 -> tmask st' w = tmask st w)
  /\ controls (trace st')
     = controls (trace st)
       ++ (if r =? 0 then []
           else [ev_tmc 0 (u32 (Z.shiftl 1 r - 1)); ev_tmc 0 1]).
Proof.
  intros E r. unfold spawn_tail in E. fold r in E.
  destruct (Z.eqb_spec r 0) as [E0|E0].
  - injection E as <-. rewrite app_nil_r. repeat split; lia.
  - pose proof (masked_section_ran dev 0 (u32 (Z.shiftl 1 r - 1)) 1
                  (process_remaining_threads 0) st st'
                  (fun t s s' Ht =>
                     process_remaining_threads_grows dev 0 t s s' Ht) E) as R.
    pose proof (warp_ran_controls _ _ _ _ _ _ R) as C.
    destruct R as (M & K & _).
    split; [exact M|]. split; [intros _; rewrite K; reflexivity|].
    split; [lia|]. split; [|exact C].
    intros w Hw. rewrite K. destruct (Z.eqb_spec w 0); [contradiction|].
    reflexivity.
Qed.

Lemma spawn_tasks_within fuel dev p st st' :
  1 <= num_warps dev ->
  tp_active_warps p <= num_warps dev ->
  spawn_tasks fuel dev p st = Some st' ->
  grew_within dev st st'.
Proof.
  intros Hwpc HA E. unfold spawn_tasks in E.
  set (st1 := csr_write (scratch_threads (threads_args p)) st) in E.
  destruct (spawn_full_warps fuel dev p st1) as [st2|] eqn:E2; [|discriminate].
  assert (G2 : grew_within dev st st2).
  { unfold spawn_full_warps in E2.
    destruct (Z.leb_spec 1 (tp_active_warps p)) as [L|L].
    - destruct (vx_wspawn fuel dev (tp_active_warps p) entry_threads_stub st1)
        as [s1|] eqn:E1; [|discriminate].
      unfold vx_wspawn in E1.
      destruct (warps_within dev (fun _ => True)
                  (run_entry fuel dev entry_threads_stub)
                  (siblings (tp_active_warps p)))
        with (st := emit (ev_wspawn (tp_active_warps p) entry_threads_stub) st1)
             (st' := s1) as (_ & G1).
      + intros w s s' Hin _ Es. apply in_siblings in Hin.
        split; [exact I|].
        apply (warp_ran_within dev w (u32 (-1)) 0 s s'); try lia;
          [apply u32_range|].
        apply (process_threads_stub_ran fuel dev w s s' Es).
      + exact I.
      + exact E1.
      + pose proof (masked_section_ran dev 0 (u32 (-1)) 1
                      (process_threads fuel dev 0) s1 st2
                      (fun t s s' Ht =>
                         process_threads_grows fuel dev 0 t s s' Ht) E2) as R.
        apply (warp_ran_within dev 0 (u32 (-1)) 1 s1 st2) in R;
          [|lia|apply u32_range|lia].
        apply (grew_within_trans dev st
                 (emit (ev_wspawn (tp_active_warps p) entry_threads_stub) st1)).
        * exists [ev_wspawn (tp_active_warps p) entry_threads_stub].
          split; [reflexivity|]. constructor; [cbn; lia|constructor].
        * apply (grew_within_trans dev _ s1 _ G1 R).
    - injection E2 as <-. exact (grew_within_refl dev st). }
  apply (grew_within_trans dev st st2 st' G2).
  unfold spawn_tail in E.
  destruct (tp_remaining_tasks p =? 0).
  - injection E as <-. apply grew_within_refl.
  - pose proof (masked_section_ran dev 0 _ 1
                  (process_remaining_threads 0) st2 st'
                  (fun t s s' Ht =>
                     process_remaining_threads_grows dev 0 t s s' Ht) E) as R.
    apply (warp_ran_within dev 0 _ 1 st2 st') in R;
      [exact R|lia|apply u32_range|lia].
Qed.

Lemma groups_active_warps_le dev core_id n gs :
  device_ok dev ->
  1 < gs <= u32 (num_warps dev * num_threads dev) ->
  0 <= gp_active_warps (groups_plan dev core_id n gs) <= num_warps dev.
Proof.
  intros Hdev Hgs.
  pose proof (batch_fits dev Hdev core_id n gs Hgs) as (_ & Hb).
  pose proof (u32_range (gp_total_groups_per_core (groups_plan dev core_id n gs)
                         * gp_warps_per_group (groups_plan dev core_id n gs)))
    as Ht.
  change (u32 (gp_total_groups_per_core (groups_plan dev core_id n gs)
               * gp_warps_per_group (groups_plan dev core_id n gs)))
    with (gp_total_warps (groups_plan dev core_id n gs)) in Ht.
  destruct (schedule_cases dev Hdev core_id n gs Hgs)
    as [(L & Ea & _)|(L & Ea & _)]; rewrite Ea; lia.
Qed.

Lemma tasks_active_warps_le dev core_id n :
  tp_active_warps (threads_plan dev core_id n) <= num_warps dev.
Proof.
  destruct (task_schedule_cases dev core_id n) as [(L & -> & _)|(L & -> & _)];
    lia.
Qed.

Lemma launch_within fuel dev core_id dimension grid_dim block_dim st r st' :
  device_ok dev ->
  vx_spawn_threads fuel dev core_id dimension grid_dim block_dim st
  = Some (r, st') ->
  grew_within dev st st'.
Proof.
  intros Hdev E. pose proof Hdev as [_ Hw _ _].
  unfold vx_spawn_threads in E.
  set (geo := normalize dimension grid_dim block_dim st) in E.
  set (st0 := set_dims (geo_gridDim geo) (geo_blockDim geo) st) in E.
  destruct (Z.ltb_spec (u32 (num_warps dev * num_threads dev)) (group_size geo))
    as [Hbig|Hfits].
  - injection E as _ <-. eexists. split; [reflexivity|].
    constructor; [exact I|constructor].
  - destruct (Z.ltb_spec 1 (group_size geo)) as [G|G].
    + destruct (_ <=? core_id).
      * injection E as _ <-. exact (grew_within_refl dev st).
      * destruct (spawn_groups fuel dev _ st0) as [s1|] eqn:E1; [|discriminate].
        cbn [vx_wspawn siblings foreach Z.to_nat Pos.to_nat Pos.iter_op
             Nat.sub seq map] in E.
        injection E as _ <-.
        apply (grew_within_trans dev st s1).
        -- apply (grew_within_from dev st0 st s1 eq_refl).
           apply (spawn_groups_within fuel dev
                    (groups_plan dev core_id (num_groups geo) (group_size geo))
                    st0 s1 Hw);
             [apply groups_active_warps_le; [assumption|lia]
             |apply threads_mask_range|exact E1].
        -- apply grew_within_emit. cbn. lia.
    + destruct (_ <=? core_id).
      * injection E as _ <-. exact (grew_within_refl dev st).
      * destruct (spawn_tasks fuel dev _ _) as [s1|] eqn:E1; [|discriminate].
        cbn [vx_wspawn siblings foreach Z.to_nat Pos.to_nat Pos.iter_op
             Nat.sub seq map] in E.
        injection E as _ <-.
        apply (grew_within_trans dev st s1).
        -- apply (grew_within_from dev (set_warps_per_group 0 st0) st s1
                    eq_refl).
           apply (spawn_tasks_within fuel dev
                    (threads_plan dev core_id (num_groups geo))
                    (set_warps_per_group 0 st0) s1 Hw
                    (tasks_active_warps_le dev core_id (num_groups geo)) E1).
        -- apply grew_within_emit. cbn. lia.
Qed.

(** ** The launcher on an active core, whatever the fuel *)

Lemma launch_groups_inv fuel dev core_id dimension grid_dim block_dim st r st' :
  let geo := normalize dimension grid_dim block_dim st in
  let p := groups_plan dev core_id (num_groups geo) (group_size geo) in
  validated dev geo ->
  1 < group_size geo ->
  0 <= core_id < active_cores dev geo ->
  vx_spawn_threads fuel dev core_id dimension grid_dim block_dim st
  = Some (r, st') ->
  exists s1,
    spawn_groups fuel dev p
      (set_dims (geo_gridDim geo) (geo_blockDim geo) st) = Some s1
    /\ st' = emit (ev_wspawn 1 entry_null) s1.
Proof.
  intros geo p Hv G Ha E. unfold validated in Hv. unfold active_cores in Ha.
  unfold vx_spawn_threads in E. fold geo in E.
  destruct (Z.ltb_spec (u32 (num_warps dev * num_threads dev)) (group_size geo));
    [lia|].
  destruct (Z.ltb_spec 1 (group_size geo)); [|lia].
  fold p in E.
  change (gp_active_cores (groups_plan dev 0 (num_groups geo) (group_size geo)))
    with (gp_active_cores p) in Ha.
  destruct (Z.leb_spec (gp_active_cores p) core_id); [lia|].
  destruct (spawn_groups fuel dev p _) as [s1|]; [|discriminate].
  exists s1. split; [reflexivity|].
  cbn [vx_wspawn siblings foreach Z.to_nat Pos.to_nat Pos.iter_op
       Nat.sub seq map] in E.
  injection E as _ <-. reflexivity.
Qed.

Lemma launch_tasks_inv fuel dev core_id dimension grid_dim block_dim st r st' :
  let geo := normalize dimension grid_dim block_dim st in
  let p := threads_plan dev core_id (num_groups geo) in
  validated dev geo ->
  group_size geo <= 1 ->
  0 <= core_id < active_cores dev geo ->
  vx_spawn_threads fuel dev core_id dimension grid_dim block_dim st
  = Some (r, st') ->
  exists s1,
    spawn_tasks fuel dev p
      (set_warps_per_group 0
         (set_dims (geo_gridDim geo) (geo_blockDim geo) st)) = Some s1
    /\ st' = emit (ev_wspawn 1 entry_null) s1.
Proof.
  intros geo p Hv G Ha E. unfold validated in Hv. unfold active_cores in Ha.
  unfold vx_spawn_threads in E. fold geo in E.
  destruct (Z.ltb_spec (u32 (num_warps dev * num_threads dev)) (group_size geo));
    [lia|].
  destruct (Z.ltb_spec 1 (group_size geo)); [lia|].
  fold p in E.
  change (tp_active_cores (threads_plan dev 0 (num_groups geo)))
    with (tp_active_cores p) in Ha.
  destruct (Z.leb_spec (tp_active_cores p) core_id); [lia|].
  destruct (spawn_tasks fuel dev p _) as [s1|]; [|discriminate].
  exists s1. split; [reflexivity|].
  cbn [vx_wspawn siblings foreach Z.to_nat Pos.to_nat Pos.iter_op
       Nat.sub seq map] in E.
  injection E as _ <-. reflexivity.
Qed.

(** X11 - the control protocol of the group path.  On an active core a
    launch of multi-thread blocks spawns [active_warps] warps (at most
    [warps_per_core]) on [process_thread_groups_stub]; every spawned warp
    sets its lane mask, runs, and disables itself with mask 0; warp 0 then
    does the same and ends with mask 1; the launcher joins with
    [vx_wspawn(1, 0)].  No other spawn, mask or print event occurs, and the
    scratch register is left pointing at the descriptor of the launch. *)
Theorem group_path_protocol fuel dev core_id dimension grid_dim block_dim st :
  device_ok dev ->
  let geo := normalize dimension grid_dim block_dim st in
  let p := groups_plan dev core_id (num_groups geo) (group_size geo) in
  let targs := groups_args p in
  let A := gp_active_warps p in
  validated dev geo ->
  1 < group_size geo ->
  0 <= core_id < active_cores dev geo ->
  4294967296 < Z.of_nat fuel ->
  exists st',
    vx_spawn_threads fuel dev core_id dimension grid_dim block_dim st
    = Some (0, st')
    /\ controls (trace st')
       = controls (trace st)
         ++ ev_wspawn A entry_groups_stub
            :: flat_map (fun w => [ev_tmc w (threads_mask targs w); ev_tmc w 0])
                        (siblings A)
            ++ [ev_tmc 0 (threads_mask targs 0); ev_tmc 0 1;
                ev_wspawn 1 entry_null]
    /\ 0 <= A <= num_warps dev
    /\ mscratch st' = scratch_groups targs.
Proof.
  intros Hdev geo p targs A Hv G Ha Hfuel.
  destruct (launch_groups_active fuel dev core_id dimension grid_dim block_dim
              st Hdev Hv G Ha Hfuel) as (st' & E & _).
  exists st'. split; [exact E|].
  destruct (launch_groups_inv fuel dev core_id dimension grid_dim block_dim st
              0 st' Hv G Ha E) as (s1 & E1 & ->).
  fold geo p in E1.
  destruct (spawn_groups_ran fuel dev p _ s1 E1) as (M & _ & _ & C).
  fold targs A in M, C.
  split; [|split].
  - cbn [emit trace]. rewrite controls_app, C. cbn [set_dims trace].
    cbn [controls filter]. rewrite <- app_assoc. cbn [app].
    rewrite <- app_assoc. reflexivity.
  - apply groups_active_warps_le; [exact Hdev|]. unfold validated in Hv. lia.
  - exact M.
Qed.

(** X12 - the control protocol of the task path.  On an active core a
    launch of single-thread blocks spawns the full warps only when there is
    one ([active_warps >= 1]): each spawned warp enables all lanes and
    disables itself, warp 0 enables all lanes and ends with mask 1.  A tail
    of [r] tasks, [0 < r < threads_per_warp], runs on warp 0 under the mask
    [2^r - 1], followed by mask 1.  The launcher joins with
    [vx_wspawn(1, 0)].  An active core has a full warp or a tail. *)
Theorem task_path_protocol fuel dev core_id dimension grid_dim block_dim st :
  device_ok dev ->
  let geo := normalize dimension grid_dim block_dim st in
  let p := threads_plan dev core_id (num_groups geo) in
  let A := tp_active_warps p in
  let r := tp_remaining_tasks p in
  group_size geo <= 1 ->
  0 <= core_id < active_cores dev geo ->
  num_groups geo < Z.of_nat fuel ->
  exists st',
    vx_spawn_threads fuel dev core_id dimension grid_dim block_dim st
    = Some (0, st')
    /\ controls (trace st')
       = controls (trace st)
         ++ (if 1 <=? A
             then ev_wspawn A entry_threads_stub
                  :: flat_map (fun w => [ev_tmc w 4294967295; ev_tmc w 0])
                              (siblings A)
                  ++ [ev_tmc 0 4294967295; ev_tmc 0 1]
             else [])
         ++ (if r =? 0 then [] else [ev_tmc 0 (2 ^ r - 1); ev_tmc 0 1])
         ++ [ev_wspawn 1 entry_null]
    /\ 0 <= A <= num_warps dev
    /\ 0 <= r < num_threads dev
    /\ (1 <= A \/ 1 <= r)
    /\ mscratch st' = scratch_threads (threads_args p).
Proof.
  intros Hdev geo p A r G Ha Hfuel.
  pose proof (task_path_validated dev geo Hdev G) as Hv.
  pose proof (num_groups_range dimension grid_dim block_dim st) as Hn.
  fold geo in Hn.
  assert (Hact : 0 <= core_id < tp_active_cores p).
  { unfold active_cores in Ha.
    destruct (Z.ltb_spec 1 (group_size geo)); [lia|exact Ha]. }
  destruct (launch_tasks_active fuel dev core_id dimension grid_dim block_dim
              st Hdev Hv G Ha Hfuel) as (st' & E & _).
  exists st'. split; [exact E|].
  destruct (launch_tasks_inv fuel dev core_id dimension grid_dim block_dim st
              0 st' Hv G Ha E) as (s1 & E1 & ->).
  fold geo p in E1. unfold spawn_tasks in E1.
  destruct (spawn_full_warps fuel dev p _) as [s2|] eqn:E2; [|discriminate].
  destruct (spawn_full_warps_ran fuel dev p _ s2 E2) as (M2 & _ & _ & _ & C2).
  destruct (spawn_tail_ran dev p s2 s1 E1) as (M1 & _ & _ & _ & C1).
  fold A in C2. fold r in C1.
  pose proof (task_warps dev Hdev core_id (num_groups geo) Hn Hact)
    as (EP & Hr & HW).
  pose proof (task_schedule dev Hdev core_id (num_groups geo) Hn Hact)
    as (HA & _ & HA0 & _).
  pose proof (tasks_per_core_pos dev core_id (num_groups geo) Hdev Hn Hact)
    as HP.
  fold p in EP, Hr, HW, HA, HA0, HP. fold A in HA, HA0. fold r in EP, Hr.
  destruct Hdev as [_ _ Ht _].
  split; [|split; [exact HA|split; [exact Hr|split]]].
  - cbn [emit trace]. rewrite controls_app, C1, C2.
    cbn [csr_write set_warps_per_group set_dims trace].
    cbn [controls filter]. rewrite <- !app_assoc. do 2 f_equal.
    destruct (Z.eqb_spec r 0) as [E0|E0]; [reflexivity|].
    rewrite low_mask_u32 by lia. rewrite Z.ones_equiv. unfold Z.pred.
    reflexivity.
  - destruct (Z_lt_le_dec A 1) as [L|L]; [right|left; exact L].
    assert (A = 0) by lia. rewrite (HA0 ltac:(assumption)) in EP. lia.
  - cbn [emit mscratch]. rewrite M1, M2. reflexivity.
Qed.

(** X13 - the thread masks a launch leaves.  When a launch returns on an
    active core, warp 0 has exactly lane 0 enabled (mask 1), every warp the
    launch spawned (ids 1 to [active_warps - 1]) is disabled (mask 0), and
    the mask of every other warp is as it was. *)
Theorem launch_restores_masks fuel dev core_id dimension grid_dim block_dim st :
  device_ok dev ->
  let geo := normalize dimension grid_dim block_dim st in
  let A :=
    if 1 <? group_size geo
    then gp_active_warps
           (groups_plan dev core_id (num_groups geo) (group_size geo))
    else tp_active_warps (threads_plan dev core_id (num_groups geo)) in
  validated dev geo ->
  0 <= core_id < active_cores dev geo ->
  4294967296 < Z.of_nat fuel ->
  exists st',
    vx_spawn_threads fuel dev core_id dimension grid_dim block_dim st
    = Some (0, st')
    /\ tmask st' 0 = 1
    /\ (forall w, 1 <= w < A -> tmask st' w = 0)
    /\ (forall w, w < 0 \/ (1 <= w /\ A <= w) -> tmask st' w = tmask st w).
Proof.
  intros Hdev geo A Hv Ha Hfuel.
  pose proof (num_groups_range dimension grid_dim block_dim st) as Hn.
  fold geo in Hn.
  destruct (launch_returns fuel dev core_id dimension grid_dim block_dim st
              Hdev Hv ltac:(lia) Hfuel) as (st' & E).
  exists st'. split; [exact E|].
  assert (Hmasks : tmask st' 0 = 1
            /\ forall w, w <> 0 ->
                 tmask st' w
                 = if (1 <=? w) && (w <? A) then 0 else tmask st w).
  { unfold A. destruct (Z.ltb_spec 1 (group_size geo)) as [G|G].
    - destruct (launch_groups_inv fuel dev core_id dimension grid_dim
                  block_dim st 0 st' Hv G Ha E) as (s1 & E1 & ->).
      fold geo in E1.
      destruct (spawn_groups_ran fuel dev _ _ s1 E1) as (_ & K0 & K & _).
      split; [exact K0|exact K].
    - destruct (launch_tasks_inv fuel dev core_id dimension grid_dim
                  block_dim st 0 st' Hv G Ha E) as (s1 & E1 & ->).
      fold geo in E1. unfold spawn_tasks in E1.
      set (p := threads_plan dev core_id (num_groups geo)) in *.
      destruct (spawn_full_warps fuel dev p _) as [s2|] eqn:E2; [|discriminate].
      destruct (spawn_full_warps_ran fuel dev p _ s2 E2)
        as (_ & K1 & K2 & K3 & _).
      destruct (spawn_tail_ran dev p s2 s1 E1) as (_ & T1 & T2 & T3 & _).
      assert (Hact : 0 <= core_id < tp_active_cores p).
      { unfold active_cores in Ha.
        destruct (Z.ltb_spec 1 (group_size geo)); [lia|exact Ha]. }
      pose proof (task_warps dev Hdev core_id (num_groups geo) Hn Hact)
        as (EP & Hr & HW).
      pose proof (task_schedule dev Hdev core_id (num_groups geo) Hn Hact)
        as (HA & _ & HA0 & _).
      pose proof (tasks_per_core_pos dev core_id (num_groups geo) Hdev Hn Hact)
        as HP.
      fold p in EP, Hr, HW, HA, HA0, HP.
      cbn [emit tmask]. split.
      + destruct (Z.eq_dec (tp_remaining_tasks p) 0) as [E0|E0].
        * rewrite (T2 E0). apply K1.
          destruct (Z_lt_le_dec (tp_active_warps p) 1) as [L|L]; [|exact L].
          assert (EA : tp_active_warps p = 0) by lia.
          rewrite (HA0 EA) in EP. lia.
        * apply (T1 E0).
      + intros w Hw. rewrite (T3 w Hw). apply (K3 w Hw). }
  destruct Hmasks as (K0 & K). split; [exact K0|]. split.
  - intros w Hw. rewrite (K w) by lia.
    destruct (Z.leb_spec 1 w); [|lia]. destruct (Z.ltb_spec w A); [|lia].
    reflexivity.
  - intros w Hw. rewrite (K w) by lia.
    destruct (Z.leb_spec 1 w); destruct (Z.ltb_spec w A); cbn [andb];
      try reflexivity; lia.
Qed.

(** X14 - a launch stays within the device.  Whatever the geometry, the
    events a call of [vx_spawn_threads] adds to the trace of a core ask for
    at most [warps_per_core] warps, set 32-bit masks on warps below
    [warps_per_core] only, and run the callback only on lanes below
    [threads_per_warp] of warps below [warps_per_core]. *)
Theorem launch_stays_within_device fuel dev core_id dimension grid_dim
        block_dim st :
  device_ok dev ->
  0 <= core_id ->
  4294967296 < Z.of_nat fuel ->
  exists r st' new,
    vx_spawn_threads fuel dev core_id dimension grid_dim block_dim st
    = Some (r, st')
    /\ trace st' = trace st ++ new
    /\ Forall (within_hardware dev) new.
Proof.
  intros Hdev Hc Hfuel.
  set (geo := normalize dimension grid_dim block_dim st).
  assert (Hrun : exists r st',
            vx_spawn_threads fuel dev core_id dimension grid_dim block_dim st
            = Some (r, st')).
  { destruct (Z_le_gt_dec (group_size geo)
                (u32 (num_warps dev * num_threads dev))) as [L|L].
    - destruct (launch_returns fuel dev core_id dimension grid_dim block_dim st
                  Hdev L Hc Hfuel) as (st' & E).
      exists 0, st'. exact E.
    - eexists. eexists.
      apply (launch_oversize fuel dev core_id dimension grid_dim block_dim st).
      unfold validated. fold geo. lia. }
  destruct Hrun as (r & st' & E).
  destruct (launch_within fuel dev core_id dimension grid_dim block_dim st r st'
              Hdev E) as (new & T & F).
  exists r, st', new. split; [exact E|]. split; [exact T|exact F].
Qed.

Lemma group_path_protocol_witness :
  let dev := mk_device 2 4 4 in
  let geo := normalize 1 (Some (arr [3])) (Some (arr [6])) boot in
  (validated dev geo /\ 1 < group_size geo /\ 0 <= 0 < active_cores dev geo)
  /\ exists st',
       vx_spawn_threads (Z.to_nat 4294967297) dev 0 1 (Some (arr [3]))
                        (Some (arr [6])) boot = Some (0, st')
       /\ controls (trace st')
          = [ev_wspawn 4 entry_groups_stub;
             ev_tmc 1 3; ev_tmc 1 0;
             ev_tmc 2 4294967295; ev_tmc 2 0;
             ev_tmc 3 3; ev_tmc 3 0;
             ev_tmc 0 4294967295; ev_tmc 0 1;
             ev_wspawn 1 entry_null].
Proof.
  intros dev geo.
  assert (Hv : validated dev geo) by (vm_compute; discriminate).
  assert (Hg : 1 < group_size geo) by reflexivity.
  assert (Ha : 0 <= 0 < active_cores dev geo)
    by (vm_compute; split; [discriminate|reflexivity]).
  split; [exact (conj Hv (conj Hg Ha))|].
  destruct (group_path_protocol (Z.to_nat 4294967297) dev 0 1 (Some (arr [3]))
              (Some (arr [6])) boot dev0_ok Hv Hg Ha big_fuel)
    as (st' & E & C & _).
  exists st'. split; [exact E|exact C].
Defined.

Lemma task_path_protocol_witness :
  let dev := mk_device 1 2 4 in
  let geo := normalize 1 (Some (arr [11])) None boot in
  (group_size geo <= 1 /\ 0 <= 0 < active_cores dev geo
   /\ num_groups geo < Z.of_nat 12)
  /\ exists st',
       vx_spawn_threads 12 dev 0 1 (Some (arr [11])) None boot = Some (0, st')
       /\ controls (trace st')
          = [ev_wspawn 2 entry_threads_stub;
             ev_tmc 1 4294967295; ev_tmc 1 0;
             ev_tmc 0 4294967295; ev_tmc 0 1;
             ev_tmc 0 7; ev_tmc 0 1;
             ev_wspawn 1 entry_null].
Proof.
  intros dev geo.
  assert (Hg : group_size geo <= 1) by (vm_compute; discriminate).
  assert (Ha : 0 <= 0 < active_cores dev geo)
    by (vm_compute; split; [discriminate|reflexivity]).
  assert (Hf : num_groups geo < Z.of_nat 12) by reflexivity.
  split; [exact (conj Hg (conj Ha Hf))|].
  destruct (task_path_protocol 12%nat dev 0 1 (Some (arr [11])) None boot
              small_device_ok Hg Ha Hf)
    as (st' & E & C & _).
  exists st'. split; [exact E|exact C].
Defined.

Lemma launch_restores_masks_witness :
  let dev := mk_device 2 4 4 in
  let geo := normalize 1 (Some (arr [3])) (Some (arr [6])) boot in
  (validated dev geo /\ 0 <= 0 < active_cores dev geo)
  /\ exists st',
       vx_spawn_threads (Z.to_nat 4294967297) dev 0 1 (Some (arr [3]))
                        (Some (arr [6])) (vx_tmc 3 15 boot) = Some (0, st')
       /\ tmask st' 0 = 1 /\ tmask st' 3 = 0.
Proof.
  intros dev geo.
  assert (Hv : validated dev geo) by (vm_compute; discriminate).
  assert (Ha : 0 <= 0 < active_cores dev geo)
    by (vm_compute; split; [discriminate|reflexivity]).
  split; [exact (conj Hv Ha)|].
  destruct (launch_restores_masks (Z.to_nat 4294967297) dev 0 1
              (Some (arr [3])) (Some (arr [6])) (vx_tmc 3 15 boot) dev0_ok
              Hv Ha big_fuel)
    as (st' & E & K0 & K & _).
  exists st'. split; [exact E|]. split; [exact K0|].
  apply (K 3). vm_compute. split; [discriminate|reflexivity].
Defined.

Lemma launch_stays_within_device_witness :
  0 <= 1
  /\ exists r st' new,
       vx_spawn_threads (Z.to_nat 4294967297) (mk_device 2 4 4) 1 2
                        (Some (arr [3; 2])) (Some (arr [6; 2])) boot
       = Some (r, st')
       /\ trace st' = trace boot ++ new
       /\ Forall (within_hardware (mk_device 2 4 4)) new.
Proof.
  assert (H : 0 <= 1) by lia.
  split; [exact H|].
  exact (launch_stays_within_device (Z.to_nat 4294967297) (mk_device 2 4 4) 1 2
           (Some (arr [3; 2])) (Some (arr [6; 2])) boot dev0_ok H big_fuel).
Defined.

(** ** The block slot of a warp: [__local_group_id] *)

Lemma in_core_events dev p gd bd e :
  In e (core_events dev p gd bd) ->
  exists w t k,
    In w (warps_run (gp_active_warps p))
    /\ In t (lanes_of_mask (num_threads dev) (threads_mask (groups_args p) w))
    /\ In k (rounds_of (groups_args p) w)
    /\ e = (w, t,
            mk_tls (decompose (round_group_id (groups_args p) w k) gd)
                   (decompose (lane_task_id dev (groups_args p) w t) bd)
                   (w / g_warps_per_group (groups_args p))).
Proof.
  unfold core_events, warp_events, lane_events. intros H.
  apply in_flat_map in H as (w & Hw & H).
  apply in_flat_map in H as (t & Ht & H).
  apply in_map_iff in H as (k & <- & Hk).
  exists w, t, k. repeat split; assumption.
Qed.

(** X10 - the block slot [__local_group_id].  In the group path a core runs
    [slots = warps_per_core / warps_per_group] blocks at a time.  Every
    callback invocation sees [__local_group_id = warp_id / warps_per_group],
    a slot below [slots], and the slot is the position of its block in the
    slab of the core modulo [slots]; so all the threads of a block see the
    same slot. *)
Theorem local_group_slots fuel dev core_id dimension grid_dim block_dim st :
  device_ok dev ->
  let geo := normalize dimension grid_dim block_dim st in
  let gd := geo_gridDim geo in
  let bd := geo_blockDim geo in
  let p := groups_plan dev core_id (num_groups geo) (group_size geo) in
  let slots := num_warps dev / gp_warps_per_group p in
  validated dev geo ->
  1 < group_size geo ->
  dim_x gd * dim_y gd * dim_z gd < 4294967296 ->
  dim_x bd * dim_y bd * dim_z bd < 4294967296 ->
  num_groups geo * gp_warps_per_group p + num_warps dev - 1 < 4294967296 ->
  0 <= core_id < active_cores dev geo ->
  4294967296 < Z.of_nat fuel ->
  (exists st',
     vx_spawn_threads fuel dev core_id dimension grid_dim block_dim st
     = Some (0, st')
     /\ calls (trace st') = calls (trace st) ++ core_events dev p gd bd)
  /\ 1 <= slots
  /\ (forall w t c, In (w, t, c) (core_events dev p gd bd) ->
        __local_group_id c = w / gp_warps_per_group p
        /\ __local_group_id c
           = (lin_of (blockIdx c) gd - slab_offset dev geo core_id) mod slots
        /\ 0 <= __local_group_id c < slots)
  /\ (forall w1 t1 c1 w2 t2 c2,
        In (w1, t1, c1) (core_events dev p gd bd) ->
        In (w2, t2, c2) (core_events dev p gd bd) ->
        blockIdx c1 = blockIdx c2 ->
        __local_group_id c1 = __local_group_id c2).
Proof.
  intros Hdev geo gd bd p slots Hv Hgs Hg Hb Hfit Ha Hfuel.
  pose proof (num_groups_range dimension grid_dim block_dim st) as Hn.
  fold geo in Hn. unfold validated in Hv.
  assert (Hact : 0 <= core_id < gp_active_cores p).
  { unfold active_cores in Ha.
    destruct (Z.ltb_spec 1 (group_size geo)); [exact Ha|lia]. }
  assert (Hgs' : 1 < group_size geo
                 <= u32 (num_warps dev * num_threads dev)) by lia.
  pose proof (cov_cores dev Hdev core_id (num_groups geo) (group_size geo)
                Hn Hgs' Hact Hfit) as (_ & Hn1).
  fold p in Hn1.
  destruct (geometry_exact dimension grid_dim block_dim st Hg Hb
              ltac:(fold geo; lia) ltac:(fold geo; lia))
    as ((_ & Gx & Gy & _ & Gxy) & _).
  fold geo gd in Gx, Gy, Gxy.
  pose proof (cov_device dev Hdev core_id (num_groups geo) (group_size geo)
                Hgs') as (_ & _ & _ & HC & _).
  pose proof (cov_slab dev Hdev core_id (num_groups geo) (group_size geo)
                Hn Hgs' Hact Hfit) as (_ & _ & _ & Hoff & _).
  fold p in HC, Hoff.
  change (gp_groups_launchable p) with slots in HC.
  assert (Eoff : slab_offset dev geo core_id = gp_group_offset p)
    by (unfold slab_offset; destruct (Z.ltb_spec 1 (group_size geo));
        [reflexivity|lia]).
  assert (Hslot : forall w t c, In (w, t, c) (core_events dev p gd bd) ->
            __local_group_id c = w / gp_warps_per_group p
            /\ __local_group_id c
               = (lin_of (blockIdx c) gd - slab_offset dev geo core_id)
                 mod slots
            /\ 0 <= __local_group_id c < slots).
  { intros w t c Hin.
    apply in_core_events in Hin as (w' & t' & k & Hw & Ht & Hk & E).
    injection E as <- <- ->.
    destruct (cov_index dev Hdev core_id (num_groups geo) (group_size geo)
                Hn Hgs' Hact Hfit w t k Hw Ht Hk)
      as ((_ & Hs & _) & _ & Hk0 & ER & _).
    fold p in Hs, ER. change (gp_groups_launchable p) with slots in Hs, ER.
    cbn [__local_group_id blockIdx].
    change (g_warps_per_group (groups_args p)) with (gp_warps_per_group p).
    split; [reflexivity|]. split; [|exact Hs].
    rewrite ER, decompose_lin; try assumption.
    - rewrite Eoff.
      replace (gp_group_offset p + (w / gp_warps_per_group p + k * slots)
               - gp_group_offset p)
        with (w / gp_warps_per_group p + k * slots) by lia.
      symmetry. apply euclid_mod. exact Hs.
    - assert (0 <= k * slots) by (apply Z.mul_nonneg_nonneg; lia). lia. }
  split; [|split; [exact HC|split; [exact Hslot|]]].
  - destruct (launch_groups_calls fuel dev core_id dimension grid_dim
                block_dim st Hdev Hv Hgs Ha Hfuel) as (st' & E & C).
    exists st'. split; [exact E|exact C].
  - intros w1 t1 c1 w2 t2 c2 H1 H2 Eb.
    destruct (Hslot w1 t1 c1 H1) as (_ & -> & _).
    destruct (Hslot w2 t2 c2 H2) as (_ & -> & _).
    rewrite Eb. reflexivity.
Qed.

Lemma local_group_slots_witness :
  let dev := mk_device 1 4 4 in
  let geo := normalize 1 (Some (arr [5])) (Some (arr [6])) boot in
  let p := groups_plan dev 0 (num_groups geo) (group_size geo) in
  (validated dev geo /\ 1 < group_size geo /\ 0 <= 0 < active_cores dev geo)
  /\ 1 <= 4 / gp_warps_per_group p
  /\ map (fun e => (dim_x (blockIdx (snd e)), __local_group_id (snd e)))
         (core_events dev p (geo_gridDim geo) (geo_blockDim geo))
     = [(0, 0); (2, 0); (4, 0); (0, 0); (2, 0); (4, 0);
        (1, 1); (3, 1); (1, 1); (3, 1); (1, 1); (3, 1); (1, 1); (3, 1);
        (1, 1); (3, 1); (1, 1); (3, 1);
        (0, 0); (2, 0); (4, 0); (0, 0); (2, 0); (4, 0); (0, 0); (2, 0);
        (4, 0); (0, 0); (2, 0); (4, 0)].
Proof.
  intros dev geo p.
  assert (Hd : device_ok dev) by (constructor; cbn; lia).
  assert (Hv : validated dev geo) by (vm_compute; discriminate).
  assert (Hg : 1 < group_size geo) by reflexivity.
  assert (Ha : 0 <= 0 < active_cores dev geo)
    by (vm_compute; split; [discriminate|reflexivity]).
  split; [exact (conj Hv (conj Hg Ha))|]. split; [|reflexivity].
  refine (proj1 (proj2 (local_group_slots (Z.to_nat 4294967297) dev 0 1
                          (Some (arr [5])) (Some (arr [6])) boot Hd Hv Hg
                          _ _ _ Ha big_fuel))); reflexivity.
Defined.

(** ** Counting the invocations of the group path *)

Lemma NoDup_list_prod {A B : Type} (l : list A) (l' : list B) :
  NoDup l -> NoDup l' -> NoDup (list_prod l l').
Proof.
  intros Hl Hl'. rewrite list_prod_as_flat_map. apply NoDup_flat_map.
  - exact Hl.
  - intros a _. apply NoDup_map_on; [|exact Hl'].
    intros u v _ _ E. injection E as ->. reflexivity.
  - intros a a' x _ _ H1 H2.
    apply in_map_iff in H1 as (b & <- & _).
    apply in_map_iff in H2 as (b' & E & _).
    injection E as -> _. reflexivity.
Qed.

Lemma same_members_same_length {A : Type} (l l' : list A) :
  NoDup l -> NoDup l' -> (forall x, In x l <-> In x l') ->
  length l = length l'.
Proof.
  intros N N' H. apply Nat.le_antisymm; apply NoDup_incl_length;
    try assumption; intros x Hx; apply H; exact Hx.
Qed.

Lemma ncalls_app_calls st st' evs :
  calls (trace st') = calls (trace st) ++ evs ->
  ncalls st' = ncalls st + Z.of_nat (length evs).
Proof. intros E. unfold ncalls. rewrite E, length_app. lia. Qed.

Section GroupsCount.

Variable dev : device.
Hypothesis Hdev : device_ok dev.
Variables core_id n gs : Z.
Hypothesis Hn : 0 <= n < 4294967296.
Hypothesis Hgs : 1 < gs <= u32 (num_warps dev * num_threads dev).
Hypothesis Hactive :
  0 <= core_id < gp_active_cores (groups_plan dev core_id n gs).
Hypothesis Hfit :
  n * gp_warps_per_group (groups_plan dev core_id n gs) + num_warps dev - 1
  < 4294967296.
Variables gd bd : dim3_t.
Hypothesis Hgd :
  0 < dim_x gd /\ 0 < dim_y gd /\ dim_x gd * dim_y gd < 4294967296.
Hypothesis Hbd :
  0 < dim_x bd /\ 0 < dim_y bd /\ dim_x bd * dim_y bd < 4294967296.

Let p := groups_plan dev core_id n gs.
Let G := gp_total_groups_per_core p.
Let off := gp_group_offset p.

Lemma core_events_length :
  Z.of_nat (length (core_events dev p gd bd)) = G * gs.
Proof.
  pose proof (cov_slab dev Hdev core_id n gs Hn Hgs Hactive Hfit)
    as (_ & _ & HG & Hoff & _).
  fold p in HG, Hoff. fold G in HG. fold off in Hoff.
  set (ref := map (fun jl => (decompose (off + fst jl) gd,
                              decompose (snd jl) bd))
                  (list_prod (first_lanes G) (first_lanes gs))).
  assert (E : length (map identity (core_events dev p gd bd)) = length ref).
  { apply same_members_same_length.
    - apply (cov_nodup dev Hdev core_id n gs Hn Hgs Hactive Hfit gd bd Hgd Hbd).
    - unfold ref. apply NoDup_map_on.
      + intros [j l] [j' l'] H H' E. cbn [fst snd] in E.
        apply in_prod_iff in H as (Hj & Hl).
        apply in_prod_iff in H' as (Hj' & Hl').
        apply in_first_lanes in Hj, Hl, Hj', Hl'.
        pose proof (f_equal fst E) as E1. pose proof (f_equal snd E) as E2.
        cbn [fst snd] in E1, E2.
        apply decompose_inj in E1; try apply Hgd; try lia.
        apply decompose_inj in E2; try apply Hbd; try lia.
        f_equal; lia.
      + apply NoDup_list_prod; apply NoDup_first_lanes.
    - intros x. split.
      + intros Hin.
        destruct (cov_sound dev Hdev core_id n gs Hn Hgs Hactive Hfit gd bd x
                    Hin) as (j & l & Hj & Hl & ->).
        unfold ref. apply in_map_iff. exists (j, l). split; [reflexivity|].
        apply in_prod_iff. split; apply in_first_lanes; assumption.
      + unfold ref. intros Hin.
        apply in_map_iff in Hin as ([j l] & <- & Hin).
        apply in_prod_iff in Hin as (Hj & Hl).
        apply in_first_lanes in Hj, Hl. cbn [fst snd].
        apply (cov_complete dev Hdev core_id n gs Hn Hgs Hactive Hfit gd bd);
          assumption. }
  rewrite length_map in E. rewrite E. unfold ref.
  rewrite length_map, length_prod, Nat2Z.inj_mul.
  rewrite !first_lanes_length by lia. reflexivity.
Qed.

End GroupsCount.

(** X4 - invocations of the group path.  A validated launch of multi-thread
    blocks whose grid and block products fit 32 bits and whose count of
    needed cores does not wrap around runs to completion on every core; core
    [c] invokes the callback [slab_size c * group_size] times (not at all
    when it is not active), and the cores together
    [num_groups * group_size] times. *)
Theorem group_path_invocations fuel dev dimension grid_dim block_dim st0 :
  device_ok dev ->
  let geo := normalize dimension grid_dim block_dim st0 in
  let gd := geo_gridDim geo in
  let bd := geo_blockDim geo in
  let k := fun c =>
    if c <? active_cores dev geo
    then slab_size dev geo c * group_size geo else 0 in
  validated dev geo ->
  1 < group_size geo ->
  dim_x gd * dim_y gd * dim_z gd < 4294967296 ->
  dim_x bd * dim_y bd * dim_z bd < 4294967296 ->
  num_groups geo
  * gp_warps_per_group (groups_plan dev 0 (num_groups geo) (group_size geo))
  + num_warps dev - 1 < 4294967296 ->
  4294967296 < Z.of_nat fuel ->
  (forall core_id st, 0 <= core_id ->
     exists st',
       vx_spawn_threads fuel dev core_id dimension grid_dim block_dim st
       = Some (0, st')
       /\ ncalls st' = ncalls st + k core_id)
  /\ sum_Z (map k (first_lanes (num_cores dev)))
     = num_groups geo * group_size geo.
Proof.
  intros Hdev geo gd bd k Hv Hgs Hg Hb Hfit Hfuel.
  pose proof (num_groups_range dimension grid_dim block_dim st0) as Hn.
  fold geo in Hn.
  split.
  - intros c st Hc. unfold k.
    destruct (Z.ltb_spec c (active_cores dev geo)) as [L|L].
    + pose proof (launch_groups_calls fuel dev c dimension grid_dim block_dim
                    st Hdev) as H.
      cbv zeta in H.
      rewrite (normalize_state dimension grid_dim block_dim st st0) in H.
      fold geo gd bd in H.
      destruct (H Hv Hgs ltac:(lia) Hfuel) as (st' & E & C).
      exists st'. split; [exact E|].
      rewrite (ncalls_app_calls _ _ _ C).
      assert (Hact : 0 <= c < gp_active_cores
                                 (groups_plan dev c (num_groups geo)
                                    (group_size geo))).
      { unfold active_cores in L.
        destruct (Z.ltb_spec 1 (group_size geo)); [|lia]. split; [lia|exact L]. }
      unfold validated in Hv.
      assert (Hnpos : 0 < num_groups geo).
      { pose proof (cov_cores dev Hdev c (num_groups geo) (group_size geo) Hn
                      ltac:(lia) Hact Hfit). lia. }
      destruct (geometry_exact dimension grid_dim block_dim st0 Hg Hb Hnpos
                  ltac:(fold geo; lia))
        as ((_ & Gx & Gy & _ & Gxy) & (_ & Bx & By & _ & Bxy)).
      fold geo gd bd in Gx, Gy, Gxy, Bx, By, Bxy.
      rewrite (core_events_length dev Hdev c (num_groups geo) (group_size geo)
                 Hn ltac:(lia) Hact Hfit gd bd
                 (conj Gx (conj Gy Gxy)) (conj Bx (conj By Bxy))).
      unfold slab_size. destruct (Z.ltb_spec 1 (group_size geo)); [|lia].
      reflexivity.
    + pose proof (launch_inactive fuel dev c dimension grid_dim block_dim st)
        as H.
      cbv zeta in H.
      rewrite (normalize_state dimension grid_dim block_dim st st0) in H.
      fold geo in H. destruct (H Hv L) as (st' & E & T & _).
      exists st'. split; [exact E|]. unfold ncalls. rewrite T. lia.
  - pose proof (active_cores_range dev geo Hdev) as Hr.
    unfold k, first_lanes at 1. rewrite sum_guarded.
    2:{ destruct Hdev as [Hc _ _ _]. lia. }
    rewrite map_ext with (g := fun c => group_size geo * slab_size dev geo c)
      by (intros; lia).
    rewrite (sum_Z_scale dev 0 0).
    destruct (Z.eq_dec (num_groups geo) 0) as [E0|E0].
    + rewrite (active_cores_zero_grid dev geo Hdev E0), E0. cbn. lia.
    + rewrite slab_sizes_total; [lia|assumption|].
      apply active_cores_pos; try assumption; try lia.
      destruct (Z.ltb_spec 1 (group_size geo)); [exact Hfit|lia].
Qed.

Lemma group_path_invocations_witness :
  let dev := mk_device 2 4 4 in
  let geo := normalize 1 (Some (arr [3])) (Some (arr [6])) boot in
  (validated dev geo /\ 1 < group_size geo)
  /\ map (fun c => if c <? active_cores dev geo
                   then slab_size dev geo c * group_size geo else 0) [0; 1]
     = [12; 6]
  /\ sum_Z (map (fun c => if c <? active_cores dev geo
                          then slab_size dev geo c * group_size geo else 0)
                (first_lanes 2)) = 3 * 6.
Proof.
  intros dev geo.
  assert (Hv : validated dev geo) by (vm_compute; discriminate).
  assert (Hg : 1 < group_size geo) by reflexivity.
  split; [exact (conj Hv Hg)|]. split; [reflexivity|].
  refine (proj2 (group_path_invocations (Z.to_nat 4294967297) dev 1
                   (Some (arr [3])) (Some (arr [6])) boot dev0_ok Hv Hg
                   _ _ _ big_fuel)); reflexivity.
Defined.

(** The run of the task path on an active core, in its two sections. *)
Lemma task_core_run fuel dev core_id dimension grid_dim block_dim st :
  device_ok dev ->
  let geo := normalize dimension grid_dim block_dim st in
  let p := threads_plan dev core_id (num_groups geo) in
  let st1 :=
    csr_write (scratch_threads (threads_args p))
      (set_warps_per_group 0
         (set_dims (geo_gridDim geo) (geo_blockDim geo) st)) in
  validated dev geo ->
  group_size geo <= 1 ->
  0 <= core_id < active_cores dev geo ->
  num_groups geo < Z.of_nat fuel ->
  exists st2 st3,
    spawn_full_warps fuel dev p st1 = Some st2
    /\ spawn_tail dev p st2 = Some st3
    /\ vx_spawn_threads fuel dev core_id dimension grid_dim block_dim st
       = Some (0, emit (ev_wspawn 1 entry_null) st3)
    /\ calls (trace st2)
       = calls (trace st) ++ full_warp_events dev p (geo_gridDim geo)
    /\ calls (trace st3)
       = calls (trace st2)
         ++ map (fun t => (0, t, tls st2 0 t))
                (first_lanes (tp_remaining_tasks p)).
Proof.
  intros Hdev geo p st1 Hv Hgs Ha Hfuel. unfold validated in Hv.
  pose proof (num_groups_range dimension grid_dim block_dim st) as Hn.
  fold geo in Hn.
  assert (Hact : 0 <= core_id < tp_active_cores p).
  { unfold active_cores in Ha.
    destruct (Z.ltb_spec 1 (group_size geo)); [lia|exact Ha]. }
  pose proof (task_warps dev Hdev core_id (num_groups geo) Hn Hact)
    as (_ & Hr & _).
  fold p in Hr.
  destruct (spawn_full_warps_calls dev Hdev core_id (num_groups geo) Hn
              Hact fuel st1 eq_refl Hfuel) as (st2 & E2 & G2 & C2).
  fold p in E2, C2.
  assert (Hs2 : mscratch st2 = scratch_threads (threads_args p))
    by (destruct G2 as (_ & _ & _ & ->); reflexivity).
  assert (Htail : exists st3,
            spawn_tail dev p st2 = Some st3
            /\ calls (trace st3)
               = calls (trace st2)
                 ++ map (fun t => (0, t, tls st2 0 t))
                        (first_lanes (tp_remaining_tasks p))).
  { destruct (Z.eq_dec (tp_remaining_tasks p) 0) as [E0|E0].
    - exists st2. unfold spawn_tail. rewrite E0. cbn [Z.eqb].
      split; [reflexivity|]. cbn. rewrite app_nil_r. reflexivity.
    - apply spawn_tail_trace; [destruct Hdev as [_ _ Ht _]; exact Ht|lia|].
      exact Hs2. }
  destruct Htail as (st3 & E3 & C3).
  exists st2, st3. split; [exact E2|]. split; [exact E3|].
  split; [|split; [exact C2|exact C3]].
  unfold vx_spawn_threads. fold geo.
  destruct (Z.ltb_spec (u32 (num_warps dev * num_threads dev))
              (group_size geo)); [lia|].
  destruct (Z.ltb_spec 1 (group_size geo)); [lia|].
  fold p. destruct (Z.leb_spec (tp_active_cores p) core_id); [lia|].
  unfold spawn_tasks. fold st1. rewrite E2, E3. reflexivity.
Qed.




(** ** Coverage of the task path when no core has a tail *)

Lemma in_full_warp_events dev p gd e :
  In e (full_warp_events dev p gd) ->
  threadIdx (snd e) = mk_dim3 0 0 0 /\ __local_group_id (snd e) = 0.
Proof.
  unfold full_warp_events, task_warp_events, task_lane_events.
  destruct (1 <=? tp_active_warps p); [|intros []].
  intros H. apply in_flat_map in H as (w & _ & H).
  apply in_flat_map in H as (t & _ & H).
  apply in_map_iff in H as (k & <- & _). split; reflexivity.
Qed.

(** X15 - coverage of the task path without tails.  A launch of
    single-thread blocks whose grid product fits 32 bits, whose count of
    needed cores does not wrap around and in which the slab of every active
    core is a whole number of warps runs to completion on every core; the
    cores together invoke the callback exactly once for each block of
    [gridDim] and for nothing else, always with [threadIdx = (0,0,0)] and
    [__local_group_id = 0]. *)
Theorem task_path_coverage fuel dev dimension grid_dim block_dim st0 :
  device_ok dev ->
  let geo := normalize dimension grid_dim block_dim st0 in
  let gd := geo_gridDim geo in
  group_size geo <= 1 ->
  0 < num_groups geo ->
  dim_x gd * dim_y gd * dim_z gd < 4294967296 ->
  num_groups geo + num_warps dev * num_threads dev - 1 < 4294967296 ->
  (forall c, 0 <= c < active_cores dev geo ->
     slab_size dev geo c mod num_threads dev = 0) ->
  num_groups geo < Z.of_nat fuel ->
  (forall core_id st, 0 <= core_id ->
     exists st',
       vx_spawn_threads fuel dev core_id dimension grid_dim block_dim st
       = Some (0, st')
       /\ calls (trace st')
          = calls (trace st) ++ task_launch_events dev geo core_id)
  /\ (forall c e, In e (task_launch_events dev geo c) ->
        threadIdx (snd e) = mk_dim3 0 0 0 /\ __local_group_id (snd e) = 0)
  /\ NoDup (task_launch_blocks dev geo)
  /\ forall b, In b (task_launch_blocks dev geo) <-> inside b gd.
Proof.
  intros Hdev geo gd Hgs Hnpos Hg Hfit Hfull Hfuel.
  pose proof (num_groups_range dimension grid_dim block_dim st0) as Hn.
  pose proof (group_size_range dimension grid_dim block_dim st0) as Hgr.
  fold geo in Hn, Hgr.
  pose proof (task_path_validated dev geo Hdev Hgs) as Hv.
  assert (Ha : 1 <= active_cores dev geo).
  { apply active_cores_pos; try assumption; try lia.
    destruct (Z.ltb_spec 1 (group_size geo)); [lia|exact Hfit]. }
  pose proof (active_cores_range dev geo Hdev) as Har.
  assert (Hgd : dim_x gd * dim_y gd * dim_z gd = num_groups geo
                /\ 0 < dim_x gd /\ 0 < dim_y gd /\ 0 < dim_z gd
                /\ dim_x gd * dim_y gd < 4294967296).
  { pose proof (axis_range grid_dim dimension 0) as X0.
    pose proof (axis_range grid_dim dimension 1) as X1.
    pose proof (axis_range grid_dim dimension 2) as X2.
    unfold gd, geo in *. rewrite normalize_unfold in *. cbv zeta in *.
    cbn [geo_gridDim num_groups dim_x dim_y dim_z] in *.
    destruct (product_exact _ _ _ X0 X1 X2 Hg Hnpos) as (E & H1 & H2 & H3 & H4).
    repeat split; try assumption. symmetry. exact E. }
  destruct Hgd as (EN & Gx & Gy & Gz & Gxy).
  assert (Hcore : forall c, 0 <= c < active_cores dev geo ->
            let p := threads_plan dev c (num_groups geo) in
            (0 <= c < tp_active_cores p)
            /\ tp_remaining_tasks p = 0
            /\ NoDup (map (fun e => blockIdx (snd e))
                          (task_launch_events dev geo c))
            /\ forall x,
                 In x (map (fun e => blockIdx (snd e))
                           (task_launch_events dev geo c)) <->
                 exists j,
                   slab_offset dev geo c <= j
                   < slab_offset dev geo c + slab_size dev geo c
                   /\ x = decompose j gd).
  { intros c Hc p.
    assert (Hact : 0 <= c < tp_active_cores p).
    { unfold active_cores in Hc.
      destruct (Z.ltb_spec 1 (group_size geo)); [lia|exact Hc]. }
    pose proof (task_warps dev Hdev c (num_groups geo) Hn Hact)
      as (EP & Hr & _).
    fold p in EP, Hr.
    assert (Er : tp_remaining_tasks p = 0).
    { pose proof (Hfull c Hc) as H. unfold slab_size in H.
      destruct (Z.ltb_spec 1 (group_size geo)); [lia|]. exact H. }
    assert (Eoff : slab_offset dev geo c = tp_all_tasks_offset p)
      by (unfold slab_offset; destruct (Z.ltb_spec 1 (group_size geo));
          [lia|reflexivity]).
    assert (Esize : slab_size dev geo c
                    = tp_total_warps p * num_threads dev).
    { unfold slab_size. destruct (Z.ltb_spec 1 (group_size geo)); [lia|].
      fold p. rewrite EP, Er. lia. }
    split; [exact Hact|]. split; [exact Er|].
    unfold task_launch_events.
    destruct (Z.ltb_spec c (active_cores dev geo)); [|lia]. fold p gd.
    split.
    - apply (full_nodup dev Hdev c (num_groups geo) Hn Hact gd
               (conj Gx (conj Gy Gxy))).
    - intros x. rewrite Eoff, Esize. split.
      + apply (full_sound dev Hdev c (num_groups geo) Hn Hact gd).
      + intros (j & Hj & ->).
        apply (full_complete dev Hdev c (num_groups geo) Hn Hact gd j Hj). }
  assert (Hidle : forall c, active_cores dev geo <= c ->
            task_launch_events dev geo c = []).
  { intros c L. unfold task_launch_events.
    destruct (Z.ltb_spec c (active_cores dev geo)); [lia|reflexivity]. }
  assert (Hin_active : forall c x,
            0 <= c ->
            In x (map (fun e => blockIdx (snd e))
                      (task_launch_events dev geo c)) ->
            c < active_cores dev geo).
  { intros c x Hc Hx.
    destruct (Z_lt_le_dec c (active_cores dev geo)) as [L|L]; [exact L|].
    rewrite (Hidle c L) in Hx. destruct Hx. }
  split; [|split; [|split]].
  - intros c st Hc.
    destruct (Z.ltb_spec c (active_cores dev geo)) as [L|L].
    + pose proof (task_core_run fuel dev c dimension grid_dim block_dim st
                    Hdev) as H.
      cbv zeta in H.
      rewrite (normalize_state dimension grid_dim block_dim st st0) in H.
      fold geo gd in H.
      destruct (H Hv Hgs ltac:(lia) Hfuel) as (st2 & st3 & _ & _ & E & C2 & C3).
      destruct (Hcore c ltac:(lia)) as (_ & Er & _).
      eexists. split; [exact E|].
      cbn [emit trace]. rewrite calls_app, C3, C2, Er.
      change (first_lanes 0) with (@nil Z).
      unfold calls at 2. cbn [map flat_map app].
      rewrite !app_nil_r. unfold task_launch_events.
      destruct (Z.ltb_spec c (active_cores dev geo)); [reflexivity|lia].
    + pose proof (launch_inactive fuel dev c dimension grid_dim block_dim st)
        as H.
      cbv zeta in H.
      rewrite (normalize_state dimension grid_dim block_dim st st0) in H.
      fold geo in H. destruct (H Hv L) as (st' & E & T & _).
      exists st'. split; [exact E|].
      rewrite T, (Hidle c L), app_nil_r. reflexivity.
  - intros c e. unfold task_launch_events.
    destruct (c <? active_cores dev geo); [|intros []].
    apply in_full_warp_events.
  - unfold task_launch_blocks. apply NoDup_flat_map.
    + apply NoDup_first_lanes.
    + intros c Hc. apply in_first_lanes in Hc.
      destruct (Z_lt_le_dec c (active_cores dev geo)) as [L|L].
      * apply (Hcore c ltac:(lia)).
      * rewrite (Hidle c L). constructor.
    + intros c c' x Hc Hc' Hx Hx'.
      apply in_first_lanes in Hc. apply in_first_lanes in Hc'.
      pose proof (Hin_active c x ltac:(lia) Hx) as Lc.
      pose proof (Hin_active c' x ltac:(lia) Hx') as Lc'.
      destruct (Hcore c ltac:(lia)) as (_ & _ & _ & H1).
      destruct (Hcore c' ltac:(lia)) as (_ & _ & _ & H2).
      apply H1 in Hx as (j1 & S1 & ->).
      apply H2 in Hx' as (j2 & S2 & E).
      pose proof (slab_in_grid dev geo c Hn ltac:(lia)).
      pose proof (slab_in_grid dev geo c' Hn ltac:(lia)).
      apply decompose_inj in E; try assumption; try lia.
      subst j2. apply (slabs_disjoint dev geo c c' j1 Hn); lia.
  - intros b. unfold task_launch_blocks. rewrite in_flat_map.
    rewrite (inside_iff_decompose b gd) by assumption.
    rewrite EN. split.
    + intros (c & Hc & Hx). apply in_first_lanes in Hc.
      pose proof (Hin_active c b ltac:(lia) Hx) as Lc.
      destruct (Hcore c ltac:(lia)) as (_ & _ & _ & H1).
      apply H1 in Hx as (j & S & ->).
      pose proof (slab_in_grid dev geo c Hn ltac:(lia)).
      exists j. split; [lia|reflexivity].
    + intros (j & Hj & ->).
      destruct (slabs_cover dev geo j Hn Ha Hj) as (c & Hc & Hin).
      exists c. split; [apply in_first_lanes; lia|].
      destruct (Hcore c Hc) as (_ & _ & _ & H1).
      apply H1. exists j. split; [exact Hin|reflexivity].
Qed.

Lemma task_path_coverage_witness :
  let dev := mk_device 2 2 2 in
  let geo := normalize 2 (Some (arr [4; 3])) None boot in
  (group_size geo <= 1 /\ 0 < num_groups geo
   /\ num_groups geo < Z.of_nat 13)
  /\ map (fun b => (dim_x b, dim_y b)) (task_launch_blocks dev geo)
     = [(0, 1); (1, 1); (0, 0); (2, 0); (1, 0); (3, 0);
        (2, 2); (3, 2); (2, 1); (0, 2); (3, 1); (1, 2)]
  /\ NoDup (task_launch_blocks dev geo).
Proof.
  intros dev geo.
  assert (Hd : device_ok dev) by (constructor; cbn; lia).
  assert (Hg : group_size geo <= 1) by (vm_compute; discriminate).
  assert (Hn : 0 < num_groups geo) by reflexivity.
  assert (Hf : num_groups geo < Z.of_nat 13) by reflexivity.
  split; [exact (conj Hg (conj Hn Hf))|]. split; [reflexivity|].
  refine (proj1 (proj2 (proj2
            (task_path_coverage 13%nat dev 2 (Some (arr [4; 3])) None boot
               Hd Hg Hn _ _ _ Hf)))).
  - reflexivity.
  - reflexivity.
  - intros c Hc.
    assert (Hc' : c = 0 \/ c = 1).
    { change (0 <= c < 2) in Hc. lia. }
    destruct Hc' as [->| ->]; reflexivity.
Defined.

(** ** The block a lane is left with *)

Lemma last_block_app w t cs1 cs2 b :
  last_block w t (cs1 ++ cs2) b = last_block w t cs2 (last_block w t cs1 b).
Proof. unfold last_block. apply fold_left_app. Qed.

Lemma last_block_others w t cs b :
  (forall c, In c cs -> fst (fst c) <> w \/ snd (fst c) <> t) ->
  last_block w t cs b = b.
Proof.
  revert b. induction cs as [|c cs IH]; intros b H; [reflexivity|].
  cbn [last_block fold_left].
  destruct (H c (or_introl eq_refl)) as [N|N].
  - destruct (Z.eqb_spec (fst (fst c)) w); [contradiction|]. cbn [andb].
    apply IH. intros c' Hc'. apply H. right. exact Hc'.
  - destruct (Z.eqb_spec (snd (fst c)) t); [contradiction|].
    rewrite andb_false_r.
    apply IH. intros c' Hc'. apply H. right. exact Hc'.
Qed.

Lemma blocks_follow_refl st : blocks_follow st st.
Proof.
  exists []. split; [symmetry; apply app_nil_r|]. intros w t. reflexivity.
Qed.

Lemma blocks_follow_quiet st s s' :
  calls (trace s') = calls (trace s) -> tls s' = tls s ->
  blocks_follow st s -> blocks_follow st s'.
Proof.
  intros C T (new & E & H). exists new. rewrite C, T. split; assumption.
Qed.

(** A lane changes its own thread-locals, keeping its [blockIdx]. *)
Lemma blocks_follow_set_tls st s w t f :
  (forall c, blockIdx (f c) = blockIdx c) ->
  blocks_follow st s -> blocks_follow st (set_tls w t f s).
Proof.
  intros Hf (new & E & H). exists new. split; [exact E|].
  intros w' t'. cbn [set_tls tls].
  destruct ((w' =? w) && (t' =? t)); [rewrite Hf|]; apply H.
Qed.

(** A round of a stub: assign [blockIdx], invoke the callback. *)
Lemma blocks_follow_round st s w t b :
  blocks_follow st s ->
  blocks_follow st
    (callback w t
       (set_tls w t
          (fun c => mk_tls b (threadIdx c) (__local_group_id c)) s)).
Proof.
  intros (new & E & H).
  set (s1 := set_tls w t _ s).
  exists (new ++ [(w, t, tls s1 w t)]). split.
  - cbn [callback emit trace]. rewrite calls_app. cbn [s1 set_tls trace].
    rewrite E, <- app_assoc. reflexivity.
  - intros w' t'. rewrite last_block_app. cbn [last_block fold_left fst snd].
    cbn [callback emit tls s1 set_tls].
    rewrite !Z.eqb_refl. cbn [andb blockIdx].
    destruct (Z.eqb_spec w w') as [<-|N1]; destruct (Z.eqb_spec t t') as [<-|N2];
      rewrite ?Z.eqb_refl; cbn [andb blockIdx]; try reflexivity.
    + destruct (Z.eqb_spec t' t); [congruence|]. apply H.
    + destruct (Z.eqb_spec w' w); [congruence|]. apply H.
    + destruct (Z.eqb_spec w' w); [congruence|]. apply H.
Qed.

(** The callback invoked with the thread-locals the lane has. *)
Lemma blocks_follow_callback st s w t :
  blocks_follow st s -> blocks_follow st (callback w t s).
Proof.
  intros (new & E & H).
  exists (new ++ [(w, t, tls s w t)]). split.
  - cbn [callback emit trace]. rewrite calls_app, E, <- app_assoc. reflexivity.
  - intros w' t'. rewrite last_block_app. cbn [last_block fold_left fst snd].
    cbn [callback emit tls].
    destruct (Z.eqb_spec w w') as [<-|N1]; destruct (Z.eqb_spec t t') as [<-|N2];
      cbn [andb]; first [reflexivity|apply H].
Qed.

Lemma blocks_follow_vx_tmc st s w m :
  blocks_follow st s -> blocks_follow st (vx_tmc w m s).
Proof.
  apply blocks_follow_quiet; [|reflexivity]. apply calls_vx_tmc.
Qed.

Lemma blocks_follow_wspawn st s n e :
  blocks_follow st s -> blocks_follow st (emit (ev_wspawn n e) s).
Proof.
  apply blocks_follow_quiet; [|reflexivity].
  cbn [emit trace]. rewrite calls_app. cbn. apply app_nil_r.
Qed.

Lemma process_threads_follows st fuel dev w t s s' :
  blocks_follow st s ->
  process_threads fuel dev w t s = Some s' -> blocks_follow st s'.
Proof.
  intros Hs E. unfold process_threads in E.
  destruct (mscratch s) as [|a|targs]; try discriminate.
  cbv zeta in E.
  refine (for_u32_preserves (blocks_follow st) _ _ _ _ _ _ _ _ _ E).
  - intros i u Hu. apply blocks_follow_round. exact Hu.
  - apply blocks_follow_set_tls; [reflexivity|exact Hs].
Qed.

Lemma process_remaining_threads_follows st w t s s' :
  blocks_follow st s ->
  process_remaining_threads w t s = Some s' -> blocks_follow st s'.
Proof.
  intros Hs E. unfold process_remaining_threads in E.
  destruct (mscratch s) as [|a|targs]; try discriminate.
  injection E as <-. apply blocks_follow_callback. exact Hs.
Qed.

Lemma masked_section_follows st dev w mask after body s s' :
  (forall t u u', blocks_follow st u -> body t u = Some u' ->
     blocks_follow st u') ->
  blocks_follow st s ->
  match run_lanes dev w body (vx_tmc w mask s) with
  | Some u => Some (vx_tmc w after u)
  | None => None
  end = Some s' ->
  blocks_follow st s'.
Proof.
  intros Hbody Hs E.
  destruct (run_lanes dev w body (vx_tmc w mask s)) as [u|] eqn:E1;
    [|discriminate].
  injection E as <-. apply blocks_follow_vx_tmc.
  unfold run_lanes in E1.
  refine (foreach_preserves (blocks_follow st) _ _ _ _ _ _ E1).
  - intros t a a' _ Ha Ea. apply (Hbody t a a' Ha Ea).
  - apply blocks_follow_vx_tmc. exact Hs.
Qed.

Lemma spawn_full_warps_follows fuel dev p st st' :
  spawn_full_warps fuel dev p st = Some st' -> blocks_follow st st'.
Proof.
  intros E. unfold spawn_full_warps in E.
  destruct (1 <=? tp_active_warps p).
  - destruct (vx_wspawn fuel dev (tp_active_warps p) entry_threads_stub st)
      as [s1|] eqn:E1; [|discriminate].
    unfold vx_wspawn in E1.
    assert (H1 : blocks_follow st s1).
    { refine (foreach_preserves (blocks_follow st) _ _ _ _ _ _ E1).
      - intros w a a' _ Ha Ea. cbn [run_entry] in Ea.
        unfold process_threads_stub in Ea.
        apply (masked_section_follows st dev w (u32 (-1)) 0
                 (process_threads fuel dev w) a a'); [|exact Ha|exact Ea].
        intros t u u' Hu. apply process_threads_follows. exact Hu.
      - apply blocks_follow_wspawn. apply blocks_follow_refl. }
    apply (masked_section_follows st dev 0 (u32 (-1)) 1
             (process_threads fuel dev 0) s1 st'); [|exact H1|exact E].
    intros t u u' Hu. apply process_threads_follows. exact Hu.
  - injection E as <-. apply blocks_follow_refl.
Qed.

Lemma last_block_lane_events dev targs gd w t b :
  1 <= threads_lane_rounds dev targs w t ->
  last_block w t (task_lane_events dev targs gd w t) b
  = decompose (start_task_id dev targs w t
               + (threads_lane_rounds dev targs w t - 1) * num_threads dev) gd.
Proof.
  intros HR. unfold task_lane_events, first_lanes.
  set (R := threads_lane_rounds dev targs w t) in *.
  replace (Z.to_nat R) with (Datatypes.S (Z.to_nat (R - 1))) by lia.
  rewrite seq_S, !map_app, last_block_app. cbn [map Nat.add].
  cbn [last_block fold_left fst snd blockIdx].
  rewrite !Z.eqb_refl. cbn [andb]. rewrite Z2Nat.id by lia. reflexivity.
Qed.

Lemma last_block_other_lane dev targs gd w w' t t' b :
  w' <> w \/ t' <> t ->
  last_block w t (task_lane_events dev targs gd w' t') b = b.
Proof.
  intros N. apply last_block_others. intros c Hc.
  unfold task_lane_events in Hc. apply in_map_iff in Hc as (k & <- & _).
  exact N.
Qed.

Lemma last_block_lanes dev targs gd w t lanes b :
  NoDup lanes -> In t lanes ->
  1 <= threads_lane_rounds dev targs w t ->
  last_block w t (flat_map (task_lane_events dev targs gd w) lanes) b
  = decompose (start_task_id dev targs w t
               + (threads_lane_rounds dev targs w t - 1) * num_threads dev) gd.
Proof.
  intros Hnd Hin HR. revert b.
  induction lanes as [|a lanes IH]; intros b; [destruct Hin|].
  inversion Hnd as [|? ? Hnot Hnd']. subst.
  cbn [flat_map]. rewrite last_block_app.
  destruct (Z.eq_dec a t) as [->|Ne].
  - rewrite last_block_lane_events by exact HR.
    apply last_block_others. intros c Hc.
    apply in_flat_map in Hc as (t' & Ht' & Hc).
    apply in_map_iff in Hc as (k & <- & _). right. cbn [fst snd].
    intros ->. contradiction.
  - rewrite last_block_other_lane by (right; exact Ne).
    apply IH; [exact Hnd'|]. destruct Hin as [E|Hin]; [contradiction|exact Hin].
Qed.

Lemma last_block_other_warps dev targs gd w t ws b :
  ~ In w ws ->
  last_block w t (flat_map (task_warp_events dev targs gd) ws) b = b.
Proof.
  intros Hnot. apply last_block_others. intros c Hc.
  apply in_flat_map in Hc as (w' & Hw' & Hc).
  unfold task_warp_events in Hc. apply in_flat_map in Hc as (t' & _ & Hc).
  apply in_map_iff in Hc as (k & <- & _). left. cbn [fst].
  intros ->. contradiction.
Qed.

(** The block that lane [t] of warp 0 is left with by the full-warp
    section: the one of its last round. *)
Lemma last_block_full_warps dev p gd t b :
  1 <= num_threads dev <= 32 ->
  1 <= tp_active_warps p ->
  0 <= t < num_threads dev ->
  1 <= threads_lane_rounds dev (threads_args p) 0 t ->
  last_block 0 t (full_warp_events dev p gd) b
  = decompose (start_task_id dev (threads_args p) 0 t
               + (threads_lane_rounds dev (threads_args p) 0 t - 1)
                 * num_threads dev) gd.
Proof.
  intros Htpw HA Ht HR. unfold full_warp_events.
  destruct (Z.leb_spec 1 (tp_active_warps p)); [|lia].
  unfold warps_run. rewrite flat_map_app, last_block_app.
  rewrite (last_block_other_warps dev (threads_args p) gd 0 t
             (siblings (tp_active_warps p)))
    by (intros Hin; apply in_siblings in Hin; lia).
  cbn [flat_map]. rewrite app_nil_r. unfold task_warp_events.
  apply last_block_lanes; [apply NoDup_lanes_of_mask| |exact HR].
  rewrite lanes_of_full_mask by lia. apply in_first_lanes. exact Ht.
Qed.

(** ** What the tail of the task path observes *)


(** The invocations of the task path on an active core, with the block
    each tail lane observes. *)
Lemma task_core_blocks fuel dev core_id dimension grid_dim block_dim st :
  device_ok dev ->
  let geo := normalize dimension grid_dim block_dim st in
  let gd := geo_gridDim geo in
  let p := threads_plan dev core_id (num_groups geo) in
  let tpw := num_threads dev in
  let W := tp_total_warps p in
  let A := tp_active_warps p in
  let r := tp_remaining_tasks p in
  let off := tp_all_tasks_offset p in
  let rows0 := threads_iterations (threads_args p) 0 in
  let stale := fun t =>
    if 1 <=? A then decompose (off + (rows0 - 1) * tpw + t) gd
    else blockIdx (tls st 0 t) in
  group_size geo <= 1 ->
  0 <= core_id < active_cores dev geo ->
  num_groups geo < Z.of_nat fuel ->
  exists st' ctx,
    vx_spawn_threads fuel dev core_id dimension grid_dim block_dim st
    = Some (0, st')
    /\ calls (trace st')
       = calls (trace st)
         ++ full_warp_events dev p gd
         ++ map (fun t => (0, t, ctx t)) (first_lanes r)
    /\ (forall t, 0 <= t < r -> blockIdx (ctx t) = stale t)
    /\ (1 <= A -> 1 <= rows0 <= W).
Proof.
  intros Hdev geo gd p tpw W A r off rows0 stale Hgs Ha Hfuel.
  pose proof (num_groups_range dimension grid_dim block_dim st) as Hn.
  fold geo in Hn.
  pose proof (task_path_validated dev geo Hdev Hgs) as Hv.
  assert (Hact : 0 <= core_id < tp_active_cores p).
  { unfold active_cores in Ha.
    destruct (Z.ltb_spec 1 (group_size geo)); [lia|exact Ha]. }
  pose proof (task_warps dev Hdev core_id (num_groups geo) Hn Hact)
    as (EP & Hr & HW).
  pose proof (task_schedule dev Hdev core_id (num_groups geo) Hn Hact)
    as (HA & HAW & _).
  fold p in EP, Hr, HW, HA, HAW.
  fold tpw W r in EP, Hr, HW. fold A W in HA, HAW.
  pose proof Hdev as [_ _ Htpw _]. fold tpw in Htpw.
  assert (Hrows : 1 <= A ->
            1 <= rows0 <= W
            /\ forall t, 0 <= t < tpw ->
                 threads_lane_rounds dev (threads_args p) 0 t = rows0
                 /\ start_task_id dev (threads_args p) 0 t = off + t).
  { intros HA1.
    destruct (task_warp dev Hdev core_id (num_groups geo) Hn Hact 0
                ltac:(fold p A; lia)) as (E1 & _ & H0 & Hle).
    fold p in E1, H0, Hle. fold W A in E1, H0, Hle. fold rows0 in E1, Hle.
    assert (1 <= W / A) by (apply Z.div_le_lower_bound; lia).
    split; [split; [rewrite E1; destruct (0 <? W mod A); lia|lia]|].
    intros t Ht.
    destruct (full_lane dev Hdev core_id (num_groups geo) Hn Hact 0 t
                ltac:(fold p A; lia) Ht) as (R1 & S1 & _).
    fold p in R1, S1. fold W A off tpw in R1, S1.
    rewrite (slab_start_succ W A 0) in R1 by lia.
    rewrite (slab_start_0 W A) in R1, S1 by lia.
    split; [rewrite R1, E1; cbn [Z.add]; lia|rewrite S1; lia]. }
  destruct (task_core_run fuel dev core_id dimension grid_dim block_dim st
              Hdev Hv Hgs Ha Hfuel) as (st2 & st3 & E2 & _ & E & C2 & C3).
  fold geo p gd in E2, C2, C3. fold r in C3.
  set (st1 := csr_write (scratch_threads (threads_args p))
                (set_warps_per_group 0
                   (set_dims (geo_gridDim geo) (geo_blockDim geo) st)))
    in E2.
  destruct (spawn_full_warps_follows fuel dev p st1 st2 E2) as (new & C & B).
  change (calls (trace st1)) with (calls (trace st)) in C.
  change (tls st1) with (tls st) in B.
  rewrite C2 in C. apply app_inv_head in C. subst new.
  exists (emit (ev_wspawn 1 entry_null) st3), (tls st2 0).
  split; [exact E|]. split; [|split].
  - cbn [emit trace]. rewrite calls_app, C3, C2. cbn [calls flat_map app].
    rewrite app_nil_r, <- app_assoc. reflexivity.
  - intros t Ht. rewrite B. unfold stale.
    destruct (Z.leb_spec 1 A) as [HA1|HA0].
    + destruct (Hrows HA1) as (Hr0 & Hlane).
      destruct (Hlane t ltac:(lia)) as (R1 & S1).
      rewrite (last_block_full_warps dev p gd t (blockIdx (tls st 0 t))
                 Htpw HA1 ltac:(fold tpw; lia) ltac:(rewrite R1; lia)).
      rewrite R1, S1. fold tpw. f_equal. lia.
    + unfold full_warp_events. fold A.
      destruct (Z.leb_spec 1 A); [lia|]. reflexivity.
  - intros HA1. apply (Hrows HA1).
Qed.



(** ** The conformance test *)

Lemma s32_small v : -2147483648 <= v < 2147483648 -> s32 v = v.
Proof. intros H. unfold s32. rewrite Z.mod_small; lia. Qed.

Lemma u32_s32 v : u32 (s32 v) = u32 v.
Proof.
  unfold u32, s32. rewrite Zminus_mod_idemp_l. f_equal. lia.
Qed.

(** *** check_error *)

Lemma indices_step (i : Z) (n : nat) :
  map (fun k => i + k) (map Z.of_nat (seq 0 (S n)))
  = i :: map (fun k => i + 1 + k) (map Z.of_nat (seq 0 n)).
Proof.
  cbn [seq map]. rewrite Z.add_0_r. f_equal.
  rewrite <- seq_shift, !map_map. apply map_ext. intros k. lia.
Qed.

Lemma check_error_loop_counts buffer (n : nat) :
  forall i errors out,
    -2147483713 <= i -> i + Z.of_nat n <= 2147483583 ->
    0 <= errors -> errors + Z.of_nat n < 2147483648 ->
    let wrong :=
      filter (fun j => negb (buffer j =? 65 + j))
             (map (fun k => i + k) (map Z.of_nat (seq 0 n))) in
    check_error_loop buffer n i errors out
    = (errors + Z.of_nat (length wrong),
       out ++ map (fun j => line_error j (buffer j) (65 + j)) wrong).
Proof.
  induction n as [|n IH]; intros i errors out Hi Hn He Hen wrong.
  - cbn. rewrite Z.add_0_r, app_nil_r. reflexivity.
  - subst wrong. rewrite indices_step.
    cbn [check_error_loop filter]. rewrite (s32_small (65 + i)) by lia.
    destruct (buffer i =? 65 + i); cbn [negb].
    + apply IH; lia.
    + rewrite (s32_small (errors + 1)) by lia.
      rewrite IH by lia. cbn [length map].
      rewrite <- app_assoc. cbn [app]. f_equal. lia.
Qed.

Lemma check_error_loop_agree b1 b2 (n : nat) :
  forall i errors out,
    (forall j, i <= j < i + Z.of_nat n -> b1 j = b2 j) ->
    check_error_loop b1 n i errors out = check_error_loop b2 n i errors out.
Proof.
  induction n as [|n IH]; intros i errors out H; [reflexivity|].
  cbn [check_error_loop]. rewrite (H i) by lia.
  destruct (b2 i =? s32 (65 + i)); apply IH; intros j Hj; apply H; lia.
Qed.

Lemma check_error_agree b1 b2 offset size :
  (forall j, offset <= j < size -> b1 j = b2 j) ->
  check_error b1 offset size = check_error b2 offset size.
Proof.
  intros H. unfold check_error. apply check_error_loop_agree.
  intros j Hj. apply H. lia.
Qed.

(** X17 - what [check_error] counts.  For a buffer read from a nonnegative
    offset up to a size whose reference values fit an [int], the result is
    the number of indices [i] of [offset .. size-1] with
    [buffer[i] != 65 + i], and one line is printed for each of them, in
    increasing order.  It is 0 exactly when the range holds the reference
    pattern, in particular when the range is empty, and never above the
    length of the range. *)
Theorem check_error_counts buffer offset size :
  0 <= offset -> size <= 2147483583 ->
  let wrong :=
    filter (fun i => negb (buffer i =? 65 + i))
           (map (fun k => offset + k) (first_lanes (size - offset))) in
  let errors := fst (check_error buffer offset size) in
  check_error buffer offset size
  = (Z.of_nat (length wrong),
     map (fun i => line_error i (buffer i) (65 + i)) wrong)
  /\ (forall i, In i wrong <-> offset <= i < size /\ buffer i <> 65 + i)
  /\ 0 <= errors <= Z.max 0 (size - offset)
  /\ (errors = 0 <-> forall i, offset <= i < size -> buffer i = 65 + i).
Proof.
  intros Hoff Hsize wrong errors.
  assert (E : check_error buffer offset size
              = (Z.of_nat (length wrong),
                 map (fun i => line_error i (buffer i) (65 + i)) wrong)).
  { unfold check_error, wrong, first_lanes.
    destruct (Z.le_gt_cases size offset) as [L|L].
    - replace (Z.to_nat (size - offset)) with 0%nat by lia. reflexivity.
    - rewrite check_error_loop_counts by lia. reflexivity. }
  assert (Hin : forall i, In i wrong
                          <-> offset <= i < size /\ buffer i <> 65 + i).
  { intros i. unfold wrong. rewrite filter_In, in_map_iff. split.
    - intros ((k & <- & Hk) & Hb). apply in_first_lanes in Hk.
      split; [lia|]. destruct (Z.eqb_spec (buffer (offset + k))
                                          (65 + (offset + k)));
        [discriminate|assumption].
    - intros (Hi & Hb). split.
      + exists (i - offset). split; [lia|]. apply in_first_lanes. lia.
      + destruct (Z.eqb_spec (buffer i) (65 + i)); [contradiction|].
        reflexivity. }
  split; [exact E|]. split; [exact Hin|].
  unfold errors. rewrite E. cbn [fst].
  split; [split; [lia|]|].
  - unfold wrong.
    pose proof (filter_length_le (fun i => negb (buffer i =? 65 + i))
                  (map (fun k => offset + k) (first_lanes (size - offset))))
      as L.
    unfold first_lanes in L. rewrite !length_map, length_seq in L.
    unfold first_lanes. lia.
  - split.
    + intros H0 i Hi. destruct (Z.eq_dec (buffer i) (65 + i)) as [e|ne];
        [exact e|].
      assert (Hw : In i wrong) by (apply Hin; split; assumption).
      destruct wrong; [destruct Hw|]. cbn [length] in H0. lia.
    + intros Hall. destruct wrong as [|i l] eqn:Ew; [reflexivity|].
      exfalso. destruct (proj1 (Hin i) (or_introl eq_refl)) as (Hi & Hb).
      apply Hb, Hall, Hi.
Qed.

Lemma check_error_counts_witness :
  let buffer := arr [65; 66; 0; 68; 70] in
  0 <= 0 /\ 5 <= 2147483583
  /\ check_error buffer 0 5 = (2, [line_error 2 0 67; line_error 4 70 69]).
Proof.
  intros buffer.
  assert (H0 : 0 <= 0) by lia.
  assert (H1 : 5 <= 2147483583) by lia.
  split; [exact H0|]. split; [exact H1|].
  exact (proj1 (check_error_counts buffer 0 5 H0 H1)).
Defined.

(** *** The mask helpers *)

Lemma filter_one_lane (tid : Z) (n : nat) :
  0 <= tid ->
  filter (fun t => t =? tid) (map Z.of_nat (seq 0 n))
  = if tid <? Z.of_nat n then [tid] else [].
Proof.
  intros H. induction n as [|n IH].
  { destruct (Z.ltb_spec tid (Z.of_nat 0)); [lia|reflexivity]. }
  rewrite seq_S, map_app, filter_app, IH. cbn [seq map filter Nat.add].
  destruct (Z.ltb_spec tid (Z.of_nat n)); destruct (Z.eqb_spec (Z.of_nat n) tid);
    destruct (Z.ltb_spec tid (Z.of_nat (S n))); try lia;
    try reflexivity.
  subst tid. reflexivity.
Qed.

(** X18 - the lanes the mask helpers select.  On a warp of up to 32 lanes
    the mask [make_full_tmask(n)], for n from 0 to 31, enables exactly the
    lanes [0 .. n-1] the warp has, and [make_select_tmask(tid)], for tid
    from 0 to 31, enables lane [tid] alone (no lane when the warp has no
    such lane); the full mask of [n + 1] lanes is the full mask of [n]
    lanes with the bit of lane [n] added. *)
Theorem tmask_helpers_lanes tpw n :
  0 <= tpw <= 32 -> 0 <= n <= 31 ->
  lanes_of_mask tpw (u32 (make_full_tmask n)) = first_lanes (Z.min n tpw)
  /\ lanes_of_mask tpw (u32 (make_select_tmask n))
     = (if n <? tpw then [n] else [])
  /\ (n < 31 ->
      u32 (make_full_tmask (n + 1))
      = Z.lor (u32 (make_full_tmask n)) (u32 (make_select_tmask n))).
Proof.
  intros Htpw Hn.
  assert (Epow : 0 < 2 ^ n <= 2147483648).
  { split; [apply Z.pow_pos_nonneg; lia|].
    change 2147483648 with (2 ^ 31). apply Z.pow_le_mono_r; lia. }
  assert (Efull : forall k, 0 <= k <= 31 ->
                            u32 (make_full_tmask k) = Z.ones k).
  { intros k Hk. unfold make_full_tmask. rewrite u32_s32.
    unfold u32. rewrite <- Zminus_mod_idemp_l.
    fold (u32 (s32 (Z.shiftl 1 k))). rewrite u32_s32. unfold u32.
    rewrite Zminus_mod_idemp_l. apply low_mask_u32. lia. }
  assert (Esel : u32 (make_select_tmask n) = 2 ^ n).
  { unfold make_select_tmask. rewrite u32_s32, Z.shiftl_1_l.
    apply u32_small. lia. }
  split; [|split].
  - rewrite (Efull n Hn). unfold lanes_of_mask, first_lanes.
    destruct (Z.le_ge_cases n tpw) as [L|L].
    + rewrite Z.min_l by lia. apply (lanes_of_low_mask tpw n). lia.
    + rewrite Z.min_r by lia.
      transitivity (filter (fun t => Z.testbit (Z.ones tpw) t)
                           (map Z.of_nat (seq 0 (Z.to_nat tpw)))).
      * apply filter_ext_in. intros t Ht. apply in_map_iff in Ht
          as (k & <- & Hk). apply in_seq in Hk.
        rewrite !Z.ones_spec_low by lia. reflexivity.
      * apply (lanes_of_low_mask tpw tpw). lia.
  - rewrite Esel. unfold lanes_of_mask.
    rewrite (filter_ext (fun t => Z.testbit (2 ^ n) t) (fun t => t =? n)).
    + rewrite filter_one_lane by lia. rewrite Z2Nat.id by lia. reflexivity.
    + intros t. rewrite Z.pow2_bits_eqb by lia. apply Z.eqb_sym.
  - intros Hlt. rewrite (Efull (n + 1)) by lia. rewrite (Efull n Hn), Esel.
    apply Z.bits_inj'. intros t Ht. rewrite Z.lor_spec.
    rewrite Z.pow2_bits_eqb by lia.
    destruct (Z.ltb_spec t n) as [L|L].
    + rewrite !Z.ones_spec_low by lia. reflexivity.
    + rewrite (Z.ones_spec_high n) by lia. cbn [orb].
      destruct (Z.eqb_spec n t) as [->|ne].
      * apply Z.ones_spec_low. lia.
      * apply Z.ones_spec_high. lia.
Qed.

Lemma tmask_helpers_lanes_witness :
  (0 <= 4 <= 32 /\ 0 <= 3 <= 31)
  /\ lanes_of_mask 4 (u32 (make_full_tmask 3)) = [0; 1; 2]
  /\ lanes_of_mask 4 (u32 (make_select_tmask 3)) = [3].
Proof.
  assert (H1 : 0 <= 4 <= 32) by lia.
  assert (H2 : 0 <= 3 <= 31) by lia.
  split; [exact (conj H1 H2)|].
  destruct (tmask_helpers_lanes 4 3 H1 H2) as (F & S & _).
  split; [exact F|exact S].
Defined.

(** *** test_spawn_tasks *)

Lemma st_kernel_run (l : list (Z * Z * tls_t)) :
  forall m,
    (forall e, In e l -> 0 <= dim_x (blockIdx (snd e)) < ST_BUF_SZ) ->
    exists m',
      foreach l (fun e => st_kernel (snd e)) m = Some m'
      /\ st_buffer_src m' = st_buffer_src m
      /\ forall j,
           st_buffer_dst m' j
           = if existsb (fun e => dim_x (blockIdx (snd e)) =? j) l
             then st_buffer_src m j else st_buffer_dst m j.
Proof.
  induction l as [|e l IH]; intros m Hl.
  - exists m. repeat split.
  - cbn [foreach]. unfold st_kernel at 1.
    pose proof (Hl e (or_introl eq_refl)) as He.
    destruct (Z.leb_spec 0 (dim_x (blockIdx (snd e)))); [|lia].
    destruct (Z.ltb_spec (dim_x (blockIdx (snd e))) ST_BUF_SZ); [|lia].
    cbn [andb].
    destruct (IH (mk_st_memory (st_buffer_src m)
                    (store (st_buffer_dst m) (dim_x (blockIdx (snd e)))
                           (st_buffer_src m (dim_x (blockIdx (snd e))))))
                ltac:(intros e' He'; apply Hl; right; exact He'))
      as (m' & E & Es & Ed).
    exists m'. split; [exact E|]. split; [exact Es|].
    intros j. rewrite Ed. cbn [existsb st_buffer_src st_buffer_dst].
    unfold store.
    destruct (existsb (fun e0 => dim_x (blockIdx (snd e0)) =? j) l).
    + rewrite orb_true_r. reflexivity.
    + rewrite orb_false_r.
      destruct (Z.eqb_spec (dim_x (blockIdx (snd e))) j) as [->|ne].
      * rewrite Z.eqb_refl. reflexivity.
      * destruct (Z.eqb_spec j (dim_x (blockIdx (snd e)))); [congruence|].
        reflexivity.
Qed.

Lemma spawn_tasks_geometry st :
  let geo := normalize 1 (Some (arr [ST_BUF_SZ])) None st in
  num_groups geo = 8 /\ group_size geo = 1
  /\ geo_gridDim geo = mk_dim3 8 1 1.
Proof. rewrite normalize_unfold. repeat split. Qed.

Lemma spawn_tasks_plan dev :
  device_ok dev ->
  num_cores dev = 1 \/ ST_BUF_SZ <= num_warps dev * num_threads dev ->
  num_warps dev * num_threads dev + ST_BUF_SZ - 1 < 4294967296 ->
  let p := threads_plan dev 0 8 in
  tp_active_cores p = 1
  /\ tp_all_tasks_offset p = 0
  /\ tp_tasks_per_core p = 8.
Proof.
  intros Hdev Hone Hfit p. unfold ST_BUF_SZ in *.
  destruct (capacity_exact dev Hdev) as (Ecap & Hcap).
  pose proof Hdev as [Hc _ _ _].
  assert (Ea : tp_active_cores p = 1).
  { unfold p, threads_plan. cbn [tp_active_cores].
    rewrite Ecap, MIN_spec, u32_small by lia.
    pose proof (needed_cores_bounds 8 1 (num_warps dev * num_threads dev)
                  ltac:(lia) ltac:(lia)) as (Hb & Hp).
    rewrite Z.mul_1_r in Hb, Hp. specialize (Hp ltac:(lia)).
    destruct Hone as [E1|Hbig]; [lia|].
    assert ((8 + num_warps dev * num_threads dev - 1)
            / (num_warps dev * num_threads dev) < 2)
      by (apply Z.div_lt_upper_bound; lia).
    lia. }
  assert (Hact : 0 <= 0 < tp_active_cores p) by lia.
  destruct (task_slab dev 0 8 ltac:(lia) Hact) as (Eo & Ep & _).
  fold p in Eo, Ep. rewrite Ea in Eo, Ep.
  split; [exact Ea|]. split; [rewrite Eo|rewrite Ep]; reflexivity.
Qed.

(** X19 - the outcome of [test_spawn_tasks].  On core 0 of a device where
    one core takes the 8 tasks (a single core, or 8 or more threads per
    core), started with zeroed thread-locals and a zeroed destination
    buffer, the test never indexes outside its buffers and returns
    [8 mod threads_per_warp] errors when a warp has at most 8 lanes, and 7
    when it has more: the entries of the tail tasks are never written,
    because their lanes run the kernel with the [blockIdx] they were left
    with.  The entries below [8 - errors] hold the reference pattern, the
    others are still 0 and are the ones reported.  So the test passes
    exactly with 1, 2, 4 or 8 threads per warp. *)
Theorem test_spawn_tasks_result fuel dev st m :
  device_ok dev ->
  let tpw := num_threads dev in
  let errors :=
    if tpw <=? ST_BUF_SZ then ST_BUF_SZ mod tpw else ST_BUF_SZ - 1 in
  num_cores dev = 1 \/ ST_BUF_SZ <= num_warps dev * tpw ->
  num_warps dev * tpw + ST_BUF_SZ - 1 < 4294967296 ->
  (forall t, 0 <= t < ST_BUF_SZ -> dim_x (blockIdx (tls st 0 t)) = 0) ->
  (forall j, 0 <= j < ST_BUF_SZ -> st_buffer_dst m j = 0) ->
  ST_BUF_SZ < Z.of_nat fuel ->
  exists m' st',
    test_spawn_tasks fuel dev 0 st m
    = Some (errors,
            line_banner
            :: map (fun j => line_error j 0 (65 + j))
                   (map (fun k => ST_BUF_SZ - errors + k) (first_lanes errors)),
            m', st')
    /\ (forall j, 0 <= j < ST_BUF_SZ ->
          st_buffer_dst m' j = if j <? ST_BUF_SZ - errors then 65 + j else 0)
    /\ (errors = 0 <-> tpw = 1 \/ tpw = 2 \/ tpw = 4 \/ tpw = 8).
Proof.
  intros Hdev tpw errors Hone Hfit Htls Hdst Hfuel.
  pose proof Hdev as [_ _ Htpw _]. fold tpw in Htpw.
  set (geo := normalize 1 (Some (arr [ST_BUF_SZ])) None st).
  destruct (spawn_tasks_geometry st) as (En & Eg & Egd). fold geo in En, Eg, Egd.
  destruct (spawn_tasks_plan dev Hdev Hone Hfit) as (Ea & Eoff & EP).
  set (p := threads_plan dev 0 8) in *.
  assert (Hn : 0 <= 8 < 4294967296) by lia.
  assert (Hact : 0 <= 0 < tp_active_cores p) by lia.
  pose proof (task_warps dev Hdev 0 8 Hn Hact) as (EPW & Hr & HW).
  pose proof (task_schedule dev Hdev 0 8 Hn Hact) as (HA & HAW & HA0 & _).
  fold p in EPW, Hr, HW, HA, HAW, HA0. fold tpw in EPW, Hr.
  set (W := tp_total_warps p) in *. set (A := tp_active_warps p) in *.
  set (r := tp_remaining_tasks p) in *. rewrite EP in EPW.
  assert (HWt : 0 <= tpw * W <= 8) by (split; [apply Z.mul_nonneg_nonneg|]; lia).
  (* the errors are the tail tasks, or all but one when no warp is full *)
  assert (Hk : if 1 <=? A then errors = r /\ 1 <= W
               else errors = 7 /\ W = 0 /\ r = 8).
  { unfold errors, ST_BUF_SZ. destruct (Z.leb_spec 1 A) as [HA1|HA1].
    - assert (1 <= W) by lia.
      assert (tpw * 1 <= tpw * W) by (apply Z.mul_le_mono_nonneg_l; lia).
      destruct (Z.leb_spec tpw 8); [|lia].
      split; [|assumption]. symmetry. apply Z.mod_unique with (q := W); lia.
    - assert (W = 0) by (apply HA0; lia).
      assert (tpw * W = 0) by (subst W; lia).
      destruct (Z.leb_spec tpw 8); [lia|]. repeat split; lia. }
  assert (Herr : 0 <= errors <= 8 /\ 0 <= ST_BUF_SZ - errors).
  { unfold ST_BUF_SZ. destruct (1 <=? A); lia. }
  (* the launch *)
  assert (Hgs : group_size geo <= 1) by lia.
  assert (Hac : 0 <= 0 < active_cores dev geo).
  { unfold active_cores. rewrite Eg, En. change (1 <? 1) with false.
    cbv iota. fold p. lia. }
  assert (Hfu : num_groups geo < Z.of_nat fuel)
    by (rewrite En; exact Hfuel).
  destruct (task_core_blocks fuel dev 0 1 (Some (arr [ST_BUF_SZ])) None st Hdev
              Hgs Hac Hfu) as (st' & ctx & E & C & Hstale & Hrows).
  fold geo in C, Hstale, Hrows. rewrite ?En, ?Egd in C, Hstale, Hrows.
  fold p in C, Hstale, Hrows. fold tpw W A r in C, Hstale, Hrows.
  rewrite Eoff in Hstale. cbv zeta in Hstale.
  set (gd := mk_dim3 8 1 1) in *.
  set (full := full_warp_events dev p gd) in *.
  set (tail := map (fun t => (0, t, ctx t)) (first_lanes r)) in *.
  assert (Hx : forall j, 0 <= j < 8 -> dim_x (decompose j gd) = j)
    by (intros j Hj; cbn; apply Z.mod_small; lia).
  (* what the lanes observe *)
  assert (Hfull : forall e, In e full ->
            exists j, 0 <= j < W * tpw /\ blockIdx (snd e) = decompose j gd).
  { intros e He.
    destruct (full_sound dev Hdev 0 8 Hn Hact gd (blockIdx (snd e))
                ltac:(apply in_map_iff; exists e; split; [reflexivity|exact He]))
      as (j & Hj & Ej).
    fold p in Hj. rewrite Eoff in Hj. fold W tpw in Hj.
    exists j. split; [lia|exact Ej]. }
  assert (Htail : forall e, In e tail ->
            exists t, 0 <= t < r /\ blockIdx (snd e)
              = if 1 <=? A
                then decompose (0 + (threads_iterations (threads_args p) 0 - 1)
                                    * tpw + t) gd
                else blockIdx (tls st 0 t)).
  { intros e He. apply in_map_iff in He as (t & <- & Ht).
    apply in_first_lanes in Ht. exists t. split; [exact Ht|].
    cbn [snd]. apply Hstale, Ht. }
  assert (Hseen : forall e, In e (full ++ tail) ->
            0 <= dim_x (blockIdx (snd e)) < ST_BUF_SZ - errors).
  { intros e He. unfold ST_BUF_SZ. apply in_app_or in He as [He|He].
    - destruct (Hfull e He) as (j & Hj & ->).
      destruct (Z.leb_spec 1 A) as [HA1|HA1].
      + rewrite Hx by lia. lia.
      + destruct Hk as (_ & HW0 & _). rewrite HW0 in Hj. lia.
    - destruct (Htail e He) as (t & Ht & ->).
      destruct (Z.leb_spec 1 A) as [HA1|HA1].
      + pose proof (Hrows HA1) as Hr0.
        set (rows0 := threads_iterations (threads_args p) 0) in *.
        assert (0 <= (rows0 - 1) * tpw) by (apply Z.mul_nonneg_nonneg; lia).
        assert ((rows0 - 1) * tpw + tpw <= W * tpw).
        { replace ((rows0 - 1) * tpw + tpw) with (rows0 * tpw) by lia.
          apply Z.mul_le_mono_nonneg_r; lia. }
        rewrite Hx by lia. lia.
      + rewrite Htls by (unfold ST_BUF_SZ; lia). lia. }
  assert (Hobs : forall j, 0 <= j < ST_BUF_SZ ->
            existsb (fun e => dim_x (blockIdx (snd e)) =? j) (full ++ tail)
            = (j <? ST_BUF_SZ - errors)).
  { intros j Hj. unfold ST_BUF_SZ in Hj.
    destruct (Z.ltb_spec j (ST_BUF_SZ - errors)) as [L|L].
    - apply existsb_exists. unfold ST_BUF_SZ in L.
      destruct (Z.leb_spec 1 A) as [HA1|HA1].
      + pose proof (full_complete dev Hdev 0 8 Hn Hact gd j) as Hin.
        fold p in Hin. rewrite Eoff in Hin. fold W tpw in Hin.
        specialize (Hin ltac:(lia)). apply in_map_iff in Hin as (e & Ee & He).
        exists e. split; [apply in_or_app; left; exact He|].
        rewrite Ee, Hx by lia. apply Z.eqb_refl.
      + destruct Hk as (Ek & HW0 & Er8).
        exists (0, 0, ctx 0). split.
        * apply in_or_app. right. apply in_map_iff. exists 0.
          split; [reflexivity|]. apply in_first_lanes. lia.
        * cbn [snd]. rewrite (Hstale 0) by lia.
          destruct (Z.leb_spec 1 A); [lia|].
          rewrite Htls by (unfold ST_BUF_SZ; lia).
          apply Z.eqb_eq. lia.
    - apply not_true_is_false. intros Hex.
      apply existsb_exists in Hex as (e & He & Ee).
      apply Z.eqb_eq in Ee. pose proof (Hseen e He). lia. }
  (* the kernel *)
  set (src := fold_left (fun a i => store a i (65 + i)) (first_lanes ST_BUF_SZ)
                        (st_buffer_src m)).
  assert (Hsrc : forall j, 0 <= j < ST_BUF_SZ -> src j = 65 + j).
  { intros j Hj. unfold ST_BUF_SZ in Hj.
    assert (Hc : j = 0 \/ j = 1 \/ j = 2 \/ j = 3 \/ j = 4 \/ j = 5 \/ j = 6
                 \/ j = 7) by lia.
    repeat (destruct Hc as [->|Hc]; [reflexivity|]). subst j. reflexivity. }
  destruct (st_kernel_run (full ++ tail) (mk_st_memory src (st_buffer_dst m))
              ltac:(intros e He; pose proof (Hseen e He); lia))
    as (m2 & Ek & _ & Ed).
  cbn [st_buffer_src st_buffer_dst] in Ed.
  assert (Hm2 : forall j, 0 <= j < ST_BUF_SZ ->
            st_buffer_dst m2 j
            = if j <? ST_BUF_SZ - errors then 65 + j else 0).
  { intros j Hj. rewrite Ed, Hobs, Hsrc, Hdst by assumption. reflexivity. }
  exists m2, st'. split; [|split; [exact Hm2|]].
  - unfold test_spawn_tasks. fold src. rewrite E. unfold run_kernel.
    rewrite C, skipn_app, skipn_all, Nat.sub_diag. cbn [app skipn].
    change (full_warp_events dev p (geo_gridDim geo)) with full.
    fold tail. rewrite Ek.
    rewrite (check_error_agree (st_buffer_dst m2)
               (fun j => if j <? ST_BUF_SZ - errors then 65 + j else 0)
               0 ST_BUF_SZ Hm2).
    unfold ST_BUF_SZ in *.
    assert (Hc : errors = 0 \/ errors = 1 \/ errors = 2 \/ errors = 3
                 \/ errors = 4 \/ errors = 5 \/ errors = 6 \/ errors = 7
                 \/ errors = 8) by lia.
    clearbody errors.
    repeat (destruct Hc as [->|Hc]; [reflexivity|]). subst errors.
    reflexivity.
  - unfold errors, ST_BUF_SZ.
    assert (Hc : tpw = 1 \/ tpw = 2 \/ tpw = 3 \/ tpw = 4 \/ tpw = 5
                 \/ tpw = 6 \/ tpw = 7 \/ tpw = 8 \/ 8 < tpw) by lia.
    clearbody tpw.
    repeat (destruct Hc as [->|Hc]; [cbn; lia|]).
    destruct (Z.leb_spec tpw 8); lia.
Qed.

Lemma test_spawn_tasks_result_witness :
  let dev := mk_device 1 2 3 in
  let m := mk_st_memory (fun _ => 0) (fun _ => 0) in
  (num_cores dev = 1 \/ ST_BUF_SZ <= num_warps dev * num_threads dev)
  /\ num_warps dev * num_threads dev + ST_BUF_SZ - 1 < 4294967296
  /\ ST_BUF_SZ < Z.of_nat 9
  /\ exists m' st',
       test_spawn_tasks 9 dev 0 boot m
       = Some (2, [line_banner; line_error 6 0 71; line_error 7 0 72], m', st')
       /\ map (st_buffer_dst m') [0; 1; 2; 3; 4; 5; 6; 7]
          = [65; 66; 67; 68; 69; 70; 0; 0].
Proof.
  intros dev m.
  assert (Hd : device_ok dev) by (constructor; cbn; lia).
  assert (H1 : num_cores dev = 1
               \/ ST_BUF_SZ <= num_warps dev * num_threads dev)
    by (left; reflexivity).
  assert (H2 : num_warps dev * num_threads dev + ST_BUF_SZ - 1 < 4294967296)
    by reflexivity.
  assert (H3 : ST_BUF_SZ < Z.of_nat 9) by reflexivity.
  split; [exact H1|]. split; [exact H2|]. split; [exact H3|].
  destruct (test_spawn_tasks_result 9%nat dev boot m Hd H1 H2
              (fun _ _ => eq_refl) (fun _ _ => eq_refl) H3)
    as (m' & st' & E & D & _).
  exists m', st'. split; [exact E|].
  cbn [map]. rewrite !D by (unfold ST_BUF_SZ; lia). reflexivity.
Defined.
